(** * webDataVirtualization: the ingestion and projection pipeline of [src/App.tsx]

    A shallow embedding of the dashboard's core logic: the CSV scanner
    ([parseCSVLine], [parseCSVFile]), the numeric clean-up of spreadsheet rows
    ([parseExcelFile]), the upload handler ([handleFileUpload]), the default
    axis selection (the [useEffect] on [columns] and [data]), the chart
    projection ([processedData]), the statistics panel ([yAxisStats]), the
    chart area ([renderChart]), the data preview and the events of the
    page.

    JavaScript values are modelled as the program has them: strings are
    sequences of UTF-16 code units, numbers are IEEE-754 binary64 values
    (the standard library's [spec_float] at precision 53), objects are
    property lists in creation order. *)

From Stdlib Require Import String Ascii.
From Stdlib Require Import List Bool Arith NArith ZArith Lia.
From Stdlib Require Import Sorting.Sorted Sorting.Permutation.
From Stdlib Require Import Floats.SpecFloat.
Import ListNotations.

Set Implicit Arguments.

(* ================================================================== *)
(** * The JavaScript runtime the program relies on *)
(* ================================================================== *)

Module JS.

(** ** Strings: lists of UTF-16 code units *)

Definition jsstring := list N.

(** The code units of a Rocq string of one-byte characters. *)
Definition js (s : string) : jsstring :=
  List.map N_of_ascii (list_ascii_of_string s).

Definition QUOTE : N := 34.   (* the double quote *)
Definition COMMA : N := 44.
Definition DOT : N := 46.
Definition LF : N := 10.

(** A string literal for test data, written with an apostrophe for each
    double quote and a vertical bar for each line feed. *)
Definition lit (s : string) : jsstring :=
  List.map (fun c => if N.eqb c 39 then QUOTE else if N.eqb c 124 then LF else c) (js s).

Fixpoint str_eqb (a b : jsstring) : bool :=
  match a, b with
  | [], [] => true
  | x :: a', y :: b' => N.eqb x y && str_eqb a' b'
  | _, _ => false
  end.

(** ECMAScript WhiteSpace and LineTerminator code points: what
    [String.prototype.trim] removes and what [StringToNumber] skips. *)
Definition isWhiteSpace (c : N) : bool :=
  (N.eqb c 9 || N.eqb c 10 || N.eqb c 11 || N.eqb c 12 || N.eqb c 13
   || N.eqb c 32 || N.eqb c 160 || N.eqb c 5760
   || (N.leb 8192 c && N.leb c 8202)
   || N.eqb c 8232 || N.eqb c 8233 || N.eqb c 8239 || N.eqb c 8287
   || N.eqb c 12288 || N.eqb c 65279)%bool.

Fixpoint trimStart (s : jsstring) : jsstring :=
  match s with
  | c :: t => if isWhiteSpace c then trimStart t else s
  | [] => []
  end.

Definition trimEnd (s : jsstring) : jsstring := rev (trimStart (rev s)).

(** [s.trim()] *)
Definition trim (s : jsstring) : jsstring := trimEnd (trimStart s).

(** [s.split(sep)] for a separator of one code unit: always at least one
    piece. *)
Fixpoint split (sep : N) (s : jsstring) : list jsstring :=
  match s with
  | [] => [[]]
  | c :: t =>
      if N.eqb c sep then [] :: split sep t
      else match split sep t with
           | seg :: rest => (c :: seg) :: rest
           | [] => [[c]]
           end
  end.

(** [s.substring(a, b)]: the arguments are clamped to the length and
    swapped when out of order. *)
Definition substring (a b : nat) (s : jsstring) : jsstring :=
  let a' := Nat.min a (length s) in
  let b' := Nat.min b (length s) in
  let lo := Nat.min a' b' in
  let hi := Nat.max a' b' in
  firstn (hi - lo) (skipn lo s).

(** [s.substring(a)] *)
Definition substringFrom (a : nat) (s : jsstring) : jsstring :=
  substring a (length s) s.

(** *** Case conversion

    [s.toLowerCase()] reads the string as code points, replaces each code
    point by its lower-case mapping in the Unicode Character Database and
    writes the result back as code units.  The mappings are the simple
    lower-case mappings of [UnicodeData.txt] and the two mappings of
    [SpecialCasing.txt] that do not depend on the language: U+0130 gives
    [i] followed by U+0307, and the capital sigma U+03A3 gives the final
    sigma U+03C2 when it ends a word and U+03C3 otherwise.  The tables are
    those of version 14.0 of the database. *)

(** The simple lower-case mappings, in ascending order: of the code points
    from the first to the second number, one in every [step], the first is
    mapped to the fourth number and the others follow at the same
    distance. *)
Definition lowerCaseRuns : list (N * N * N * N) :=
  [ (65, 90, 1, 97); (192, 214, 1, 224); (216, 222, 1, 248);
    (256, 302, 2, 257); (306, 310, 2, 307); (313, 327, 2, 314);
    (330, 374, 2, 331); (376, 376, 1, 255); (377, 381, 2, 378);
    (385, 385, 1, 595); (386, 388, 2, 387); (390, 390, 1, 596);
    (391, 391, 1, 392); (393, 394, 1, 598); (395, 395, 1, 396);
    (398, 398, 1, 477); (399, 399, 1, 601); (400, 400, 1, 603);
    (401, 401, 1, 402); (403, 403, 1, 608); (404, 404, 1, 611);
    (406, 406, 1, 617); (407, 407, 1, 616); (408, 408, 1, 409);
    (412, 412, 1, 623); (413, 413, 1, 626); (415, 415, 1, 629);
    (416, 420, 2, 417); (422, 422, 1, 640); (423, 423, 1, 424);
    (425, 425, 1, 643); (428, 428, 1, 429); (430, 430, 1, 648);
    (431, 431, 1, 432); (433, 434, 1, 650); (435, 437, 2, 436);
    (439, 439, 1, 658); (440, 440, 1, 441); (444, 444, 1, 445);
    (452, 452, 1, 454); (453, 453, 1, 454); (455, 455, 1, 457);
    (456, 456, 1, 457); (458, 458, 1, 460); (459, 475, 2, 460);
    (478, 494, 2, 479); (497, 497, 1, 499); (498, 500, 2, 499);
    (502, 502, 1, 405); (503, 503, 1, 447); (504, 542, 2, 505);
    (544, 544, 1, 414); (546, 562, 2, 547); (570, 570, 1, 11365);
    (571, 571, 1, 572); (573, 573, 1, 410); (574, 574, 1, 11366);
    (577, 577, 1, 578); (579, 579, 1, 384); (580, 580, 1, 649);
    (581, 581, 1, 652); (582, 590, 2, 583); (880, 882, 2, 881);
    (886, 886, 1, 887); (895, 895, 1, 1011); (902, 902, 1, 940);
    (904, 906, 1, 941); (908, 908, 1, 972); (910, 911, 1, 973);
    (913, 929, 1, 945); (932, 939, 1, 964); (975, 975, 1, 983);
    (984, 1006, 2, 985); (1012, 1012, 1, 952); (1015, 1015, 1, 1016);
    (1017, 1017, 1, 1010); (1018, 1018, 1, 1019); (1021, 1023, 1, 891);
    (1024, 1039, 1, 1104); (1040, 1071, 1, 1072); (1120, 1152, 2, 1121);
    (1162, 1214, 2, 1163); (1216, 1216, 1, 1231); (1217, 1229, 2, 1218);
    (1232, 1326, 2, 1233); (1329, 1366, 1, 1377); (4256, 4293, 1, 11520);
    (4295, 4295, 1, 11559); (4301, 4301, 1, 11565); (5024, 5103, 1, 43888);
    (5104, 5109, 1, 5112); (7312, 7354, 1, 4304); (7357, 7359, 1, 4349);
    (7680, 7828, 2, 7681); (7838, 7838, 1, 223); (7840, 7934, 2, 7841);
    (7944, 7951, 1, 7936); (7960, 7965, 1, 7952); (7976, 7983, 1, 7968);
    (7992, 7999, 1, 7984); (8008, 8013, 1, 8000); (8025, 8031, 2, 8017);
    (8040, 8047, 1, 8032); (8072, 8079, 1, 8064); (8088, 8095, 1, 8080);
    (8104, 8111, 1, 8096); (8120, 8121, 1, 8112); (8122, 8123, 1, 8048);
    (8124, 8124, 1, 8115); (8136, 8139, 1, 8050); (8140, 8140, 1, 8131);
    (8152, 8153, 1, 8144); (8154, 8155, 1, 8054); (8168, 8169, 1, 8160);
    (8170, 8171, 1, 8058); (8172, 8172, 1, 8165); (8184, 8185, 1, 8056);
    (8186, 8187, 1, 8060); (8188, 8188, 1, 8179); (8486, 8486, 1, 969);
    (8490, 8490, 1, 107); (8491, 8491, 1, 229); (8498, 8498, 1, 8526);
    (8544, 8559, 1, 8560); (8579, 8579, 1, 8580); (9398, 9423, 1, 9424);
    (11264, 11311, 1, 11312); (11360, 11360, 1, 11361);
    (11362, 11362, 1, 619); (11363, 11363, 1, 7549); (11364, 11364, 1, 637);
    (11367, 11371, 2, 11368); (11373, 11373, 1, 593); (11374, 11374, 1, 625);
    (11375, 11375, 1, 592); (11376, 11376, 1, 594); (11378, 11378, 1, 11379);
    (11381, 11381, 1, 11382); (11390, 11391, 1, 575);
    (11392, 11490, 2, 11393); (11499, 11501, 2, 11500);
    (11506, 11506, 1, 11507); (42560, 42604, 2, 42561);
    (42624, 42650, 2, 42625); (42786, 42798, 2, 42787);
    (42802, 42862, 2, 42803); (42873, 42875, 2, 42874);
    (42877, 42877, 1, 7545); (42878, 42886, 2, 42879);
    (42891, 42891, 1, 42892); (42893, 42893, 1, 613);
    (42896, 42898, 2, 42897); (42902, 42920, 2, 42903);
    (42922, 42922, 1, 614); (42923, 42923, 1, 604); (42924, 42924, 1, 609);
    (42925, 42925, 1, 620); (42926, 42926, 1, 618); (42928, 42928, 1, 670);
    (42929, 42929, 1, 647); (42930, 42930, 1, 669); (42931, 42931, 1, 43859);
    (42932, 42946, 2, 42933); (42948, 42948, 1, 42900);
    (42949, 42949, 1, 642); (42950, 42950, 1, 7566);
    (42951, 42953, 2, 42952); (42960, 42960, 1, 42961);
    (42966, 42968, 2, 42967); (42997, 42997, 1, 42998);
    (65313, 65338, 1, 65345); (66560, 66599, 1, 66600);
    (66736, 66771, 1, 66776); (66928, 66938, 1, 66967);
    (66940, 66954, 1, 66979); (66956, 66962, 1, 66995);
    (66964, 66965, 1, 67003); (68736, 68786, 1, 68800);
    (71840, 71871, 1, 71872); (93760, 93791, 1, 93792);
    (125184, 125217, 1, 125218) ]%N.

(** The code points with the property [Cased]. *)
Definition casedRanges : list (N * N) :=
  [ (65, 90); (97, 122); (170, 170); (181, 181); (186, 186); (192, 214);
    (216, 246); (248, 442); (444, 447); (452, 659); (661, 696); (704, 705);
    (736, 740); (837, 837); (880, 883); (886, 887); (890, 893); (895, 895);
    (902, 902); (904, 906); (908, 908); (910, 929); (931, 1013);
    (1015, 1153); (1162, 1327); (1329, 1366); (1376, 1416); (4256, 4293);
    (4295, 4295); (4301, 4301); (4304, 4346); (4349, 4351); (5024, 5109);
    (5112, 5117); (7296, 7304); (7312, 7354); (7357, 7359); (7424, 7615);
    (7680, 7957); (7960, 7965); (7968, 8005); (8008, 8013); (8016, 8023);
    (8025, 8025); (8027, 8027); (8029, 8029); (8031, 8061); (8064, 8116);
    (8118, 8124); (8126, 8126); (8130, 8132); (8134, 8140); (8144, 8147);
    (8150, 8155); (8160, 8172); (8178, 8180); (8182, 8188); (8305, 8305);
    (8319, 8319); (8336, 8348); (8450, 8450); (8455, 8455); (8458, 8467);
    (8469, 8469); (8473, 8477); (8484, 8484); (8486, 8486); (8488, 8488);
    (8490, 8493); (8495, 8500); (8505, 8505); (8508, 8511); (8517, 8521);
    (8526, 8526); (8544, 8575); (8579, 8580); (9398, 9449); (11264, 11492);
    (11499, 11502); (11506, 11507); (11520, 11557); (11559, 11559);
    (11565, 11565); (42560, 42605); (42624, 42653); (42786, 42887);
    (42891, 42894); (42896, 42954); (42960, 42961); (42963, 42963);
    (42965, 42969); (42997, 42998); (43000, 43002); (43824, 43866);
    (43868, 43880); (43888, 43967); (64256, 64262); (64275, 64279);
    (65313, 65338); (65345, 65370); (66560, 66639); (66736, 66771);
    (66776, 66811); (66928, 66938); (66940, 66954); (66956, 66962);
    (66964, 66965); (66967, 66977); (66979, 66993); (66995, 67001);
    (67003, 67004); (67456, 67456); (67459, 67461); (67463, 67504);
    (67506, 67514); (68736, 68786); (68800, 68850); (71840, 71903);
    (93760, 93823); (119808, 119892); (119894, 119964); (119966, 119967);
    (119970, 119970); (119973, 119974); (119977, 119980); (119982, 119993);
    (119995, 119995); (119997, 120003); (120005, 120069); (120071, 120074);
    (120077, 120084); (120086, 120092); (120094, 120121); (120123, 120126);
    (120128, 120132); (120134, 120134); (120138, 120144); (120146, 120485);
    (120488, 120512); (120514, 120538); (120540, 120570); (120572, 120596);
    (120598, 120628); (120630, 120654); (120656, 120686); (120688, 120712);
    (120714, 120744); (120746, 120770); (120772, 120779); (122624, 122633);
    (122635, 122654); (125184, 125251); (127280, 127305); (127312, 127337);
    (127344, 127369) ]%N.

(** The code points with the property [Case_Ignorable]. *)
Definition caseIgnorableRanges : list (N * N) :=
  [ (39, 39); (46, 46); (58, 58); (94, 94); (96, 96); (168, 168); (173, 173);
    (175, 175); (180, 180); (183, 184); (688, 879); (884, 885); (890, 890);
    (900, 901); (903, 903); (1155, 1161); (1369, 1369); (1375, 1375);
    (1425, 1469); (1471, 1471); (1473, 1474); (1476, 1477); (1479, 1479);
    (1524, 1524); (1536, 1541); (1552, 1562); (1564, 1564); (1600, 1600);
    (1611, 1631); (1648, 1648); (1750, 1757); (1759, 1768); (1770, 1773);
    (1807, 1807); (1809, 1809); (1840, 1866); (1958, 1968); (2027, 2037);
    (2042, 2042); (2045, 2045); (2070, 2093); (2137, 2139); (2184, 2184);
    (2192, 2193); (2200, 2207); (2249, 2306); (2362, 2362); (2364, 2364);
    (2369, 2376); (2381, 2381); (2385, 2391); (2402, 2403); (2417, 2417);
    (2433, 2433); (2492, 2492); (2497, 2500); (2509, 2509); (2530, 2531);
    (2558, 2558); (2561, 2562); (2620, 2620); (2625, 2626); (2631, 2632);
    (2635, 2637); (2641, 2641); (2672, 2673); (2677, 2677); (2689, 2690);
    (2748, 2748); (2753, 2757); (2759, 2760); (2765, 2765); (2786, 2787);
    (2810, 2815); (2817, 2817); (2876, 2876); (2879, 2879); (2881, 2884);
    (2893, 2893); (2901, 2902); (2914, 2915); (2946, 2946); (3008, 3008);
    (3021, 3021); (3072, 3072); (3076, 3076); (3132, 3132); (3134, 3136);
    (3142, 3144); (3146, 3149); (3157, 3158); (3170, 3171); (3201, 3201);
    (3260, 3260); (3263, 3263); (3270, 3270); (3276, 3277); (3298, 3299);
    (3328, 3329); (3387, 3388); (3393, 3396); (3405, 3405); (3426, 3427);
    (3457, 3457); (3530, 3530); (3538, 3540); (3542, 3542); (3633, 3633);
    (3636, 3642); (3654, 3662); (3761, 3761); (3764, 3772); (3782, 3782);
    (3784, 3789); (3864, 3865); (3893, 3893); (3895, 3895); (3897, 3897);
    (3953, 3966); (3968, 3972); (3974, 3975); (3981, 3991); (3993, 4028);
    (4038, 4038); (4141, 4144); (4146, 4151); (4153, 4154); (4157, 4158);
    (4184, 4185); (4190, 4192); (4209, 4212); (4226, 4226); (4229, 4230);
    (4237, 4237); (4253, 4253); (4348, 4348); (4957, 4959); (5906, 5908);
    (5938, 5939); (5970, 5971); (6002, 6003); (6068, 6069); (6071, 6077);
    (6086, 6086); (6089, 6099); (6103, 6103); (6109, 6109); (6155, 6159);
    (6211, 6211); (6277, 6278); (6313, 6313); (6432, 6434); (6439, 6440);
    (6450, 6450); (6457, 6459); (6679, 6680); (6683, 6683); (6742, 6742);
    (6744, 6750); (6752, 6752); (6754, 6754); (6757, 6764); (6771, 6780);
    (6783, 6783); (6823, 6823); (6832, 6862); (6912, 6915); (6964, 6964);
    (6966, 6970); (6972, 6972); (6978, 6978); (7019, 7027); (7040, 7041);
    (7074, 7077); (7080, 7081); (7083, 7085); (7142, 7142); (7144, 7145);
    (7149, 7149); (7151, 7153); (7212, 7219); (7222, 7223); (7288, 7293);
    (7376, 7378); (7380, 7392); (7394, 7400); (7405, 7405); (7412, 7412);
    (7416, 7417); (7468, 7530); (7544, 7544); (7579, 7679); (8125, 8125);
    (8127, 8129); (8141, 8143); (8157, 8159); (8173, 8175); (8189, 8190);
    (8203, 8207); (8216, 8217); (8228, 8228); (8231, 8231); (8234, 8238);
    (8288, 8292); (8294, 8303); (8305, 8305); (8319, 8319); (8336, 8348);
    (8400, 8432); (11388, 11389); (11503, 11505); (11631, 11631);
    (11647, 11647); (11744, 11775); (11823, 11823); (12293, 12293);
    (12330, 12333); (12337, 12341); (12347, 12347); (12441, 12446);
    (12540, 12542); (40981, 40981); (42232, 42237); (42508, 42508);
    (42607, 42610); (42612, 42621); (42623, 42623); (42652, 42655);
    (42736, 42737); (42752, 42785); (42864, 42864); (42888, 42890);
    (42994, 42996); (43000, 43001); (43010, 43010); (43014, 43014);
    (43019, 43019); (43045, 43046); (43052, 43052); (43204, 43205);
    (43232, 43249); (43263, 43263); (43302, 43309); (43335, 43345);
    (43392, 43394); (43443, 43443); (43446, 43449); (43452, 43453);
    (43471, 43471); (43493, 43494); (43561, 43566); (43569, 43570);
    (43573, 43574); (43587, 43587); (43596, 43596); (43632, 43632);
    (43644, 43644); (43696, 43696); (43698, 43700); (43703, 43704);
    (43710, 43711); (43713, 43713); (43741, 43741); (43756, 43757);
    (43763, 43764); (43766, 43766); (43867, 43871); (43881, 43883);
    (44005, 44005); (44008, 44008); (44013, 44013); (64286, 64286);
    (64434, 64450); (65024, 65039); (65043, 65043); (65056, 65071);
    (65106, 65106); (65109, 65109); (65279, 65279); (65287, 65287);
    (65294, 65294); (65306, 65306); (65342, 65342); (65344, 65344);
    (65392, 65392); (65438, 65439); (65507, 65507); (65529, 65531);
    (66045, 66045); (66272, 66272); (66422, 66426); (67456, 67461);
    (67463, 67504); (67506, 67514); (68097, 68099); (68101, 68102);
    (68108, 68111); (68152, 68154); (68159, 68159); (68325, 68326);
    (68900, 68903); (69291, 69292); (69446, 69456); (69506, 69509);
    (69633, 69633); (69688, 69702); (69744, 69744); (69747, 69748);
    (69759, 69761); (69811, 69814); (69817, 69818); (69821, 69821);
    (69826, 69826); (69837, 69837); (69888, 69890); (69927, 69931);
    (69933, 69940); (70003, 70003); (70016, 70017); (70070, 70078);
    (70089, 70092); (70095, 70095); (70191, 70193); (70196, 70196);
    (70198, 70199); (70206, 70206); (70367, 70367); (70371, 70378);
    (70400, 70401); (70459, 70460); (70464, 70464); (70502, 70508);
    (70512, 70516); (70712, 70719); (70722, 70724); (70726, 70726);
    (70750, 70750); (70835, 70840); (70842, 70842); (70847, 70848);
    (70850, 70851); (71090, 71093); (71100, 71101); (71103, 71104);
    (71132, 71133); (71219, 71226); (71229, 71229); (71231, 71232);
    (71339, 71339); (71341, 71341); (71344, 71349); (71351, 71351);
    (71453, 71455); (71458, 71461); (71463, 71467); (71727, 71735);
    (71737, 71738); (71995, 71996); (71998, 71998); (72003, 72003);
    (72148, 72151); (72154, 72155); (72160, 72160); (72193, 72202);
    (72243, 72248); (72251, 72254); (72263, 72263); (72273, 72278);
    (72281, 72283); (72330, 72342); (72344, 72345); (72752, 72758);
    (72760, 72765); (72767, 72767); (72850, 72871); (72874, 72880);
    (72882, 72883); (72885, 72886); (73009, 73014); (73018, 73018);
    (73020, 73021); (73023, 73029); (73031, 73031); (73104, 73105);
    (73109, 73109); (73111, 73111); (73459, 73460); (78896, 78904);
    (92912, 92916); (92976, 92982); (92992, 92995); (94031, 94031);
    (94095, 94111); (94176, 94177); (94179, 94180); (110576, 110579);
    (110581, 110587); (110589, 110590); (113821, 113822); (113824, 113827);
    (118528, 118573); (118576, 118598); (119143, 119145); (119155, 119170);
    (119173, 119179); (119210, 119213); (119362, 119364); (121344, 121398);
    (121403, 121452); (121461, 121461); (121476, 121476); (121499, 121503);
    (121505, 121519); (122880, 122886); (122888, 122904); (122907, 122913);
    (122915, 122916); (122918, 122922); (123184, 123197); (123566, 123566);
    (123628, 123631); (125136, 125142); (125252, 125259); (127995, 127999);
    (917505, 917505); (917536, 917631); (917760, 917999) ]%N.

Fixpoint inRanges (ranges : list (N * N)) (c : N) : bool :=
  match ranges with
  | [] => false
  | (lo, hi) :: rest =>
      if N.ltb c lo then false
      else if N.leb c hi then true
      else inRanges rest c
  end.

Definition isCased (c : N) : bool := inRanges casedRanges c.
Definition isCaseIgnorable (c : N) : bool := inRanges caseIgnorableRanges c.

Fixpoint simpleLower (runs : list (N * N * N * N)) (c : N) : N :=
  match runs with
  | [] => c
  | (lo, hi, step, target) :: rest =>
      if N.ltb c lo then c
      else if N.leb c hi then
        if N.eqb ((c - lo) mod step) 0 then (target + (c - lo))%N else c
      else simpleLower rest c
  end.

Definition isHighSurrogate (c : N) : bool := (N.leb 55296 c && N.leb c 56319)%bool.
Definition isLowSurrogate (c : N) : bool := (N.leb 56320 c && N.leb c 57343)%bool.

(** The code points of a string: a high surrogate followed by a low one
    is one code point, any other code unit stands for itself. *)
Fixpoint StringToCodePoints (s : jsstring) : list N :=
  match s with
  | [] => []
  | c :: t =>
      match t with
      | c2 :: t2 =>
          if (isHighSurrogate c && isLowSurrogate c2)%bool
          then (65536 + (c - 55296) * 1024 + (c2 - 56320))%N :: StringToCodePoints t2
          else c :: StringToCodePoints t
      | [] => [c]
      end
  end.

(** The code units of a code point. *)
Definition codeUnits (cp : N) : list N :=
  if N.ltb cp 65536 then [cp]
  else [(55296 + (cp - 65536) / 1024)%N; (56320 + (cp - 65536) mod 1024)%N].

(** Whether, past the code points that are ignored for case, the next
    code point is a cased letter. *)
Fixpoint nextIsCased (l : list N) : bool :=
  match l with
  | [] => false
  | c :: t => if isCaseIgnorable c then nextIsCased t else isCased c
  end.

(** The condition [Final_Sigma]: a cased letter stands before, and none
    after; [before] is read from the sigma backwards. *)
Definition finalSigma (before after : list N) : bool :=
  (nextIsCased before && negb (nextIsCased after))%bool.

Definition lowerPoint (before : list N) (c : N) (after : list N) : list N :=
  if N.eqb c 304 then [105%N; 775%N]
  else if N.eqb c 931 then [if finalSigma before after then 962%N else 963%N]
  else [simpleLower lowerCaseRuns c].

Fixpoint lowerPoints (before s : list N) : list N :=
  match s with
  | [] => []
  | c :: t => lowerPoint before c t ++ lowerPoints (c :: before) t
  end.

Definition toLowerCase (s : jsstring) : jsstring :=
  flat_map codeUnits (lowerPoints [] (StringToCodePoints s)).

Fixpoint isPrefixOf (p s : jsstring) : bool :=
  match p, s with
  | [], _ => true
  | x :: p', y :: s' => N.eqb x y && isPrefixOf p' s'
  | _ :: _, [] => false
  end.

(** [s.includes(p)]: [p] occurs somewhere in [s]. *)
Fixpoint includes (p s : jsstring) : bool :=
  isPrefixOf p s ||
  match s with
  | [] => false
  | _ :: t => includes p t
  end.

(** [s.replace(/^"|"$/g, '')].  A match is one quote, either at index 0
    (first alternative) or at the last index (second alternative); the
    global replace removes every match, scanning from the left, so a lone
    quote is consumed once by the first alternative. *)
Definition dropLeadingQuote (s : jsstring) : jsstring :=
  match s with
  | c :: t => if N.eqb c QUOTE then t else s
  | [] => []
  end.

Definition dropTrailingQuote (s : jsstring) : jsstring :=
  rev (dropLeadingQuote (rev s)).

Definition replaceQuoteAnchors (s : jsstring) : jsstring :=
  dropTrailingQuote (dropLeadingQuote s).

(** ** Numbers: IEEE-754 binary64 values *)

Definition Number := spec_float.
Definition prec : Z := 53.
Definition emax : Z := 1024.

Definition NaN : Number := S754_nan.
Definition Infinity : Number := S754_infinity false.
Definition NegInfinity : Number := S754_infinity true.
Definition posZero : Number := S754_zero false.
Definition negZero : Number := S754_zero true.

(** [isNaN(x)] on a number *)
Definition numIsNaN (x : Number) : bool :=
  match x with S754_nan => true | _ => false end.

Definition numAdd : Number -> Number -> Number := SFadd prec emax.
Definition numSub : Number -> Number -> Number := SFsub prec emax.
Definition numDiv : Number -> Number -> Number := SFdiv prec emax.
Definition numLt : Number -> Number -> bool := SFltb.
Definition numLe : Number -> Number -> bool := SFleb.
Definition numEq : Number -> Number -> bool := SFeqb.

(** The Number value of a mathematical integer (round to nearest, ties to
    even), as for an array's [length]. *)
Definition ofZ (z : Z) : Number := binary_normalize prec emax z 0 false.

(** The Number value of [m * 10^e10] with sign [neg], for [0 <= m]:
    correctly rounded, by an exact integer when [0 <= e10] and by a
    quotient of integers with its rounding location otherwise. *)
Definition ofDecimal (neg : bool) (m e10 : Z) : Number :=
  if Z.eqb m 0 then S754_zero neg
  else if Z.leb 0 e10 then
    binary_normalize prec emax (cond_Zopp neg (m * 10 ^ e10)) 0 false
  else
    let '(q, e, l) := SFdiv_core_binary prec emax m 0 (10 ^ (- e10)) 0 in
    binary_round_aux prec emax neg q e l.

(** *** [StringToNumber]: the StringNumericLiteral grammar *)

Definition isDigit (c : N) : bool := (N.leb 48 c && N.leb c 57)%bool.

(** The value of [c] as a digit in [base], for bases up to 16. *)
Definition digitOf (base c : N) : option N :=
  let v := if isDigit c then Some (c - 48)%N
           else if (N.leb 97 c && N.leb c 102)%bool then Some (c - 87)%N
           else if (N.leb 65 c && N.leb c 70)%bool then Some (c - 55)%N
           else None in
  match v with
  | Some d => if N.ltb d base then Some d else None
  | None => None
  end.

(** The value of a string made of digits of [base] only. *)
Fixpoint digitsValue (base : N) (acc : Z) (s : jsstring) : option Z :=
  match s with
  | [] => Some acc
  | c :: t =>
      match digitOf base c with
      | Some d => digitsValue base (acc * Z.of_N base + Z.of_N d) t
      | None => None
      end
  end.

(** The longest prefix of decimal digits, and what follows it. *)
Fixpoint spanDigits (s : jsstring) : jsstring * jsstring :=
  match s with
  | c :: t =>
      if isDigit c then let (d, r) := spanDigits t in (c :: d, r)
      else ([], s)
  | [] => ([], [])
  end.

(** ExponentPart, optional: [e] or [E], an optional sign, digits. *)
Definition parseExponent (r : jsstring) : option Z :=
  match r with
  | [] => Some 0%Z
  | c :: r1 =>
      if (N.eqb c 101 || N.eqb c 69)%bool then
        let '(neg, r2) :=
          match r1 with
          | s :: r' => if N.eqb s 43 then (false, r')
                       else if N.eqb s 45 then (true, r')
                       else (false, r1)
          | [] => (false, r1)
          end in
        match r2 with
        | [] => None
        | _ :: _ =>
            match digitsValue 10 0 r2 with
            | Some v => Some (if neg then (- v)%Z else v)
            | None => None
            end
        end
      else None
  end.

Inductive Literal :=
  | LitInfinity
  | LitDecimal (mantissa : Z) (exp10 : Z).

(** StrUnsignedDecimalLiteral: [Infinity], or digits with an optional
    fraction and an optional exponent, at least one digit before or after
    the point. *)
Definition parseUnsignedDecimal (t : jsstring) : option Literal :=
  if str_eqb t (js "Infinity") then Some LitInfinity
  else
    let (ip, r1) := spanDigits t in
    let '(fp, r2) :=
      match r1 with
      | c :: r => if N.eqb c DOT then spanDigits r else ([], r1)
      | [] => ([], [])
      end in
    match ip ++ fp with
    | [] => None
    | _ :: _ =>
        match digitsValue 10 0 (ip ++ fp), parseExponent r2 with
        | Some m, Some e => Some (LitDecimal m (e - Z.of_nat (length fp)))
        | _, _ => None
        end
    end.

(** StrDecimalLiteral: an optional sign and an unsigned literal. *)
Definition parseDecimal (t : jsstring) : option (bool * Literal) :=
  let '(neg, u) :=
    match t with
    | s :: r => if N.eqb s 43 then (false, r)
                else if N.eqb s 45 then (true, r)
                else (false, t)
    | [] => (false, t)
    end in
  match parseUnsignedDecimal u with
  | Some l => Some (neg, l)
  | None => None
  end.

(** NonDecimalIntegerLiteral: [0x], [0o] or [0b] (either case) and at least
    one digit of that base; no sign. *)
Definition parseNonDecimal (t : jsstring) : option Z :=
  match t with
  | z :: p :: d :: ds =>
      if N.eqb z 48 then
        if (N.eqb p 120 || N.eqb p 88)%bool then digitsValue 16 0 (d :: ds)
        else if (N.eqb p 111 || N.eqb p 79)%bool then digitsValue 8 0 (d :: ds)
        else if (N.eqb p 98 || N.eqb p 66)%bool then digitsValue 2 0 (d :: ds)
        else None
      else None
  | _ => None
  end.

(** The numeric literal a string holds once its white space is trimmed;
    [None] when it holds none. *)
Definition parseNumeric (s : jsstring) : option Number :=
  match trim s with
  | [] => Some posZero
  | t =>
      match parseNonDecimal t with
      | Some v => Some (ofZ v)
      | None =>
          match parseDecimal t with
          | Some (neg, LitInfinity) => Some (S754_infinity neg)
          | Some (neg, LitDecimal m e) => Some (ofDecimal neg m e)
          | None => None
          end
      end
  end.

(** [Number(s)] for a string [s] *)
Definition StringToNumber (s : jsstring) : Number :=
  match parseNumeric s with
  | Some x => x
  | None => NaN
  end.

(** [isNaN(s)] for a string [s]: the argument is converted first. *)
Definition strIsNaN (s : jsstring) : bool := numIsNaN (StringToNumber s).

(** ** Values and objects *)

(** A JavaScript value as the rows hold them.  [VObject] stands for any
    value that is not primitive (a date cell, an inherited method);
    [callable] tells functions from other objects. *)
Inductive Value :=
  | VUndefined
  | VNull
  | VBool (b : bool)
  | VNum (n : Number)
  | VStr (s : jsstring)
  | VObject (callable : bool).

(** [typeof v === 'number'] and [typeof v === 'string'] *)
Definition typeofIsNumber (v : Value) : bool :=
  match v with VNum _ => true | _ => false end.

Definition typeofIsString (v : Value) : bool :=
  match v with VStr _ => true | _ => false end.

(** [ToNumber] on the primitive values; an object converts through its
    primitive value, which the rows that reach an arithmetic operator
    never need. *)
Definition ToNumber (v : Value) : Number :=
  match v with
  | VUndefined => NaN
  | VNull => posZero
  | VBool b => if b then ofZ 1 else posZero
  | VNum n => n
  | VStr s => StringToNumber s
  | VObject _ => NaN
  end.

(** An ordinary object: its own properties in creation order. *)
Definition Obj := list (jsstring * Value).

Fixpoint getOwn (o : Obj) (k : jsstring) : option Value :=
  match o with
  | [] => None
  | (k', v) :: t => if str_eqb k' k then Some v else getOwn t k
  end.

(** The properties every ordinary object inherits from [Object.prototype]. *)
Definition objectPrototype : Obj :=
  [ (js "constructor", VObject true); (js "__proto__", VObject false);
    (js "hasOwnProperty", VObject true); (js "isPrototypeOf", VObject true);
    (js "propertyIsEnumerable", VObject true); (js "toString", VObject true);
    (js "toLocaleString", VObject true); (js "valueOf", VObject true);
    (js "__defineGetter__", VObject true); (js "__defineSetter__", VObject true);
    (js "__lookupGetter__", VObject true); (js "__lookupSetter__", VObject true) ].

(** [o[k]] read: own property, else inherited, else [undefined]. *)
Definition get (o : Obj) (k : jsstring) : Value :=
  match getOwn o k with
  | Some v => v
  | None =>
      match getOwn objectPrototype k with
      | Some v => v
      | None => VUndefined
      end
  end.

Fixpoint setOwn (o : Obj) (k : jsstring) (v : Value) : Obj :=
  match o with
  | [] => [(k, v)]
  | (k', v') :: t =>
      if str_eqb k' k then (k', v) :: t else (k', v') :: setOwn t k v
  end.

(** [o[k] = v]: an existing own property keeps its place, a new one is
    added last.  The key [__proto__] reaches the inherited setter instead
    and creates no own property. *)
Definition set (o : Obj) (k : jsstring) (v : Value) : Obj :=
  match getOwn o k with
  | Some _ => setOwn o k v
  | None => if str_eqb k (js "__proto__") then o else setOwn o k v
  end.

(** An array index: the canonical decimal string of an integer below
    [2^32 - 1]. *)
Definition arrayIndex (k : jsstring) : option N :=
  match k with
  | [] => None
  | c :: r =>
      if (N.eqb c 48 && negb (match r with [] => true | _ => false end))%bool
      then None
      else match digitsValue 10 0 k with
           | Some v => if Z.ltb v 4294967295 then Some (Z.to_N v) else None
           | None => None
           end
  end.

Fixpoint insertByIndex (e : N * (jsstring * Value))
    (l : list (N * (jsstring * Value))) : list (N * (jsstring * Value)) :=
  match l with
  | [] => [e]
  | e' :: t => if N.leb (fst e) (fst e') then e :: l else e' :: insertByIndex e t
  end.

(** [Object.entries(o)]: array-index keys first, in ascending numeric
    order, then the other keys in creation order. *)
Definition Object_entries (o : Obj) : list (jsstring * Value) :=
  let indexed :=
    flat_map (fun kv => match arrayIndex (fst kv) with
                        | Some i => [(i, kv)]
                        | None => []
                        end) o in
  let named :=
    filter (fun kv => match arrayIndex (fst kv) with
                      | Some _ => false
                      | None => true
                      end) o in
  List.map snd (fold_right insertByIndex [] indexed) ++ named.

(** [Object.keys(o)] *)
Definition Object_keys (o : Obj) : list jsstring :=
  List.map fst (Object_entries o).

(** ** Arrays *)

(** [!s] on a string: only the empty string is falsy. *)
Definition falsy (s : jsstring) : bool :=
  match s with [] => true | _ :: _ => false end.

(** [a || b] on strings that may be [undefined]: the first one that is
    defined and non-empty, else [b]. *)
Definition strOr (a : option jsstring) (b : jsstring) : jsstring :=
  match a with
  | Some (c :: s) => c :: s
  | _ => b
  end.

Section ArraySort.
Variable A : Type.
Variable comparefn : A -> A -> Number.

(** SortCompare: [x] goes after [y] when [comparefn(x, y) > 0]; a NaN
    result counts as [+0]. *)
Definition sortsAfter (x y : A) : bool := numLt posZero (comparefn x y).

Fixpoint sortInsert (x : A) (l : list A) : list A :=
  match l with
  | [] => [x]
  | y :: t => if sortsAfter x y then y :: sortInsert x t else x :: l
  end.

(** [arr.sort(comparefn)], which the language requires to be stable: each
    element, from the last to the first, is placed before the first
    element it need not follow.  For a consistent comparator this is the
    order every conforming engine produces. *)
Definition Array_sort (l : list A) : list A := fold_right sortInsert [] l.
End ArraySort.

Definition isNegZero (x : Number) : bool :=
  match x with S754_zero true => true | _ => false end.
Definition isPosZero (x : Number) : bool :=
  match x with S754_zero false => true | _ => false end.

(** The loop of [Math.min]: NaN as soon as one argument is NaN; [-0] is
    below [+0]. *)
Fixpoint minLoop (lowest : Number) (l : list Number) : Number :=
  match l with
  | [] => lowest
  | x :: t =>
      if numIsNaN x then NaN
      else minLoop (if (isNegZero x && isPosZero lowest)%bool then negZero
                    else if numLt x lowest then x else lowest) t
  end.

(** [Math.min(...l)] *)
Definition Math_min (l : list Number) : Number := minLoop Infinity l.

Fixpoint maxLoop (highest : Number) (l : list Number) : Number :=
  match l with
  | [] => highest
  | x :: t =>
      if numIsNaN x then NaN
      else maxLoop (if (isPosZero x && isNegZero highest)%bool then posZero
                    else if numLt highest x then x else highest) t
  end.

(** [Math.max(...l)] *)
Definition Math_max (l : list Number) : Number := maxLoop NegInfinity l.

End JS.

Import JS.

(* ================================================================== *)
(** * The program *)
(* ================================================================== *)

Module App.

(** ** [parseCSVLine] *)

(** What one field goes through when it is pushed:
    [.trim().replace(/^"|"$/g, '')]. *)
Definition cleanField (raw : jsstring) : jsstring :=
  replaceQuoteAnchors (trim raw).

(** The loop variables of [parseCSVLine]. *)
Record ScanState := mkScan
  { result : list jsstring; start : nat; inQuotes : bool }.

(** The body of the [for] loop at index [i]. *)
Definition scanStep (line : jsstring) (st : ScanState) (i : nat) : ScanState :=
  match nth_error line i with
  | Some c =>
      if N.eqb c QUOTE then
        mkScan (result st) (start st) (negb (inQuotes st))
      else if (N.eqb c COMMA && negb (inQuotes st))%bool then
        mkScan (result st ++ [cleanField (substring (start st) i line)])
               (i + 1) (inQuotes st)
      else st
  | None => st
  end.

Definition parseCSVLine (line : jsstring) : list jsstring :=
  let st := fold_left (scanStep line) (seq 0 (length line)) (mkScan [] 0 false) in
  result st ++ [cleanField (substringFrom (start st) line)].

(** ** [parseCSVFile] *)

(** What the [FileReader] delivers: [onload] with [evt.target.result], or
    [onerror]. *)
Inductive ReadResult :=
  | Loaded (content : jsstring)
  | ReadError.

(** An uploaded file: its name and what each way of reading it delivers. *)
Record File := mkFile
  { name : jsstring; asText : ReadResult; asBinaryString : ReadResult }.

(** A rejected promise carries an [Error]; only its message is observed. *)
Definition Outcome := (jsstring + list Obj)%type.

Definition MSG_FAILED_TO_READ : jsstring := js "Failed to read file".
Definition MSG_CSV_EMPTY : jsstring := js "CSV file is empty".
Definition MSG_ERROR_READING : jsstring := js "Error reading file".
Definition MSG_NO_VALID_DATA : jsstring := js "No valid data found in file".
Definition MSG_UNSUPPORTED : jsstring := js "Unsupported file type: ".
Definition MSG_PREFIX : jsstring := js "Error processing file: ".

(** [csvString.split('\n').filter(line => line.trim() !== '')] *)
Definition nonBlankLines (csvString : jsstring) : list jsstring :=
  filter (fun line => negb (str_eqb (trim line) [])) (split LF csvString).

(** The numeric coercion of one CSV field:
    [if (value && !isNaN(value)) value = Number(value)]. *)
Definition coerceField (value : jsstring) : Value :=
  if (negb (falsy value) && negb (strIsNaN value))%bool
  then VNum (StringToNumber value)
  else VStr value.

(** The [headers.forEach] that fills one row; [values[index] || ''] is the
    empty string when the line has no such field. *)
Definition rowOfValues (headers values : list jsstring) : Obj :=
  fold_left
    (fun row hi =>
       let '(index, header) := hi in
       let value := strOr (nth_error values index) [] in
       set row header (coerceField value))
    (combine (seq 0 (length headers)) headers) [].

(** The handlers of the reader: [onerror] rejects; [onload] rejects a
    falsy result and a text without lines, and otherwise builds one row for
    each index from 1 to [lines.length - 1]. *)
Definition parseCSVFile (r : ReadResult) : Outcome :=
  match r with
  | ReadError => inl MSG_ERROR_READING
  | Loaded csvString =>
      if falsy csvString then inl MSG_FAILED_TO_READ
      else
        let lines := nonBlankLines csvString in
        if Nat.eqb (length lines) 0 then inl MSG_CSV_EMPTY
        else
          let headers := parseCSVLine (nth 0 lines []) in
          inr (List.map
                 (fun i => rowOfValues headers (parseCSVLine (nth i lines [])))
                 (seq 1 (length lines - 1)))
  end.

(** ** [parseExcelFile] *)

(** The clean-up applied to each cell:
    [typeof value === 'string' && !isNaN(value) && value.trim() !== ''],
    then [Number(value)], else the value itself. *)
Definition normalize (value : Value) : Value :=
  match value with
  | VStr s =>
      if (negb (strIsNaN s) && negb (str_eqb (trim s) []))%bool
      then VNum (StringToNumber s)
      else value
  | _ => value
  end.

Definition cleanRow (row : Obj) : Obj :=
  fold_left (fun newRow kv => set newRow (fst kv) (normalize (snd kv)))
            (Object_entries row) [].

Section Upload.
(** The spreadsheet library, which is not part of the repository:
    [XLSX.read] on the binary string followed by [sheet_to_json] on the
    first sheet, giving the rows or throwing an error with a message. *)
Variable xlsxRows : jsstring -> Outcome.

Definition parseExcelFile (r : ReadResult) : Outcome :=
  match r with
  | ReadError => inl MSG_ERROR_READING
  | Loaded binaryStr =>
      if falsy binaryStr then inl MSG_FAILED_TO_READ
      else
        match xlsxRows binaryStr with
        | inl message => inl message
        | inr jsonData => inr (List.map cleanRow jsonData)
        end
  end.

(** ** [handleFileUpload] *)

(** The component's state. *)
Record AppState := mkState
  { data : list Obj; columns : list jsstring;
    xAxis : jsstring; yAxis : jsstring; chartType : jsstring;
    fileName : jsstring; loading : bool; error : jsstring }.

(** What the handler does, in order: state setters, the start of a file
    read, the console. *)
Inductive Action :=
  | SetLoading (b : bool)
  | SetError (message : jsstring)
  | SetFileName (n : jsstring)
  | SetData (d : list Obj)
  | SetColumns (c : list jsstring)
  | ReadAsText
  | ReadAsBinaryString
  | ConsoleError (message : jsstring).

Definition applyAction (st : AppState) (a : Action) : AppState :=
  match a with
  | SetLoading b =>
      mkState (data st) (columns st) (xAxis st) (yAxis st) (chartType st)
              (fileName st) b (error st)
  | SetError m =>
      mkState (data st) (columns st) (xAxis st) (yAxis st) (chartType st)
              (fileName st) (loading st) m
  | SetFileName n =>
      mkState (data st) (columns st) (xAxis st) (yAxis st) (chartType st)
              n (loading st) (error st)
  | SetData d =>
      mkState d (columns st) (xAxis st) (yAxis st) (chartType st)
              (fileName st) (loading st) (error st)
  | SetColumns c =>
      mkState (data st) c (xAxis st) (yAxis st) (chartType st)
              (fileName st) (loading st) (error st)
  | ReadAsText | ReadAsBinaryString | ConsoleError _ => st
  end.

Definition run (st : AppState) (acts : list Action) : AppState :=
  fold_left applyAction acts st.

(** [file.name.split('.').pop().toLowerCase()] *)
Definition fileExtension (n : jsstring) : jsstring :=
  toLowerCase (last (split DOT n) []).

(** The dispatch on the extension: the read it starts, if any, and the
    outcome of the parser or the thrown error. *)
Definition readAndParse (file : File) : list Action * Outcome :=
  let ext := fileExtension (name file) in
  if str_eqb ext (js "csv") then
    ([ReadAsText], parseCSVFile (asText file))
  else if (str_eqb ext (js "xlsx") || str_eqb ext (js "xls"))%bool then
    ([ReadAsBinaryString], parseExcelFile (asBinaryString file))
  else
    ([], inl (MSG_UNSUPPORTED ++ ext)).

(** The [try] block after the read, with its [catch]. *)
Definition settle (o : Outcome) : list Action :=
  match o with
  | inr jsonData =>
      match jsonData with
      | row0 :: _ => [SetData jsonData; SetColumns (Object_keys row0)]
      | [] => [SetError MSG_NO_VALID_DATA]
      end
  | inl message =>
      [ConsoleError message; SetError (MSG_PREFIX ++ message)]
  end.

Definition handleFileUpload (file : option File) : list Action :=
  match file with
  | None => []
  | Some f =>
      [SetLoading true; SetError []; SetFileName (name f);
       SetData []; SetColumns []]
      ++ (let '(reads, o) := readAndParse f in reads ++ settle o)
      ++ [SetLoading false]
  end.

(** ** The axis defaults ([useEffect] on [columns] and [data]) *)

Definition preferredNames : list jsstring :=
  List.map js ["amount"; "value"; "total"; "price"; "cost"; "sales"]%string.

(** [s.match(/amount|value|total|price|cost|sales/)] is not null. *)
Definition matchesPreferred (s : jsstring) : bool :=
  existsb (fun p => includes p s) preferredNames.

Definition numericColumns (cols : list jsstring) (d : list Obj) : list jsstring :=
  filter (fun col => match d with
                     | [] => false
                     | row0 :: _ => typeofIsNumber (get row0 col)
                     end) cols.

Definition preferredYAxis (cols : list jsstring) (d : list Obj) : jsstring :=
  let nc := numericColumns cols d in
  strOr (find (fun col => matchesPreferred (toLowerCase col)) nc)
        (strOr (hd_error nc) []).

Definition axisEffect (st : AppState) : AppState :=
  match columns st with
  | [] => st
  | col0 :: _ =>
      mkState (data st) (columns st) col0
              (preferredYAxis (columns st) (data st)) (chartType st)
              (fileName st) (loading st) (error st)
  end.

(** An upload seen from outside: the handler's actions, then the effect
    on the state they leave. *)
Definition upload (st : AppState) (file : option File) : AppState :=
  axisEffect (run st (handleFileUpload file)).

End Upload.

(** ** [processedData] *)

Definition MAX_DISPLAY_DATA : nat := 100.

(** [typeof val === 'number' && !isNaN(val)] *)
Definition isNumeric (val : Value) : bool :=
  match val with
  | VNum n => negb (numIsNaN n)
  | _ => false
  end.

(** [(a, b) => b[yAxis] - a[yAxis]] *)
Definition byYDescending (y : jsstring) (a b : Obj) : Number :=
  numSub (ToNumber (get b y)) (ToNumber (get a y)).

Definition processedData (d : list Obj) (x y : jsstring) : list Obj :=
  if (Nat.eqb (length d) 0 || falsy x || falsy y)%bool then []
  else
    firstn MAX_DISPLAY_DATA
      (Array_sort (byYDescending y)
         (filter (fun item => isNumeric (get item y)) d)).

(** ** [yAxisStats] *)

Record Stats := mkStats
  { stMin : Number; stMax : Number; stAvg : Number; stCount : nat }.

(** [data.map(d => d[yAxis]).filter(val => typeof val === 'number' &&
    !isNaN(val))], as the numbers the surviving values are. *)
Definition numericValues (d : list Obj) (y : jsstring) : list Number :=
  flat_map (fun v => match v with
                     | VNum n => if isNumeric v then [n] else []
                     | _ => []
                     end)
           (List.map (fun row => get row y) d).

Definition yAxisStats (d : list Obj) (y : jsstring) : option Stats :=
  if (falsy y || Nat.eqb (length d) 0)%bool then None
  else
    let nv := numericValues d y in
    if Nat.eqb (length nv) 0 then None
    else
      let sum := fold_left numAdd nv posZero in
      let avg := numDiv sum (ofZ (Z.of_nat (length nv))) in
      Some (mkStats (Math_min nv) (Math_max nv) avg (length nv)).

(** ** [renderChart] *)

Definition COLORS : list jsstring :=
  List.map js ["#8884d8"; "#82ca9d"; "#ffc658"; "#ff7f50";
               "#af19ff"; "#ff3d67"; "#00b0ff"; "#00c49f"]%string.

Definition MSG_UPLOAD_A_FILE : jsstring := js "Upload a file to visualize data".
Definition MSG_SELECT_AXES : jsstring :=
  js "Select valid X and Y axes to generate chart".

(** What [renderChart] returns, by what each element is given of the
    state: the placeholder with its message; a bar or line chart with its
    rows, the key of its X axis and the key of its series; a pie with its
    rows, its [dataKey] and [nameKey] and the [fill] of each [Cell];
    [null]. *)
Inductive Chart :=
  | Placeholder (message : jsstring)
  | BarChart (rows : list Obj) (xKey yKey : jsstring)
  | LineChart (rows : list Obj) (xKey yKey : jsstring)
  | PieChart (pieData : list Obj) (dataKey nameKey : jsstring)
             (fills : list (option jsstring))
  | NoChart.

(** [COLORS[index % COLORS.length]], [undefined] when there is no such
    element. *)
Definition cellFill (index : nat) : option jsstring :=
  nth_error COLORS (index mod length COLORS).

Definition renderChart (st : AppState) : Chart :=
  let projected := processedData (data st) (xAxis st) (yAxis st) in
  if (Nat.eqb (length projected) 0 || falsy (xAxis st) || falsy (yAxis st))%bool
  then Placeholder (if Nat.eqb (length (data st)) 0
                    then MSG_UPLOAD_A_FILE else MSG_SELECT_AXES)
  else if str_eqb (chartType st) (js "Bar")
  then BarChart projected (xAxis st) (yAxis st)
  else if str_eqb (chartType st) (js "Line")
  then LineChart projected (xAxis st) (yAxis st)
  else if str_eqb (chartType st) (js "Pie")
  then
    let pieData := firstn 8 projected in
    PieChart pieData (yAxis st) (xAxis st)
             (List.map cellFill (seq 0 (length pieData)))
  else NoChart.

(** ** The page *)

Section Page.
(** [String(v)] on a number and on an object is the engine's: the digits
    of a number, what the [toString] of an object returns. *)
Variable numberToString : Number -> jsstring.
Variable objectToString : bool -> jsstring.
Variable xlsxRows : jsstring -> Outcome.

Definition ToString (v : Value) : jsstring :=
  match v with
  | VUndefined => js "undefined"
  | VNull => js "null"
  | VBool b => if b then js "true" else js "false"
  | VNum n => numberToString n
  | VStr s => s
  | VObject callable => objectToString callable
  end.

(** A cell of the data preview:
    [row[col] !== undefined ? String(row[col]).substring(0, 20) : 'N/A']. *)
Definition previewCell (row : Obj) (col : jsstring) : jsstring :=
  match get row col with
  | VUndefined => js "N/A"
  | v => substring 0 20 (ToString v)
  end.

(** The preview table: the header cells, whether the column of dots is
    added, and the cells of each body row. *)
Record Preview := mkPreview
  { headCells : list jsstring; moreColumns : bool;
    bodyRows : list (list jsstring) }.

Definition dataPreview (st : AppState) : Preview :=
  mkPreview (firstn 3 (columns st))
            (Nat.ltb 3 (length (columns st)))
            (List.map (fun row => List.map (previewCell row) (firstn 3 (columns st)))
                      (firstn 5 (data st))).

(** What the dashboard shows of the state: the options of the two axis
    selects, the preview, the row total, the statistics panel when there
    is one, the two numbers of the line [Showing n of m rows], the
    chart. *)
Record Dashboard := mkDashboard
  { axisOptions : list jsstring; preview : Preview; totalRows : nat;
    statistics : option Stats; showing : nat * nat; chart : Chart }.

(** The body of the page: the dashboard when [data.length > 0], else the
    panel [No Data Loaded]. *)
Definition pageBody (st : AppState) : option Dashboard :=
  if Nat.ltb 0 (length (data st)) then
    Some (mkDashboard (columns st) (dataPreview st) (length (data st))
            (yAxisStats (data st) (yAxis st))
            (length (processedData (data st) (xAxis st) (yAxis st)),
             length (data st))
            (renderChart st))
  else None.

(** ** The events of the page *)

(** The [id] of each entry of [chartTypes]. *)
Definition chartTypes : list jsstring := [js "Bar"; js "Line"; js "Pie"].

(** The state of the first render. *)
Definition initialState : AppState :=
  mkState [] [] [] [] (js "Bar") [] false [].

Inductive Event :=
  | ChooseFile (file : option File)
  | ClickChartType (id : jsstring)
  | ChangeXAxis (value : jsstring)
  | ChangeYAxis (value : jsstring).

(** The state the page rests in after an event: the handler has run to
    its end, an upload being taken as a whole, and so have the effects it
    triggers.  A file input without a file changes nothing, so no effect
    runs. *)
Definition handleEvent (st : AppState) (ev : Event) : AppState :=
  match ev with
  | ChooseFile None => st
  | ChooseFile (Some f) => upload xlsxRows st (Some f)
  | ClickChartType id =>
      mkState (data st) (columns st) (xAxis st) (yAxis st) id
              (fileName st) (loading st) (error st)
  | ChangeXAxis value =>
      mkState (data st) (columns st) value (yAxis st) (chartType st)
              (fileName st) (loading st) (error st)
  | ChangeYAxis value =>
      mkState (data st) (columns st) (xAxis st) value (chartType st)
              (fileName st) (loading st) (error st)
  end.

End Page.

End App.

Import App.

(* ================================================================== *)
(** * Notions used to state the properties *)
(* ================================================================== *)

(** ** Fields of a CSV line *)

(** The scanner on a list: the raw pieces of [s] between the commas that
    stand outside quotes, [cur] being the piece under way and [q] the
    quote flag. *)
Fixpoint rawFields (q : bool) (cur s : jsstring) : list jsstring :=
  match s with
  | [] => [cur]
  | c :: t =>
      if N.eqb c QUOTE then rawFields (negb q) (cur ++ [c]) t
      else if (N.eqb c COMMA && negb q)%bool then cur :: rawFields q [] t
      else rawFields q (cur ++ [c]) t
  end.

(** The quote flag after a piece that holds no comma outside quotes;
    [None] when it holds one. *)
Fixpoint scanQuotes (q : bool) (f : jsstring) : option bool :=
  match f with
  | [] => Some q
  | c :: t =>
      if N.eqb c QUOTE then scanQuotes (negb q) t
      else if (N.eqb c COMMA && negb q)%bool then None
      else scanQuotes q t
  end.

(** [fs.join(',')] *)
Fixpoint joinComma (fs : list jsstring) : jsstring :=
  match fs with
  | [] => []
  | [f] => f
  | f :: rest => f ++ COMMA :: joinComma rest
  end.

(** ** Numeric strings *)

(** Whether [Number(s)] is a number: [s] holds a numeric literal or only
    white space. *)
Definition acceptsNumeric (s : jsstring) : bool :=
  match parseNumeric s with Some _ => true | None => false end.

(** The three shapes of literal the conversion accepts, on the trimmed
    string: decimal notation (an optional sign, digits, an optional
    fraction, an optional exponent), a signed [Infinity], and an integer in
    base 16, 8 or 2 behind [0x], [0o] or [0b]. *)
Definition isDecimalNotation (s : jsstring) : bool :=
  match parseDecimal (trim s) with
  | Some (_, LitDecimal _ _) => true
  | _ => false
  end.

Definition isInfinityLiteral (s : jsstring) : bool :=
  match parseDecimal (trim s) with
  | Some (_, LitInfinity) => true
  | _ => false
  end.

Definition isNonDecimalLiteral (s : jsstring) : bool :=
  match parseNonDecimal (trim s) with Some _ => true | None => false end.

(** The code units a numeric string can be made of. *)
Definition numericChar (c : N) : bool :=
  (isWhiteSpace c || isDigit c
   || (N.leb 97 c && N.leb c 102) || (N.leb 65 c && N.leb c 70)
   || existsb (N.eqb c) (js "+-.xXoObBInity"))%bool.

(** ** Uploads *)

(** What the handler does before it looks at the file. *)
Definition resetActions (f : File) : list Action :=
  [SetLoading true; SetError []; SetFileName (name f); SetData []; SetColumns []].

(** An action that cannot make rows or columns appear. *)
Definition keepsCleared (a : Action) : bool :=
  match a with
  | SetData (_ :: _) | SetColumns (_ :: _) => false
  | _ => true
  end.

(** An action that shows an error message to the user. *)
Definition reportsError (a : Action) : bool :=
  match a with
  | SetError (_ :: _) => true
  | _ => false
  end.

Definition startsRead (a : Action) : bool :=
  match a with
  | ReadAsText | ReadAsBinaryString => true
  | _ => false
  end.

(** An ingestion that ends without rows: the parser or the dispatch threw,
    or the parser returned an empty array. *)
Definition ingestionFails (o : Outcome) : bool :=
  match o with
  | inl _ => true
  | inr [] => true
  | inr (_ :: _) => false
  end.

(** The message the user sees after such an ingestion. *)
Definition userMessage (o : Outcome) : jsstring :=
  match o with
  | inl message => MSG_PREFIX ++ message
  | inr _ => MSG_NO_VALID_DATA
  end.

(** The default Y axis as the specification words it: the columns that
    hold a number in the first row; among them the first whose lower-cased
    name contains a preferred substring; failing that the first of them;
    failing that the empty selection. *)
Definition specDefaultY (cols : list jsstring) (row0 : Obj) : jsstring :=
  let numeric := filter (fun c => typeofIsNumber (get row0 c)) cols in
  match find (fun c => matchesPreferred (toLowerCase c)) numeric with
  | Some c => c
  | None => match numeric with
            | c :: _ => c
            | [] => []
            end
  end.

(** ** The order on numbers *)

(** A key whose lexicographic order is the order [SFcompare] decides:
    the class (negative infinity, negative, zero, positive, positive
    infinity), then the exponent, then the mantissa, the last two negated
    for negative numbers. *)
Definition ordKey (x : Number) : Z * Z * Z :=
  match x with
  | S754_infinity true => (-2, 0, 0)%Z
  | S754_finite true m e => (-1, - e, Zneg m)%Z
  | S754_zero _ => (0, 0, 0)%Z
  | S754_finite false m e => (1, e, Zpos m)%Z
  | S754_infinity false => (2, 0, 0)%Z
  | S754_nan => (3, 0, 0)%Z
  end.

(** The lexicographic comparison of two keys. *)
Definition cmp3 (a b : Z * Z * Z) : comparison :=
  let '(a1, a2, a3) := a in
  let '(b1, b2, b3) := b in
  match (a1 ?= b1)%Z with
  | Eq => match (a2 ?= b2)%Z with
          | Eq => (a3 ?= b3)%Z
          | c => c
          end
  | c => c
  end.

(** No element of the list is NaN. *)
Definition noNaN (l : list Number) : Prop :=
  forall v, In v l -> numIsNaN v = false.

(** The least exponent of binary64: -1074. *)
Definition binary64_emin : Z := emin prec emax.

(** The comparator sorts [l] by [key], largest first: no key is NaN and
    [a] goes after [b] exactly when its key is smaller. *)
Definition sortsDescending (A : Type) (comparefn : A -> A -> Number)
    (key : A -> Number) (l : list A) : Prop :=
  (forall a, In a l -> numIsNaN (key a) = false)
  /\ (forall a b, In a l -> In b l ->
        sortsAfter comparefn a b = numLt (key a) (key b)).

(** [a] may stand before [b] in a list sorted largest first. *)
Definition descending (A : Type) (key : A -> Number) (a b : A) : Prop :=
  numLe (key b) (key a) = true.

(** The canonical exponent of binary64 for a number of magnitude [2^k]. *)
Definition fexp64 (k : Z) : Z := fexp prec emax k.

(** A mantissa and exponent that rounding can take: the exponent is not
    above the canonical one, or the mantissa is zero at the least
    exponent. *)
Definition wellPlaced (m e : Z) : Prop :=
  ((0 < m)%Z /\ (e <= fexp64 (Zdigits2 m + e))%Z) \/ (m = 0%Z /\ e = binary64_emin).

(** A mantissa in canonical form at its exponent, or zero at the least
    exponent. *)
Definition canonicalOrZero (m e : Z) : Prop :=
  ((0 < m)%Z /\ fexp64 (Zdigits2 m + e) = e) \/ (m = 0%Z /\ e = binary64_emin).

(** ** The projection *)

(** The rows the projection keeps: those whose Y value is a number other
    than NaN. *)
Definition keptRows (d : list Obj) (y : jsstring) : list Obj :=
  filter (fun item => isNumeric (get item y)) d.

(** The Y value of a row, as the comparator reads it. *)
Definition yValue (y : jsstring) (r : Obj) : Number := ToNumber (get r y).

(** A number held in a row is a binary64 value: its mantissa and exponent
    are in canonical form. *)
Definition validNumber (v : Value) : bool :=
  match v with
  | VNum n => valid_binary prec emax n
  | _ => true
  end.

(** Every number a row holds is a binary64 value. *)
Definition rowValid (o : Obj) : Prop :=
  forall kv, In kv o -> validNumber (snd kv) = true.

(** ** Keys and cells of a row *)

(** Whether [k] is among the keys [ks]. *)
Definition hasKey (ks : list jsstring) (k : jsstring) : bool :=
  existsb (fun k' => str_eqb k' k) ks.

(** The keys of an object after [o[k] = v], from its keys before. *)
Definition addKey (ks : list jsstring) (k : jsstring) : list jsstring :=
  if hasKey ks k then ks
  else if str_eqb k (js "__proto__") then ks
  else ks ++ [k].

(** What a cell of a CSV row can be: a number that is a binary64 value
    other than NaN, or a string that is empty or not numeric. *)
Definition csvCell (v : Value) : Prop :=
  match v with
  | VNum n => numIsNaN n = false /\ valid_binary prec emax n = true
  | VStr s => s = [] \/ acceptsNumeric s = false
  | _ => False
  end.

(** The body of the [forEach] of [rowOfValues]. *)
Definition fillStep (values : list jsstring) (row : Obj) (hi : nat * jsstring) : Obj :=
  let '(index, header) := hi in
  set row header (coerceField (strOr (nth_error values index) [])).

(** Every value of the object satisfies [P]. *)
Definition rowAll (P : Value -> Prop) (o : Obj) : Prop :=
  forall kv, In kv o -> P (snd kv).

(** A string of white space only. *)
Definition blank (s : jsstring) : Prop := forallb isWhiteSpace s = true.

(** An object as the engine holds it: no key twice, and no own property
    named [__proto__]. *)
Definition wellFormed (o : Obj) : Prop :=
  NoDup (List.map fst o) /\ ~ In (js "__proto__") (List.map fst o).

(** An entry with its value cleaned. *)
Definition cleanEntry (kv : jsstring * Value) : jsstring * Value :=
  (fst kv, normalize (snd kv)).

(** The two parts [Object.entries] is made of: the entries whose key is
    an array index, each with its index, and the other entries. *)
Definition indexedEntries (o : Obj) : list (N * (jsstring * Value)) :=
  flat_map (fun kv => match arrayIndex (fst kv) with
                      | Some i => [(i, kv)]
                      | None => []
                      end) o.

Definition namedEntries (o : Obj) : list (jsstring * Value) :=
  filter (fun kv => match arrayIndex (fst kv) with
                    | Some _ => false
                    | None => true
                    end) o.

(** Each entry stands with the index its key denotes. *)
Definition tagged (l : list (N * (jsstring * Value))) : Prop :=
  Forall (fun e => arrayIndex (fst (snd e)) = Some (fst e)) l.

(** The lines of a text that are not blank, each one trimmed. *)
Definition trimmedLines (text : jsstring) : list jsstring :=
  filter (fun line => negb (str_eqb line [])) (List.map trim (split LF text)).

(** ** Events the page offers *)

(** An event that the page rendered for [st] can deliver: a file input at
    any time; with the dashboard on screen, a click on one of the chart
    type buttons and the choice of one of the options of an axis select. *)
Definition offered (st : AppState) (ev : Event) : Prop :=
  match ev with
  | ChooseFile _ => True
  | ClickChartType id => data st <> [] /\ In id chartTypes
  | ChangeXAxis value | ChangeYAxis value =>
      data st <> [] /\ In value (columns st)
  end.

(** The states the page can rest in: the first one, and the one each
    offered event leads to. *)
Inductive reachable (xlsxRows : jsstring -> Outcome) : AppState -> Prop :=
  | reach_initial : reachable xlsxRows initialState
  | reach_event (st : AppState) (ev : Event) :
      reachable xlsxRows st -> offered st ev ->
      reachable xlsxRows (handleEvent xlsxRows st ev).

(* ================================================================== *)
(** * Properties *)
(* ================================================================== *)

(** ** The program on sample inputs *)

Example parseCSVLine_quoted :
  parseCSVLine (lit "a, 'b,c' ,d") = [lit "a"; lit "b,c"; lit "d"].
Proof. vm_compute. reflexivity. Qed.

Example parseCSVLine_doubled :
  parseCSVLine (lit "'x''y',''") = [lit "x''y"; lit ""].
Proof. vm_compute. reflexivity. Qed.

Example number_of_tenth :
  StringToNumber (js "0.1") = S754_finite false 7205759403792794 (-56).
Proof. vm_compute. reflexivity. Qed.

Example number_of_literals :
  StringToNumber (js " 1e3 ") = ofZ 1000
  /\ StringToNumber (js "0x10") = ofZ 16
  /\ StringToNumber (js "-Infinity") = NegInfinity
  /\ StringToNumber (js "1e400") = Infinity
  /\ StringToNumber (js "1.7976931348623157e308")
     = S754_finite false 9007199254740991 971
  /\ StringToNumber (js "5e-324") = S754_finite false 1 (-1074)
  /\ StringToNumber (js "-0") = negZero.
Proof. vm_compute. repeat split. Qed.

Example number_of_other_strings :
  StringToNumber (js "$12") = NaN /\ StringToNumber (js "1,000") = NaN
  /\ StringToNumber (js "12%") = NaN /\ StringToNumber (js "-0x10") = NaN
  /\ StringToNumber (js ".") = NaN /\ StringToNumber (js "1e") = NaN.
Proof. vm_compute. repeat split. Qed.

(** A quoted blank field reaches the coercion as a blank string, which
    the CSV path turns into zero and the spreadsheet path keeps. *)
Example blank_field_coercion :
  parseCSVLine (lit "' '") = [js " "]
  /\ coerceField (js " ") = VNum posZero
  /\ normalize (VStr (js " ")) = VStr (js " ").
Proof. vm_compute. repeat split. Qed.

Example keys_of_a_row_with_index_names :
  Object_keys (rowOfValues [js "year"; js "2021"; js "2020"] [js "a"; js "1"; js "2"])
  = [js "2020"; js "2021"; js "year"].
Proof. vm_compute. reflexivity. Qed.

Example extension_of_upper_case_name :
  fileExtension (js "Report.Q1.CSV") = js "csv"
  /\ fst (readAndParse (fun _ => inr [])
            (mkFile (js "Report.Q1.CSV") (Loaded (js "a")) ReadError))
     = [ReadAsText].
Proof. vm_compute. split; reflexivity. Qed.

(** Capitals outside the Latin alphabet are lower-cased as well: A with
    grave, the Cyrillic and Greek capitals with a sigma that ends the
    word, the capital sharp s, I with a dot above, a Deseret capital
    written as a surrogate pair. *)
Example extension_of_other_capitals :
  fileExtension (js "data." ++ [192; 66; 67]%N) = [224; 98; 99]%N
  /\ toLowerCase [1044; 1040; 1053; 1053; 1067; 1045]%N
     = [1076; 1072; 1085; 1085; 1099; 1077]%N
  /\ toLowerCase [927; 916; 927; 931; 32; 931; 913]%N
     = [959; 948; 959; 962; 32; 963; 945]%N
  /\ toLowerCase [7838; 304]%N = [223; 105; 775]%N
  /\ toLowerCase [55297; 56320]%N = [55297; 56360]%N.
Proof. vm_compute. repeat split. Qed.

(** A name without a dot is its own extension. *)
Example extension_of_name_without_dot :
  fileExtension (js "README") = js "readme"
  /\ fst (readAndParse (fun _ => inr [])
            (mkFile (js "csv") (Loaded (js "a")) ReadError))
     = [ReadAsText].
Proof. vm_compute. split; reflexivity. Qed.

(** The scenario of the specification: three rows of names and amounts. *)
Example scenario_name_amount :
  let st := upload (fun _ => inr [])
              (mkState [] [] [] [] (js "Bar") [] false [])
              (Some (mkFile (js "sales.csv")
                            (Loaded (lit "Name,Amount|A,10|B,30|C,20|")) ReadError)) in
  columns st = [js "Name"; js "Amount"]
  /\ xAxis st = js "Name" /\ yAxis st = js "Amount"
  /\ error st = [] /\ loading st = false
  /\ List.map (fun r => get r (js "Name")) (processedData (data st) (xAxis st) (yAxis st))
     = [VStr (js "B"); VStr (js "C"); VStr (js "A")]
  /\ yAxisStats (data st) (yAxis st)
     = Some (mkStats (ofZ 10) (ofZ 30) (ofZ 20) 3).
Proof. vm_compute. repeat split. Qed.

(** ** Strings *)

Lemma str_eqb_eq (a b : jsstring) : str_eqb a b = true <-> a = b.
Proof.
  revert b; induction a as [|x a IH]; intros [|y b]; simpl; split;
    try congruence; try reflexivity.
  - intros H. apply andb_true_iff in H as [Hx Hab].
    apply N.eqb_eq in Hx. apply IH in Hab. congruence.
  - intros H. injection H as -> ->.
    rewrite N.eqb_refl. simpl. now apply IH.
Qed.

Lemma str_eqb_refl (a : jsstring) : str_eqb a a = true.
Proof. now apply str_eqb_eq. Qed.

Lemma str_eqb_neq (a b : jsstring) : str_eqb a b = false <-> a <> b.
Proof.
  split.
  - intros H E. apply str_eqb_eq in E. congruence.
  - intros H. destruct (str_eqb a b) eqn:E; [|reflexivity].
    apply str_eqb_eq in E. contradiction.
Qed.

Lemma split_not_nil (sep : N) (s : jsstring) : split sep s <> [].
Proof.
  destruct s as [|c t]; simpl; [discriminate|].
  destruct (N.eqb c sep); [discriminate|].
  destruct (split sep t); discriminate.
Qed.

Lemma split_without_sep (sep : N) (s : jsstring) :
  ~ In sep s -> split sep s = [s].
Proof.
  induction s as [|c t IH]; simpl; intros H; [reflexivity|].
  destruct (N.eqb c sep) eqn:E.
  - apply N.eqb_eq in E. exfalso. apply H. now left.
  - rewrite IH; [reflexivity|]. intros Hin. apply H. now right.
Qed.

Lemma split_at_sep (sep : N) (pre suf : jsstring) :
  exists l, l <> [] /\ split sep (pre ++ sep :: suf) = l ++ split sep suf.
Proof.
  induction pre as [|c pre IH]; simpl.
  - exists [[]]. split; [discriminate|]. now rewrite N.eqb_refl.
  - destruct IH as (l & Hl & ->).
    destruct (N.eqb c sep).
    + exists ([] :: l). split; [discriminate|reflexivity].
    + destruct l as [|seg l']; [contradiction|].
      exists ((c :: seg) :: l'). split; [discriminate|reflexivity].
Qed.

Lemma last_app_nonempty (A : Type) (l1 l2 : list A) (d : A) :
  l2 <> [] -> last (l1 ++ l2) d = last l2 d.
Proof.
  intros H. induction l1 as [|x l1 IH]; [reflexivity|].
  simpl. destruct (l1 ++ l2) eqn:E; [|exact IH].
  apply app_eq_nil in E as [_ ->]. contradiction.
Qed.

(** The piece after the last separator. *)
Lemma split_last (sep : N) (pre suf : jsstring) :
  ~ In sep suf -> last (split sep (pre ++ sep :: suf)) [] = suf.
Proof.
  intros H. destruct (split_at_sep sep pre suf) as (l & _ & ->).
  rewrite last_app_nonempty by apply split_not_nil.
  now rewrite split_without_sep.
Qed.

(** ** The upload handler *)

Section UploadFacts.
Variable xlsxRows : jsstring -> Outcome.

Lemma run_app (st : AppState) (a b : list Action) :
  run st (a ++ b) = run (run st a) b.
Proof. apply fold_left_app. Qed.

Lemma run_keeps_cleared (acts : list Action) :
  forall st, forallb keepsCleared acts = true ->
    data st = [] -> columns st = [] ->
    data (run st acts) = [] /\ columns (run st acts) = [].
Proof.
  induction acts as [|a acts IH]; intros st Hall Hd Hc; [now split|].
  simpl in Hall. apply andb_true_iff in Hall as [Ha Hall].
  simpl. apply IH; [exact Hall| |];
    destruct a as [b|m|n|[|r d]|[|c cs]| | |m]; simpl in *; congruence.
Qed.

Lemma forallb_firstn (A : Type) (p : A -> bool) (n : nat) (l : list A) :
  forallb p l = true -> forallb p (firstn n l) = true.
Proof.
  revert n; induction l as [|x l IH]; intros [|n] H; simpl in *; auto.
  apply andb_true_iff in H as [-> H]. simpl. now apply IH.
Qed.

Lemma handleFileUpload_shape (f : File) :
  handleFileUpload xlsxRows (Some f) =
    resetActions f
    ++ (fst (readAndParse xlsxRows f) ++ settle (snd (readAndParse xlsxRows f))
        ++ [SetLoading false]).
Proof.
  unfold handleFileUpload, resetActions.
  destruct (readAndParse xlsxRows f) as [reads o]. simpl.
  now rewrite <- app_assoc.
Qed.

Lemma readAndParse_reads (f : File) :
  forallb keepsCleared (fst (readAndParse xlsxRows f)) = true
  /\ forallb (fun a => negb (reportsError a)) (fst (readAndParse xlsxRows f)) = true.
Proof.
  unfold readAndParse.
  destruct (str_eqb _ (js "csv")); [now split|].
  destruct (_ || _)%bool; now split.
Qed.

Lemma run_reads (st : AppState) (f : File) :
  run st (fst (readAndParse xlsxRows f)) = st.
Proof.
  unfold readAndParse.
  destruct (str_eqb _ (js "csv")); [reflexivity|].
  destruct (_ || _)%bool; reflexivity.
Qed.

(** The error each failure kind ends in: a read that fails, a read that
    delivers nothing, a text without lines, a workbook the library
    refuses. *)
Lemma ingestion_error_messages :
  parseCSVFile ReadError = inl MSG_ERROR_READING
  /\ parseExcelFile xlsxRows ReadError = inl MSG_ERROR_READING
  /\ parseCSVFile (Loaded []) = inl MSG_FAILED_TO_READ
  /\ parseExcelFile xlsxRows (Loaded []) = inl MSG_FAILED_TO_READ
  /\ (forall c s, nonBlankLines (c :: s) = [] ->
        parseCSVFile (Loaded (c :: s)) = inl MSG_CSV_EMPTY)
  /\ (forall c s message, xlsxRows (c :: s) = inl message ->
        parseExcelFile xlsxRows (Loaded (c :: s)) = inl message).
Proof.
  repeat split.
  - intros c s H. unfold parseCSVFile. cbn [falsy]. now rewrite H.
  - intros c s message H. unfold parseExcelFile. cbn [falsy]. now rewrite H.
Qed.

Lemma matchesPreferred_nonempty (c : jsstring) :
  matchesPreferred (toLowerCase c) = true -> c <> [].
Proof. intros H ->. discriminate H. Qed.

Lemma preferredYAxis_found (cols : list jsstring) (d : list Obj) (c : jsstring) :
  find (fun col => matchesPreferred (toLowerCase col)) (numericColumns cols d) = Some c ->
  preferredYAxis cols d = c.
Proof.
  intros H. unfold preferredYAxis. rewrite H.
  apply find_some in H as [_ H]. apply matchesPreferred_nonempty in H.
  destruct c; [contradiction|reflexivity].
Qed.

End UploadFacts.

Lemma preferredYAxis_spec (cols : list jsstring) (row0 : Obj) (rest : list Obj) :
  preferredYAxis cols (row0 :: rest) = specDefaultY cols row0.
Proof.
  unfold specDefaultY.
  destruct (find _ (filter _ cols)) as [c|] eqn:F.
  - now apply preferredYAxis_found.
  - unfold preferredYAxis, numericColumns. rewrite F. simpl.
    destruct (filter _ cols) as [|[|c0 c] t]; reflexivity.
Qed.

(** ** The claims on uploading and on the axes *)

Lemma reads_report_nothing (xlsxRows : jsstring -> Outcome) (f : File) :
  filter reportsError (fst (readAndParse xlsxRows f)) = [].
Proof.
  unfold readAndParse.
  destruct (str_eqb _ (js "csv")); [reflexivity|].
  destruct (_ || _)%bool; reflexivity.
Qed.

Lemma settle_failed (o : Outcome) :
  ingestionFails o = true ->
  forallb keepsCleared (settle o) = true
  /\ filter reportsError (settle o) = [SetError (userMessage o)]
  /\ forall st, run st (settle o) =
       mkState (data st) (columns st) (xAxis st) (yAxis st) (chartType st)
               (fileName st) (loading st) (userMessage o).
Proof.
  destruct o as [m|[|r rows]]; simpl; intros H; try discriminate;
    repeat split.
Qed.

(** C10: whatever the dataset and the Y column, the projection is empty
    when no X column is selected. *)
Theorem C10_projection_empty_without_x (d : list Obj) (y : jsstring) :
  processedData d [] y = [].
Proof.
  unfold processedData. simpl falsy.
  now rewrite orb_true_r.
Qed.

(** C6: cleaning a cell twice is cleaning it once; a string turned into a
    number stays that number. *)
Theorem C6_normalize_idempotent (x : Value) :
  normalize (normalize x) = normalize x
  /\ (forall s n, x = VStr s -> normalize x = VNum n -> normalize (VNum n) = VNum n).
Proof.
  split; [|reflexivity].
  destruct x as [| |b|n|s|c]; try reflexivity.
  simpl. destruct (negb (strIsNaN s) && negb (str_eqb (trim s) []))%bool eqn:E.
  - reflexivity.
  - simpl. now rewrite E.
Qed.

(** C7: the extension is the piece of the file name after its last dot,
    the whole name when it has no dot, lower-cased as [toLowerCase] does
    for every cased letter; when it is none of csv, xlsx, xls the handler
    reports "Unsupported file type: <extension>" behind the fixed prefix
    and starts no read. *)
Theorem C7_unsupported_extension
    (xlsxRows : jsstring -> Outcome) (st : AppState) (f : File) :
  str_eqb (fileExtension (name f)) (js "csv") = false ->
  str_eqb (fileExtension (name f)) (js "xlsx") = false ->
  str_eqb (fileExtension (name f)) (js "xls") = false ->
  (forall pre suf, name f = pre ++ DOT :: suf -> ~ In DOT suf ->
     fileExtension (name f) = toLowerCase suf)
  /\ (~ In DOT (name f) -> fileExtension (name f) = toLowerCase (name f))
  /\ handleFileUpload xlsxRows (Some f) =
       resetActions f
       ++ [ConsoleError (MSG_UNSUPPORTED ++ fileExtension (name f));
           SetError (MSG_PREFIX ++ MSG_UNSUPPORTED ++ fileExtension (name f));
           SetLoading false]
  /\ filter startsRead (handleFileUpload xlsxRows (Some f)) = []
  /\ error (run st (handleFileUpload xlsxRows (Some f))) =
       MSG_PREFIX ++ MSG_UNSUPPORTED ++ fileExtension (name f).
Proof.
  intros Hcsv Hxlsx Hxls.
  assert (Hshape : handleFileUpload xlsxRows (Some f) =
       resetActions f
       ++ [ConsoleError (MSG_UNSUPPORTED ++ fileExtension (name f));
           SetError (MSG_PREFIX ++ MSG_UNSUPPORTED ++ fileExtension (name f));
           SetLoading false]).
  { unfold handleFileUpload, readAndParse. rewrite Hcsv, Hxlsx, Hxls. reflexivity. }
  split; [|split; [|split; [exact Hshape|split]]].
  - intros pre suf Hname Hdot. unfold fileExtension.
    rewrite Hname. now rewrite split_last.
  - intros Hdot. unfold fileExtension. now rewrite split_without_sep.
  - rewrite Hshape. reflexivity.
  - rewrite Hshape. reflexivity.
Qed.

Lemma C7_unsupported_extension_witness :
  let f := mkFile (js "notes.old.T" ++ [200; 88]%N ++ js "T")
                  (Loaded (js "hello")) (Loaded (js "hello")) in
  let st := mkState [] [] [] [] (js "Bar") [] false [] in
  fileExtension (name f) = js "t" ++ [232; 120]%N ++ js "t"
  /\ filter startsRead (handleFileUpload (fun _ => inr []) (Some f)) = []
  /\ error (run st (handleFileUpload (fun _ => inr []) (Some f))) =
       js "Error processing file: Unsupported file type: t" ++ [232; 120]%N ++ js "t".
Proof.
  intros f st.
  destruct (C7_unsupported_extension (fun _ => inr []) st f
              eq_refl eq_refl eq_refl) as (Hext & _ & _ & Hreads & Herr).
  split; [|split].
  - etransitivity.
    + apply (Hext (js "notes.old") (js "T" ++ [200; 88]%N ++ js "T")); [reflexivity|].
      vm_compute. intuition discriminate.
    + vm_compute. reflexivity.
  - exact Hreads.
  - rewrite Herr. vm_compute. reflexivity.
Defined.

(** C8: an empty CSV text is met by the guard on the read result and
    reported as "Failed to read file", not as "CSV file is empty"; every
    other text is reported as "CSV file is empty" exactly when it has no
    non-blank line, and the message shown carries the fixed prefix. *)
Theorem C8_empty_text_reports_read_failure :
  nonBlankLines [] = []
  /\ parseCSVFile (Loaded []) = inl MSG_FAILED_TO_READ
  /\ parseCSVFile (Loaded []) <> inl MSG_CSV_EMPTY
  /\ (forall c s, parseCSVFile (Loaded (c :: s)) = inl MSG_CSV_EMPTY
                  <-> nonBlankLines (c :: s) = [])
  /\ (forall message, settle (inl message) =
        [ConsoleError message; SetError (MSG_PREFIX ++ message)]).
Proof.
  split; [reflexivity|]. split; [reflexivity|]. split; [discriminate|].
  split; [|reflexivity].
  intros c s. unfold parseCSVFile. cbn [falsy].
  destruct (nonBlankLines (c :: s)) eqn:E; split;
    intros H; try reflexivity; discriminate.
Qed.

(** C9: when the ingestion throws or returns no row, the state ends with
    the dataset and the column list empty, the loading flag off and one
    error message (the literal one for an empty result, the prefixed one
    otherwise); from the reset on, no state shows rows or columns; the axes
    are left as they were. *)
Theorem C9_failed_ingestion_leaves_state_cleared
    (xlsxRows : jsstring -> Outcome) (st : AppState) (f : File) :
  ingestionFails (snd (readAndParse xlsxRows f)) = true ->
  data (run st (handleFileUpload xlsxRows (Some f))) = []
  /\ columns (run st (handleFileUpload xlsxRows (Some f))) = []
  /\ loading (run st (handleFileUpload xlsxRows (Some f))) = false
  /\ error (run st (handleFileUpload xlsxRows (Some f))) =
       userMessage (snd (readAndParse xlsxRows f))
  /\ filter reportsError (handleFileUpload xlsxRows (Some f)) =
       [SetError (userMessage (snd (readAndParse xlsxRows f)))]
  /\ (forall n, 5 <= n ->
        data (run st (firstn n (handleFileUpload xlsxRows (Some f)))) = []
        /\ columns (run st (firstn n (handleFileUpload xlsxRows (Some f)))) = [])
  /\ upload xlsxRows st (Some f) = run st (handleFileUpload xlsxRows (Some f)).
Proof.
  intros Hfail.
  destruct (settle_failed _ Hfail) as (Hkeep & Hrep & Hrun).
  destruct (readAndParse_reads xlsxRows f) as [Hreads _].
  pose proof (reads_report_nothing xlsxRows f) as Hquiet.
  pose proof (fun s => run_reads xlsxRows s f) as Hnop.
  unfold upload. rewrite handleFileUpload_shape.
  set (reads := fst (readAndParse xlsxRows f)) in *.
  set (o := snd (readAndParse xlsxRows f)) in *.
  assert (Hfinal : run st (resetActions f ++ reads ++ settle o ++ [SetLoading false]) =
            mkState [] [] (xAxis st) (yAxis st) (chartType st) (name f) false
                    (userMessage o)).
  { rewrite !run_app, Hnop, Hrun. reflexivity. }
  rewrite Hfinal.
  repeat split.
  - rewrite !filter_app, Hquiet, Hrep. reflexivity.
  - rewrite firstn_app, run_app.
    replace (firstn n (resetActions f)) with (resetActions f)
      by (symmetry; apply firstn_all2; simpl; lia).
    apply run_keeps_cleared; [|reflexivity|reflexivity].
    apply forallb_firstn. rewrite !forallb_app, Hreads, Hkeep. reflexivity.
  - rewrite firstn_app, run_app.
    replace (firstn n (resetActions f)) with (resetActions f)
      by (symmetry; apply firstn_all2; simpl; lia).
    apply run_keeps_cleared; [|reflexivity|reflexivity].
    apply forallb_firstn. rewrite !forallb_app, Hreads, Hkeep. reflexivity.
Qed.

Lemma C9_failed_ingestion_leaves_state_cleared_witness :
  let f := mkFile (js "empty.csv") (Loaded (lit "a,b|")) ReadError in
  let old := mkState [[(js "k", VNum (ofZ 1))]] [js "k"] (js "k") (js "k")
                     (js "Bar") (js "old.csv") false [] in
  ingestionFails (snd (readAndParse (fun _ => inr []) f)) = true
  /\ data (run old (handleFileUpload (fun _ => inr []) (Some f))) = []
  /\ error (run old (handleFileUpload (fun _ => inr []) (Some f))) =
       js "No valid data found in file".
Proof.
  intros f old.
  assert (H : ingestionFails (snd (readAndParse (fun _ => inr []) f)) = true)
    by (vm_compute; reflexivity).
  destruct (C9_failed_ingestion_leaves_state_cleared (fun _ => inr []) old f H)
    as (Hd & _ & _ & He & _).
  split; [exact H|]. split; [exact Hd|].
  rewrite He. vm_compute. reflexivity.
Defined.

(** C4: after rows arrive, the column list is the key order of the first
    row, the X axis is the first column, and the Y axis is the first
    numeric column whose lower-cased name contains amount, value, total,
    price, cost or sales, else the first numeric column, else empty; so a
    numeric column named Sales wins over one named Region wherever they
    stand. *)
Theorem C4_default_axes
    (st : AppState) (row0 : Obj) (rest : list Obj) (c0 : jsstring) (cs : list jsstring) :
  Object_keys row0 = c0 :: cs ->
  columns (axisEffect (run st (settle (inr (row0 :: rest))))) = Object_keys row0
  /\ xAxis (axisEffect (run st (settle (inr (row0 :: rest))))) = c0
  /\ yAxis (axisEffect (run st (settle (inr (row0 :: rest))))) = specDefaultY (c0 :: cs) row0
  /\ (In (js "Sales") (c0 :: cs) ->
      typeofIsNumber (get row0 (js "Sales")) = true ->
      matchesPreferred (toLowerCase (specDefaultY (c0 :: cs) row0)) = true
      /\ specDefaultY (c0 :: cs) row0 <> js "Region"
      /\ ((forall c, In c (c0 :: cs) -> c <> js "Sales" ->
             matchesPreferred (toLowerCase c) = false) ->
          specDefaultY (c0 :: cs) row0 = js "Sales")).
Proof.
  intros Hkeys.
  assert (Hst : axisEffect (run st (settle (inr (row0 :: rest)))) =
            mkState (row0 :: rest) (c0 :: cs) c0
                    (preferredYAxis (c0 :: cs) (row0 :: rest)) (chartType st)
                    (fileName st) (loading st) (error st)).
  { unfold axisEffect. simpl. rewrite Hkeys. reflexivity. }
  rewrite Hst. simpl. rewrite preferredYAxis_spec.
  split; [now rewrite Hkeys|]. split; [reflexivity|]. split; [reflexivity|].
  intros Hin Hnum.
  unfold specDefaultY.
  destruct (find _ (filter _ (c0 :: cs))) as [c|] eqn:F.
  - pose proof (find_some _ _ F) as [Hc Hm].
    split; [exact Hm|]. split.
    + intros ->. discriminate Hm.
    + intros Honly. apply filter_In in Hc as [Hc _].
      destruct (str_eqb c (js "Sales")) eqn:E.
      * now apply str_eqb_eq in E.
      * apply str_eqb_neq in E. rewrite (Honly c Hc E) in Hm. discriminate.
  - exfalso.
    assert (Hs : In (js "Sales") (filter (fun c => typeofIsNumber (get row0 c)) (c0 :: cs)))
      by (apply filter_In; split; assumption).
    pose proof (find_none _ _ F _ Hs) as Hno. discriminate Hno.
Qed.

Lemma C4_default_axes_witness :
  let row0 := [(js "Region", VNum (ofZ 7)); (js "Sales", VNum (ofZ 5))] in
  let st := mkState [] [] [] [] (js "Bar") [] false [] in
  Object_keys row0 = [js "Region"; js "Sales"]
  /\ xAxis (axisEffect (run st (settle (inr [row0])))) = js "Region"
  /\ yAxis (axisEffect (run st (settle (inr [row0])))) = js "Sales".
Proof.
  intros row0 st.
  assert (H : Object_keys row0 = [js "Region"; js "Sales"]) by reflexivity.
  destruct (@C4_default_axes st row0 [] _ _ H) as (_ & Hx & Hy & _).
  split; [exact H|]. split; [exact Hx|].
  etransitivity; [exact Hy|]. vm_compute. reflexivity.
Defined.

(** ** The CSV scanner *)

Lemma substring_prefix (a : nat) (pre rest : jsstring) :
  a <= length pre -> substring a (length pre) (pre ++ rest) = skipn a pre.
Proof.
  intros H. unfold substring. rewrite length_app.
  replace (Nat.min a (length pre + length rest)) with a by lia.
  replace (Nat.min (length pre) (length pre + length rest)) with (length pre) by lia.
  replace (Nat.min a (length pre)) with a by lia.
  replace (Nat.max a (length pre)) with (length pre) by lia.
  rewrite skipn_app. replace (a - length pre) with 0 by lia. simpl.
  rewrite firstn_app, length_skipn.
  replace (length pre - a - (length pre - a)) with 0 by lia.
  rewrite firstn_all2 by (rewrite length_skipn; lia).
  simpl. now rewrite app_nil_r.
Qed.

Lemma substringFrom_skipn (a : nat) (s : jsstring) :
  a <= length s -> substringFrom a s = skipn a s.
Proof.
  intros H. unfold substringFrom.
  rewrite <- (app_nil_r s) at 2. rewrite substring_prefix by exact H.
  reflexivity.
Qed.

Lemma skipn_snoc (a : nat) (pre : jsstring) (c : N) :
  a <= length pre -> skipn a (pre ++ [c]) = skipn a pre ++ [c].
Proof.
  intros H. rewrite skipn_app. replace (a - length pre) with 0 by lia.
  reflexivity.
Qed.

(** The loop of [parseCSVLine] from index [length pre] on. *)
Lemma scan_loop (rest : jsstring) :
  forall (pre : jsstring) (st : ScanState),
    start st <= length pre ->
    let st' := fold_left (scanStep (pre ++ rest))
                         (seq (length pre) (length rest)) st in
    result st' ++ [cleanField (substringFrom (start st') (pre ++ rest))]
    = result st
      ++ List.map cleanField (rawFields (inQuotes st) (skipn (start st) pre) rest).
Proof.
  induction rest as [|c rest IH]; intros pre st Hstart; cbn zeta.
  - simpl. rewrite app_nil_r. now rewrite substringFrom_skipn.
  - cbn [length seq fold_left].
    assert (Hline : pre ++ c :: rest = (pre ++ [c]) ++ rest)
      by now rewrite <- app_assoc.
    assert (Hlen : S (length pre) = length (pre ++ [c]))
      by (rewrite length_app; simpl; lia).
    assert (Hnth : nth_error (pre ++ c :: rest) (length pre) = Some c).
    { rewrite nth_error_app2 by lia. now rewrite Nat.sub_diag. }
    assert (Hstep : scanStep (pre ++ c :: rest) st (length pre) =
              if N.eqb c QUOTE then
                mkScan (result st) (start st) (negb (inQuotes st))
              else if (N.eqb c COMMA && negb (inQuotes st))%bool then
                mkScan (result st ++ [cleanField (substring (start st) (length pre)
                                                            (pre ++ c :: rest))])
                       (length pre + 1) (inQuotes st)
              else st)
      by (unfold scanStep; rewrite Hnth; reflexivity).
    rewrite Hstep. clear Hstep.
    cbn [rawFields].
    destruct (N.eqb c QUOTE) eqn:Eq.
    + rewrite Hline, Hlen.
      rewrite (IH (pre ++ [c]) (mkScan (result st) (start st) (negb (inQuotes st))))
        by (simpl; rewrite length_app; simpl; lia).
      simpl. now rewrite skipn_snoc.
    + destruct (N.eqb c COMMA && negb (inQuotes st))%bool eqn:Ec.
      * rewrite substring_prefix by exact Hstart.
        rewrite Hline, Hlen.
        rewrite (IH (pre ++ [c]) _)
          by (simpl; rewrite length_app; simpl; lia).
        simpl. rewrite <- app_assoc. simpl.
        replace (skipn (length pre + 1) (pre ++ [c])) with (@nil N).
        -- reflexivity.
        -- symmetry. apply skipn_all2. rewrite length_app. simpl. lia.
      * rewrite Hline, Hlen.
        rewrite (IH (pre ++ [c]) st) by (rewrite length_app; simpl; lia).
        now rewrite skipn_snoc.
Qed.

Lemma parseCSVLine_rawFields (line : jsstring) :
  parseCSVLine line = List.map cleanField (rawFields false [] line).
Proof.
  unfold parseCSVLine.
  exact (scan_loop line [] (mkScan [] 0 false) (Nat.le_refl 0)).
Qed.

Lemma rawFields_not_nil (s : jsstring) :
  forall q cur, rawFields q cur s <> [].
Proof.
  induction s as [|c t IH]; intros q cur; simpl; [discriminate|].
  destruct (N.eqb c QUOTE); [apply IH|].
  destruct (N.eqb c COMMA && negb q)%bool; [discriminate|apply IH].
Qed.

(** The raw pieces, joined with commas, give the line back. *)
Lemma joinComma_rawFields (s : jsstring) :
  forall q cur, joinComma (rawFields q cur s) = cur ++ s.
Proof.
  induction s as [|c t IH]; intros q cur; cbn [rawFields].
  - simpl. now rewrite app_nil_r.
  - destruct (N.eqb c QUOTE) eqn:Eq.
    + rewrite IH. now rewrite <- app_assoc.
    + destruct (N.eqb c COMMA && negb q)%bool eqn:Ec.
      * apply andb_true_iff in Ec as [Ec _]. apply N.eqb_eq in Ec. subst c.
        pose proof (rawFields_not_nil t q []) as Hne.
        specialize (IH q []).
        destruct (rawFields q [] t) as [|f fs]; [contradiction|].
        change (joinComma (cur :: f :: fs))
          with (cur ++ COMMA :: joinComma (f :: fs)).
        rewrite IH. reflexivity.
      * rewrite IH. now rewrite <- app_assoc.
Qed.

Lemma rawFields_piece (f : jsstring) :
  forall q q' cur rest,
    scanQuotes q f = Some q' ->
    rawFields q cur (f ++ rest) = rawFields q' (cur ++ f) rest.
Proof.
  induction f as [|c t IH]; intros q q' cur rest H; simpl in *.
  - injection H as ->. now rewrite app_nil_r.
  - destruct (N.eqb c QUOTE).
    + rewrite (IH _ _ _ _ H). now rewrite <- app_assoc.
    + destruct (N.eqb c COMMA && negb q)%bool; [discriminate|].
      rewrite (IH _ _ _ _ H). now rewrite <- app_assoc.
Qed.

Lemma rawFields_join (fs : list jsstring) (lastf : jsstring) :
  Forall (fun f => scanQuotes false f = Some false) fs ->
  scanQuotes false lastf <> None ->
  rawFields false [] (joinComma (fs ++ [lastf])) = fs ++ [lastf].
Proof.
  intros Hfs Hlast. induction Hfs as [|f fs Hf Hfs IH].
  - simpl. destruct (scanQuotes false lastf) as [q'|] eqn:E; [|contradiction].
    rewrite <- (app_nil_r lastf) at 1.
    rewrite (rawFields_piece _ _ _ _ E). reflexivity.
  - assert (Hcons : joinComma ((f :: fs) ++ [lastf])
                    = f ++ COMMA :: joinComma (fs ++ [lastf])).
    { simpl. destruct (fs ++ [lastf]) eqn:E; [|reflexivity].
      destruct fs; discriminate. }
    rewrite Hcons, (rawFields_piece _ _ _ _ Hf). simpl. now rewrite IH.
Qed.

(** ** Trimming and quote stripping *)

Lemma trimStart_split (s : jsstring) :
  exists l, s = l ++ trimStart s /\ forallb isWhiteSpace l = true.
Proof.
  induction s as [|c t (l & Hl & Hw)]; [now exists []|].
  simpl. destruct (isWhiteSpace c) eqn:E.
  - exists (c :: l). simpl. rewrite E, Hw. split; [now f_equal|reflexivity].
  - now exists [].
Qed.

Lemma trim_split (s : jsstring) :
  exists l r, s = l ++ trim s ++ r
              /\ forallb isWhiteSpace l = true /\ forallb isWhiteSpace r = true.
Proof.
  destruct (trimStart_split s) as (l & Hl & Hwl).
  destruct (trimStart_split (rev (trimStart s))) as (r & Hr & Hwr).
  exists l, (rev r). unfold trim, trimEnd. repeat split; [|exact Hwl|].
  - rewrite <- rev_app_distr, <- Hr, rev_involutive. exact Hl.
  - rewrite forallb_forall in *. intros x Hx. apply Hwr. now apply in_rev.
Qed.

Lemma trimStart_stable (c : N) (s : jsstring) :
  isWhiteSpace c = false -> trimStart (c :: s) = c :: s.
Proof. intros H. simpl. now rewrite H. Qed.

Lemma dropLeadingQuote_split (s : jsstring) :
  exists a, s = a ++ dropLeadingQuote s /\ (a = [] \/ a = [QUOTE]).
Proof.
  destruct s as [|c t]; [exists []; auto|].
  simpl. destruct (N.eqb c QUOTE) eqn:E.
  - apply N.eqb_eq in E. subst c. exists [QUOTE]. auto.
  - exists []. auto.
Qed.

(** Stripping removes at most one quote at each end and nothing else. *)
Lemma replaceQuoteAnchors_split (s : jsstring) :
  exists a b, s = a ++ replaceQuoteAnchors s ++ b
              /\ (a = [] \/ a = [QUOTE]) /\ (b = [] \/ b = [QUOTE]).
Proof.
  destruct (dropLeadingQuote_split s) as (a & Ha & Hqa).
  destruct (dropLeadingQuote_split (rev (dropLeadingQuote s))) as (b & Hb & Hqb).
  exists a, (rev b). unfold replaceQuoteAnchors, dropTrailingQuote.
  repeat split; [|exact Hqa|].
  - rewrite <- rev_app_distr, <- Hb, rev_involutive. exact Ha.
  - destruct Hqb as [->| ->]; auto.
Qed.

Lemma cleanField_quoted (body : jsstring) :
  cleanField (QUOTE :: body ++ [QUOTE]) = body.
Proof.
  unfold cleanField, trim, trimEnd.
  rewrite trimStart_stable by reflexivity.
  replace (rev (QUOTE :: body ++ [QUOTE])) with (QUOTE :: rev body ++ [QUOTE])
    by (simpl; rewrite rev_app_distr; reflexivity).
  rewrite trimStart_stable by reflexivity.
  replace (rev (QUOTE :: rev body ++ [QUOTE])) with (QUOTE :: body ++ [QUOTE])
    by (simpl; rewrite rev_app_distr, rev_involutive; reflexivity).
  unfold replaceQuoteAnchors, dropTrailingQuote. simpl.
  rewrite rev_app_distr. simpl. apply rev_involutive.
Qed.

Lemma scanQuotes_no_quote (body : jsstring) :
  ~ In QUOTE body -> scanQuotes true (body ++ [QUOTE]) = Some false.
Proof.
  induction body as [|c t IH]; intros H; [reflexivity|].
  simpl. destruct (N.eqb c QUOTE) eqn:E.
  - apply N.eqb_eq in E. exfalso. apply H. now left.
  - rewrite andb_false_r. apply IH. intros Hin. apply H. now right.
Qed.

Lemma map_nth_tail (B : Type) (f : jsstring -> B) (l : list jsstring) :
  forall pre,
    List.map (fun i => f (nth i (pre ++ l) [])) (seq (length pre) (length l))
    = List.map f l.
Proof.
  induction l as [|x t IH]; intros pre; [reflexivity|].
  cbn [length seq List.map]. f_equal.
  - rewrite app_nth2 by lia. now rewrite Nat.sub_diag.
  - specialize (IH (pre ++ [x])).
    rewrite <- app_assoc, length_app in IH. simpl in IH.
    rewrite Nat.add_1_r in IH. exact IH.
Qed.

(** The rows of a text, by its non-blank lines. *)
Lemma parseCSVFile_lines (text headerLine : jsstring) (dataLines : list jsstring) :
  nonBlankLines text = headerLine :: dataLines ->
  parseCSVFile (Loaded text)
  = inr (List.map (fun line => rowOfValues (parseCSVLine headerLine)
                                           (parseCSVLine line)) dataLines).
Proof.
  intros Hlines. unfold parseCSVFile.
  destruct text as [|c s]; [discriminate Hlines|].
  cbn [falsy]. rewrite Hlines.
  change (Nat.eqb (length (headerLine :: dataLines)) 0) with false.
  change (nth 0 (headerLine :: dataLines) []) with headerLine.
  replace (length (headerLine :: dataLines) - 1) with (length dataLines)
    by (simpl; lia).
  cbv iota. f_equal.
  exact (map_nth_tail (fun line => rowOfValues (parseCSVLine headerLine)
                                               (parseCSVLine line))
                      dataLines [headerLine]).
Qed.

(** C1: a text whose non-blank lines are a header and N data lines parses
    to N rows, one per data line in order.  A line is cut at the commas
    that stand outside quotes (so a quoted piece keeps its commas), the
    pieces joined by commas give the line back, and each piece is trimmed
    and loses at most one quote at each end, doubled quotes inside being
    kept. *)
Theorem C1_csv_rows_and_fields
    (text headerLine : jsstring) (dataLines : list jsstring) :
  nonBlankLines text = headerLine :: dataLines ->
  (exists rows,
      parseCSVFile (Loaded text) = inr rows
      /\ length rows = length dataLines
      /\ rows = List.map (fun line => rowOfValues (parseCSVLine headerLine)
                                                  (parseCSVLine line)) dataLines)
  /\ (forall fs lastf,
        Forall (fun f => scanQuotes false f = Some false) fs ->
        scanQuotes false lastf <> None ->
        parseCSVLine (joinComma (fs ++ [lastf])) = List.map cleanField (fs ++ [lastf]))
  /\ (forall line, exists raws,
        joinComma raws = line /\ parseCSVLine line = List.map cleanField raws)
  /\ (forall body, ~ In QUOTE body ->
        scanQuotes false (QUOTE :: body ++ [QUOTE]) = Some false)
  /\ (forall body, cleanField (QUOTE :: body ++ [QUOTE]) = body)
  /\ (forall raw, exists a b,
        trim raw = a ++ cleanField raw ++ b
        /\ (a = [] \/ a = [QUOTE]) /\ (b = [] \/ b = [QUOTE])).
Proof.
  intros Hlines. repeat split.
  - eexists. split; [|split; [|reflexivity]].
    + now apply parseCSVFile_lines.
    + apply length_map.
  - intros fs lastf Hfs Hlast.
    now rewrite parseCSVLine_rawFields, rawFields_join.
  - intros line. exists (rawFields false [] line). split.
    + apply joinComma_rawFields.
    + apply parseCSVLine_rawFields.
  - intros body Hq. simpl. now apply scanQuotes_no_quote.
  - apply cleanField_quoted.
  - intros raw. apply replaceQuoteAnchors_split.
Qed.

Lemma C1_csv_rows_and_fields_witness :
  let text := lit "name,motto|Ann,'veni, vidi'|  |Bob,'say ''hi'''|" in
  nonBlankLines text = [lit "name,motto"; lit "Ann,'veni, vidi'"; lit "Bob,'say ''hi'''"]
  /\ parseCSVFile (Loaded text) =
       inr [ [(js "name", VStr (js "Ann")); (js "motto", VStr (js "veni, vidi"))];
             [(js "name", VStr (js "Bob")); (js "motto", VStr (lit "say ''hi''"))] ].
Proof.
  intros text.
  assert (H : nonBlankLines text =
              [lit "name,motto"; lit "Ann,'veni, vidi'"; lit "Bob,'say ''hi'''"])
    by (vm_compute; reflexivity).
  destruct (C1_csv_rows_and_fields text H) as ((rows & Hparse & _ & Hrows) & _).
  split; [exact H|].
  rewrite Hparse, Hrows. vm_compute. reflexivity.
Defined.

(** ** Rounding to binary64 *)

Lemma shr_1_div (mrs : shr_record) :
  (0 <= shr_m mrs)%Z -> shr_m (shr_1 mrs) = (shr_m mrs / 2)%Z.
Proof.
  destruct mrs as [m r s]. simpl. intros H.
  destruct m as [|[p|p|]|p]; try reflexivity.
  - simpl. apply Z.div_unique with (r := 1%Z); lia.
  - simpl. apply Z.div_unique with (r := 0%Z); lia.
  - lia.
Qed.

Lemma iter_shr_div (p : positive) :
  forall mrs, (0 <= shr_m mrs)%Z ->
    shr_m (iter_pos shr_1 p mrs) = (shr_m mrs / 2 ^ Zpos p)%Z.
Proof.
  induction p as [p IH|p IH|]; intros mrs H; cbn [iter_pos].
  - assert (H1 : (0 <= shr_m (shr_1 mrs))%Z)
      by (rewrite shr_1_div by exact H; apply Z.div_pos; lia).
    assert (H2 : (0 <= shr_m (iter_pos shr_1 p (shr_1 mrs)))%Z)
      by (rewrite IH by exact H1; apply Z.div_pos; [exact H1|lia]).
    rewrite IH by exact H2. rewrite IH by exact H1. rewrite shr_1_div by exact H.
    assert (E : (2 ^ Z.pos p~1 = 2 * 2 ^ Z.pos p * 2 ^ Z.pos p)%Z).
    { rewrite Pos2Z.inj_xI.
      replace (2 * Z.pos p + 1)%Z with (1 + Z.pos p + Z.pos p)%Z by lia.
      rewrite !Z.pow_add_r by lia. now rewrite Z.pow_1_r. }
    rewrite E, !Z.div_div by lia. now rewrite Z.mul_assoc.
  - assert (H2 : (0 <= shr_m (iter_pos shr_1 p mrs))%Z)
      by (rewrite IH by exact H; apply Z.div_pos; [exact H|lia]).
    rewrite IH by exact H2. rewrite IH by exact H.
    assert (E : (2 ^ Z.pos p~0 = 2 ^ Z.pos p * 2 ^ Z.pos p)%Z).
    { replace (Z.pos p~0) with (Z.pos p + Z.pos p)%Z by lia.
      now rewrite Z.pow_add_r by lia. }
    rewrite E, Z.div_div by lia. reflexivity.
  - rewrite shr_1_div by exact H. reflexivity.
Qed.

Lemma shr_m_of_loc (m : Z) (l : location) : shr_m (shr_record_of_loc m l) = m.
Proof. destruct l as [|[]]; reflexivity. Qed.

(** A right shift gives the quotient by the power of two. *)
Lemma shr_div (mrs : shr_record) (e n : Z) :
  (0 <= shr_m mrs)%Z ->
  shr_m (fst (shr mrs e n)) = (shr_m mrs / 2 ^ Z.max 0 n)%Z
  /\ snd (shr mrs e n) = (e + Z.max 0 n)%Z.
Proof.
  intros H. destruct n as [|p|p]; simpl.
  - rewrite Z.div_1_r. split; [reflexivity|lia].
  - split; [now apply iter_shr_div|reflexivity].
  - rewrite Z.div_1_r. split; [reflexivity|lia].
Qed.

Lemma round_nearest_even_bounds (m : Z) (l : location) :
  (m <= round_nearest_even m l <= m + 1)%Z.
Proof.
  destruct l as [|[]]; simpl; try lia.
  destruct (Z.even m); lia.
Qed.

Lemma shr_fexp_nonneg (m e : Z) (l : location) :
  (0 <= m)%Z -> (0 <= shr_m (fst (shr_fexp prec emax m e l)))%Z.
Proof.
  intros H. unfold shr_fexp.
  assert (H0 : (0 <= shr_m (shr_record_of_loc m l))%Z)
    by (now rewrite shr_m_of_loc).
  destruct (shr_div (shr_record_of_loc m l) e
              (fexp prec emax (Zdigits2 m + e) - e) H0) as [-> _].
  apply Z.div_pos; [exact H0|]. apply Z.pow_pos_nonneg; lia.
Qed.

(** Rounding a non-negative mantissa never gives NaN. *)
Lemma binary_round_aux_not_nan (s : bool) (m e : Z) (l : location) :
  (0 <= m)%Z -> numIsNaN (binary_round_aux prec emax s m e l) = false.
Proof.
  intros H. unfold binary_round_aux.
  pose proof (shr_fexp_nonneg e l H) as H1.
  destruct (shr_fexp prec emax m e l) as [mrs1 e1]. simpl in H1.
  pose proof (round_nearest_even_bounds (shr_m mrs1) (loc_of_shr_record mrs1)) as Hr.
  assert (H2 : (0 <= round_nearest_even (shr_m mrs1) (loc_of_shr_record mrs1))%Z) by lia.
  pose proof (shr_fexp_nonneg e1 loc_Exact H2) as H3.
  destruct (shr_fexp prec emax _ e1 loc_Exact) as [mrs2 e2]. simpl in H3.
  destruct (shr_m mrs2) as [|p|p]; [reflexivity| |lia].
  destruct (e2 <=? emax - prec)%Z; reflexivity.
Qed.

Lemma binary_round_not_nan (s : bool) (m : positive) (e : Z) :
  numIsNaN (binary_round prec emax s m e) = false.
Proof.
  unfold binary_round.
  destruct (shl_align m e _) as [mz ez].
  apply binary_round_aux_not_nan. lia.
Qed.

Lemma ofZ_not_nan (z : Z) : numIsNaN (ofZ z) = false.
Proof.
  unfold ofZ, binary_normalize.
  destruct z; [reflexivity| |]; apply binary_round_not_nan.
Qed.

Lemma ofDecimal_not_nan (neg : bool) (m e10 : Z) :
  (0 <= m)%Z -> numIsNaN (ofDecimal neg m e10) = false.
Proof.
  intros H. unfold ofDecimal.
  destruct (m =? 0)%Z; [reflexivity|].
  destruct (0 <=? e10)%Z eqn:He; [|apply Z.leb_gt in He].
  - unfold binary_normalize.
    destruct (cond_Zopp neg (m * 10 ^ e10)); [reflexivity| |];
      apply binary_round_not_nan.
  - unfold SFdiv_core_binary.
    set (m' := match (0 - 0 - _)%Z with Z0 => m | Zpos _ => _ | Zneg _ => _ end).
    assert (Hm' : (0 <= m')%Z).
    { subst m'. destruct (0 - 0 - _)%Z.
      - exact H.
      - apply Z.shiftl_nonneg. exact H.
      - lia. }
    assert (Hq : (0 <= fst (Z.div_eucl m' (10 ^ (- e10))))%Z).
    { change (fst (Z.div_eucl m' (10 ^ (- e10)))) with (m' / 10 ^ (- e10))%Z.
      apply Z.div_pos; [exact Hm'|]. apply Z.pow_pos_nonneg; lia. }
    destruct (Z.div_eucl m' (10 ^ (- e10))) as [q r]. simpl in Hq.
    now apply binary_round_aux_not_nan.
Qed.

(** ** Numeric strings *)

Lemma digitsValue_nonneg (base : N) (s : jsstring) :
  forall acc v, (0 <= acc)%Z -> digitsValue base acc s = Some v -> (0 <= v)%Z.
Proof.
  induction s as [|c t IH]; intros acc v Hacc H; simpl in H.
  - injection H as <-. exact Hacc.
  - destruct (digitOf base c) as [d|]; [|discriminate].
    apply (IH _ _) in H; [exact H|]. nia.
Qed.

Lemma parseUnsignedDecimal_nonneg (u : jsstring) (m e : Z) :
  parseUnsignedDecimal u = Some (LitDecimal m e) -> (0 <= m)%Z.
Proof.
  unfold parseUnsignedDecimal.
  destruct (str_eqb u (js "Infinity")); [discriminate|].
  destruct (spanDigits u) as [ip r1].
  set (rest := match r1 with
               | [] => ([], [])
               | c :: r => if N.eqb c DOT then spanDigits r else ([], r1)
               end).
  destruct rest as [fp r2].
  destruct (ip ++ fp) as [|d ds] eqn:E; [discriminate|]. rewrite <- E.
  destruct (digitsValue 10 0 (ip ++ fp)) as [m'|] eqn:Em; [|discriminate].
  destruct (parseExponent r2) as [e'|]; [|discriminate].
  intros H. injection H as <- _.
  exact (digitsValue_nonneg _ _ (Z.le_refl 0) Em).
Qed.

Lemma parseDecimal_nonneg (t : jsstring) (neg : bool) (m e : Z) :
  parseDecimal t = Some (neg, LitDecimal m e) -> (0 <= m)%Z.
Proof.
  unfold parseDecimal.
  set (p := match t with
            | [] => (false, t)
            | s :: r => if N.eqb s 43 then (false, r)
                        else if N.eqb s 45 then (true, r) else (false, t)
            end).
  destruct p as [neg' u].
  destruct (parseUnsignedDecimal u) as [l|] eqn:E; [|discriminate].
  intros H. injection H as _ ->.
  exact (parseUnsignedDecimal_nonneg _ E).
Qed.

Lemma parseNumeric_not_nan (s : jsstring) (x : Number) :
  parseNumeric s = Some x -> numIsNaN x = false.
Proof.
  unfold parseNumeric. destruct (trim s) as [|c t].
  - intros H. injection H as <-. reflexivity.
  - destruct (parseNonDecimal (c :: t)) as [v|].
    + intros H. injection H as <-. apply ofZ_not_nan.
    + destruct (parseDecimal (c :: t)) as [[neg [|m e]]|] eqn:E;
        [| |discriminate]; intros H; injection H as <-.
      * reflexivity.
      * apply ofDecimal_not_nan. exact (parseDecimal_nonneg _ E).
Qed.

Lemma strIsNaN_accepts (s : jsstring) : strIsNaN s = negb (acceptsNumeric s).
Proof.
  unfold strIsNaN, StringToNumber, acceptsNumeric.
  destruct (parseNumeric s) as [x|] eqn:E; [|reflexivity].
  now apply parseNumeric_not_nan in E.
Qed.

Lemma acceptsNumeric_shapes (s : jsstring) :
  trim s <> [] ->
  acceptsNumeric s
  = (isDecimalNotation s || isInfinityLiteral s || isNonDecimalLiteral s)%bool.
Proof.
  unfold acceptsNumeric, parseNumeric, isDecimalNotation, isInfinityLiteral,
    isNonDecimalLiteral.
  destruct (trim s) as [|c t]; [contradiction|]. intros _.
  destruct (parseNonDecimal (c :: t)).
  - now rewrite !orb_true_r.
  - destruct (parseDecimal (c :: t)) as [[neg [|m e]]|]; reflexivity.
Qed.

Lemma isDigit_numericChar (c : N) : isDigit c = true -> numericChar c = true.
Proof. intros H. unfold numericChar. rewrite H. now rewrite orb_true_r. Qed.

Lemma digitOf_numericChar (base c d : N) :
  digitOf base c = Some d -> numericChar c = true.
Proof.
  unfold digitOf, numericChar.
  destruct (isDigit c); [now rewrite orb_true_r|].
  destruct (N.leb 97 c && N.leb c 102)%bool; [now rewrite !orb_true_r|].
  destruct (N.leb 65 c && N.leb c 70)%bool; [now rewrite !orb_true_r|].
  discriminate.
Qed.

Lemma digitsValue_chars (base : N) (s : jsstring) :
  forall acc v, digitsValue base acc s = Some v -> forallb numericChar s = true.
Proof.
  induction s as [|c t IH]; intros acc v H; [reflexivity|].
  simpl in H. destruct (digitOf base c) as [d|] eqn:E; [|discriminate].
  simpl. rewrite (digitOf_numericChar _ _ E). exact (IH _ _ H).
Qed.

Lemma spanDigits_split (s : jsstring) :
  forall d r, spanDigits s = (d, r) ->
    s = d ++ r /\ forallb numericChar d = true.
Proof.
  induction s as [|c t IH]; intros d r H; simpl in H.
  - injection H as <- <-. now split.
  - destruct (isDigit c) eqn:E.
    + destruct (spanDigits t) as [d' r']. injection H as <- <-.
      destruct (IH _ _ eq_refl) as [-> Hd]. split; [reflexivity|].
      simpl. now rewrite (isDigit_numericChar _ E).
    + injection H as <- <-. now split.
Qed.

Lemma parseExponent_chars (r : jsstring) (e : Z) :
  parseExponent r = Some e -> forallb numericChar r = true.
Proof.
  destruct r as [|c r1]; [reflexivity|]. simpl.
  destruct (N.eqb c 101 || N.eqb c 69)%bool eqn:Ec; [|discriminate].
  assert (Hc : numericChar c = true).
  { apply orb_true_iff in Ec as [Ec|Ec]; apply N.eqb_eq in Ec; subst c; reflexivity. }
  rewrite Hc. simpl.
  destruct r1 as [|s r']; [discriminate|].
  destruct (N.eqb s 43) eqn:E1; [|destruct (N.eqb s 45) eqn:E2].
  - apply N.eqb_eq in E1. subst s.
    destruct r' as [|d ds]; [discriminate|].
    destruct (digitsValue 10 0 (d :: ds)) as [v|] eqn:Ev; [|discriminate].
    intros _. change (forallb numericChar (d :: ds) = true).
    exact (digitsValue_chars _ _ _ Ev).
  - apply N.eqb_eq in E2. subst s.
    destruct r' as [|d ds]; [discriminate|].
    destruct (digitsValue 10 0 (d :: ds)) as [v|] eqn:Ev; [|discriminate].
    intros _. change (forallb numericChar (d :: ds) = true).
    exact (digitsValue_chars _ _ _ Ev).
  - destruct (digitsValue 10 0 (s :: r')) as [v|] eqn:Ev; [|discriminate].
    intros _. exact (digitsValue_chars _ _ _ Ev).
Qed.

Lemma parseUnsignedDecimal_chars (u : jsstring) (l : Literal) :
  parseUnsignedDecimal u = Some l -> forallb numericChar u = true.
Proof.
  unfold parseUnsignedDecimal.
  destruct (str_eqb u (js "Infinity")) eqn:Ei.
  - apply str_eqb_eq in Ei. subst u. reflexivity.
  - destruct (spanDigits u) as [ip r1] eqn:Es.
    destruct (spanDigits_split _ Es) as [-> Hip].
    destruct r1 as [|c r].
    + rewrite !app_nil_r. intros _. exact Hip.
    + rewrite forallb_app, Hip. simpl.
      destruct (N.eqb c DOT) eqn:Ed.
      * apply N.eqb_eq in Ed. subst c.
        destruct (spanDigits r) as [fp r2] eqn:Ef.
        destruct (spanDigits_split _ Ef) as [-> Hfp].
        destruct (ip ++ fp); [discriminate|].
        destruct (digitsValue 10 0 _); [|discriminate].
        destruct (parseExponent r2) as [e|] eqn:Ee; [|discriminate].
        intros _. rewrite forallb_app, Hfp, (parseExponent_chars _ Ee).
        reflexivity.
      * rewrite app_nil_r.
        destruct ip; [discriminate|].
        destruct (digitsValue 10 0 _); [|discriminate].
        destruct (parseExponent (c :: r)) as [e|] eqn:Ee; [|discriminate].
        intros _. exact (parseExponent_chars _ Ee).
Qed.

Lemma parseDecimal_chars (t : jsstring) (r : bool * Literal) :
  parseDecimal t = Some r -> forallb numericChar t = true.
Proof.
  unfold parseDecimal. destruct t as [|s u].
  - reflexivity.
  - destruct (N.eqb s 43) eqn:E1; [|destruct (N.eqb s 45) eqn:E2].
    + apply N.eqb_eq in E1. subst s.
      destruct (parseUnsignedDecimal u) as [l|] eqn:E; [|discriminate].
      intros _. simpl. exact (parseUnsignedDecimal_chars _ E).
    + apply N.eqb_eq in E2. subst s.
      destruct (parseUnsignedDecimal u) as [l|] eqn:E; [|discriminate].
      intros _. simpl. exact (parseUnsignedDecimal_chars _ E).
    + destruct (parseUnsignedDecimal (s :: u)) as [l|] eqn:E; [|discriminate].
      intros _. exact (parseUnsignedDecimal_chars _ E).
Qed.

Lemma parseNonDecimal_chars (t : jsstring) (v : Z) :
  parseNonDecimal t = Some v -> forallb numericChar t = true.
Proof.
  unfold parseNonDecimal.
  destruct t as [|z [|p [|d ds]]]; try discriminate.
  destruct (N.eqb z 48) eqn:Ez; [|discriminate].
  apply N.eqb_eq in Ez. subst z.
  assert (Hrest : forall base, digitsValue base 0 (d :: ds) = Some v ->
                    forallb numericChar (d :: ds) = true)
    by (intros base; apply digitsValue_chars).
  destruct (N.eqb p 120 || N.eqb p 88)%bool eqn:Ex;
    [|destruct (N.eqb p 111 || N.eqb p 79)%bool eqn:Eo;
      [|destruct (N.eqb p 98 || N.eqb p 66)%bool eqn:Eb; [|discriminate]]];
    intros H; apply Hrest in H;
    match goal with
    | E : (_ || _)%bool = true |- _ =>
        apply orb_true_iff in E as [E|E]; apply N.eqb_eq in E; subst p
    end;
    match goal with
    | |- forallb _ (?a :: ?b :: ?l) = true =>
        change (numericChar a && (numericChar b && forallb numericChar l) = true)%bool
    end;
    rewrite H; reflexivity.
Qed.

(** A string that converts to a number is made of numeric code units. *)
Lemma acceptsNumeric_chars (s : jsstring) :
  acceptsNumeric s = true -> forallb numericChar s = true.
Proof.
  unfold acceptsNumeric, parseNumeric. intros H.
  destruct (trim_split s) as (l & r & Hs & Hl & Hr).
  assert (Hws : forall w, forallb isWhiteSpace w = true -> forallb numericChar w = true).
  { intros w Hw. rewrite forallb_forall in *. intros c Hc.
    unfold numericChar. now rewrite (Hw c Hc). }
  rewrite Hs, !forallb_app, (Hws l Hl), (Hws r Hr), andb_true_r. simpl.
  destruct (trim s) as [|c t]; [reflexivity|].
  destruct (parseNonDecimal (c :: t)) as [v|] eqn:En.
  - exact (parseNonDecimal_chars _ En).
  - destruct (parseDecimal (c :: t)) as [p|] eqn:Ed; [|discriminate].
    exact (parseDecimal_chars _ Ed).
Qed.

Lemma normalize_string (s : jsstring) :
  normalize (VStr s)
  = if (acceptsNumeric s && negb (str_eqb (trim s) []))%bool
    then VNum (StringToNumber s) else VStr s.
Proof. simpl. now rewrite strIsNaN_accepts, negb_involutive. Qed.

(** C5 (amended): a cell is replaced by its number exactly when it is a
    string, not empty once trimmed, that the conversion accepts: decimal
    notation, but also a signed Infinity and 0x, 0o, 0b integers; a string
    holding a currency sign, a comma or a percent sign is never accepted;
    every other value passes unchanged.  The CSV coercion agrees with it
    on every field that is empty or not blank. *)
Theorem C5_normalize_numeric_strings :
  (forall s, trim s <> [] ->
     (isDecimalNotation s || isInfinityLiteral s || isNonDecimalLiteral s)%bool = true ->
     normalize (VStr s) = VNum (StringToNumber s)
     /\ numIsNaN (StringToNumber s) = false)
  /\ (forall s,
        trim s = [] \/
        (isDecimalNotation s || isInfinityLiteral s || isNonDecimalLiteral s)%bool = false ->
        normalize (VStr s) = VStr s)
  /\ (forall v, typeofIsString v = false -> normalize v = v)
  /\ (forall s c, In c s -> numericChar c = false -> normalize (VStr s) = VStr s)
  /\ numericChar 36 = false /\ numericChar 44 = false /\ numericChar 37 = false
  /\ numericChar 8364 = false /\ numericChar 163 = false
  /\ (forall s, s = [] \/ trim s <> [] -> coerceField s = normalize (VStr s)).
Proof.
  split; [|split; [|split; [|split]]].
  - intros s Ht Hshape. rewrite normalize_string.
    rewrite (acceptsNumeric_shapes _ Ht), Hshape.
    apply str_eqb_neq in Ht. rewrite Ht. split; [reflexivity|].
    change (strIsNaN s = false).
    now rewrite strIsNaN_accepts, (acceptsNumeric_shapes s), Hshape
      by (now apply str_eqb_neq).
  - intros s [Ht|Hshape]; rewrite normalize_string.
    + rewrite Ht. simpl. now rewrite andb_false_r.
    + destruct (str_eqb (trim s) []) eqn:Et; [now rewrite andb_false_r|].
      apply str_eqb_neq in Et.
      now rewrite (acceptsNumeric_shapes _ Et), Hshape.
  - intros [| |b|n|s|c]; simpl; intros H; try reflexivity; discriminate.
  - intros s c Hin Hc. rewrite normalize_string.
    destruct (acceptsNumeric s) eqn:Ea; [|reflexivity].
    apply acceptsNumeric_chars in Ea. rewrite forallb_forall in Ea.
    rewrite (Ea c Hin) in Hc. discriminate.
  - repeat split; try reflexivity.
    intros s [->|Ht]; [reflexivity|].
    rewrite normalize_string. apply str_eqb_neq in Ht. rewrite Ht, andb_true_r.
    destruct s as [|c t]; [discriminate Ht|].
    unfold coerceField. cbn [falsy negb andb].
    now rewrite strIsNaN_accepts, negb_involutive.
Qed.

(** C5 as stated fails: the string 0x10 is not in decimal notation, and
    the cell is replaced by the number 16 all the same. *)
Lemma C5_hex_string_is_replaced :
  isDecimalNotation (js "0x10") = false
  /\ trim (js "0x10") <> []
  /\ normalize (VStr (js "0x10")) = VNum (ofZ 16).
Proof. split; [|split]; [reflexivity|discriminate|vm_compute; reflexivity]. Qed.

(** ** The order on numbers *)

Lemma SFcompare_ordKey (x y : Number) :
  numIsNaN x = false -> numIsNaN y = false ->
  SFcompare x y = Some (cmp3 (ordKey x) (ordKey y)).
Proof.
  destruct x as [sx|sx| |sx mx ex]; destruct y as [sy|sy| |sy my ey];
    try discriminate; intros _ _;
    try (destruct sx; destruct sy; reflexivity);
    try (destruct sx; reflexivity); try (destruct sy; reflexivity).
  destruct sx, sy; try reflexivity; simpl.
  rewrite Z.compare_opp, (Z.compare_antisym ex ey).
  destruct (ex ?= ey)%Z; reflexivity.
Qed.

Ltac split_compares :=
  repeat match goal with
         | |- context [(?a ?= ?b)%Z] => destruct (Z.compare_spec a b)
         end.

Lemma cmp3_refl (a : Z * Z * Z) : cmp3 a a = Eq.
Proof. destruct a as [[a1 a2] a3]. unfold cmp3. now rewrite !Z.compare_refl. Qed.

Lemma cmp3_antisym (a b : Z * Z * Z) : cmp3 b a = CompOpp (cmp3 a b).
Proof.
  destruct a as [[a1 a2] a3], b as [[b1 b2] b3]. unfold cmp3.
  rewrite (Z.compare_antisym a1 b1), (Z.compare_antisym a2 b2),
    (Z.compare_antisym a3 b3).
  destruct (a1 ?= b1)%Z, (a2 ?= b2)%Z, (a3 ?= b3)%Z; reflexivity.
Qed.

Lemma cmp3_le_trans (a b c : Z * Z * Z) :
  cmp3 a b <> Gt -> cmp3 b c <> Gt -> cmp3 a c <> Gt.
Proof.
  destruct a as [[a1 a2] a3], b as [[b1 b2] b3], c as [[c1 c2] c3].
  unfold cmp3. split_compares; try congruence; try lia.
Qed.

Lemma cmp3_lt_eq (a b k : Z * Z * Z) :
  cmp3 a b = Lt -> cmp3 a k = Eq -> cmp3 b k <> Eq.
Proof.
  destruct a as [[a1 a2] a3], b as [[b1 b2] b3], k as [[k1 k2] k3].
  unfold cmp3. split_compares; try congruence; try lia.
Qed.

Lemma numLe_not_nan (x y : Number) :
  numLe x y = true -> numIsNaN x = false /\ numIsNaN y = false.
Proof.
  destruct x as [sx|sx| |sx mx ex]; destruct y as [sy|sy| |sy my ey];
    try discriminate; now split.
Qed.

Lemma numLe_key (x y : Number) :
  numIsNaN x = false -> numIsNaN y = false ->
  (numLe x y = true <-> cmp3 (ordKey x) (ordKey y) <> Gt).
Proof.
  intros Hx Hy. unfold numLe, SFleb. rewrite (SFcompare_ordKey _ _ Hx Hy).
  destruct (cmp3 _ _); split; congruence.
Qed.

Lemma numLt_key (x y : Number) :
  numIsNaN x = false -> numIsNaN y = false ->
  (numLt x y = true <-> cmp3 (ordKey x) (ordKey y) = Lt).
Proof.
  intros Hx Hy. unfold numLt, SFltb. rewrite (SFcompare_ordKey _ _ Hx Hy).
  destruct (cmp3 _ _); split; congruence.
Qed.

Lemma numEq_key (x y : Number) :
  numIsNaN x = false -> numIsNaN y = false ->
  (numEq x y = true <-> cmp3 (ordKey x) (ordKey y) = Eq).
Proof.
  intros Hx Hy. unfold numEq, SFeqb. rewrite (SFcompare_ordKey _ _ Hx Hy).
  destruct (cmp3 _ _); split; congruence.
Qed.

Lemma numLe_refl (x : Number) : numIsNaN x = false -> numLe x x = true.
Proof. intros H. apply numLe_key; [exact H|exact H|]. now rewrite cmp3_refl. Qed.

Lemma numLe_trans (x y z : Number) :
  numLe x y = true -> numLe y z = true -> numLe x z = true.
Proof.
  intros Hxy Hyz.
  destruct (numLe_not_nan _ _ Hxy) as [Hx Hy].
  destruct (numLe_not_nan _ _ Hyz) as [_ Hz].
  apply numLe_key in Hxy; [|assumption..]. apply numLe_key in Hyz; [|assumption..].
  apply numLe_key; [assumption..|]. now apply cmp3_le_trans with (ordKey y).
Qed.

Lemma numLt_le (x y : Number) :
  numIsNaN x = false -> numIsNaN y = false ->
  numLt x y = true -> numLe x y = true.
Proof.
  intros Hx Hy H. apply numLt_key in H; [|assumption..].
  apply numLe_key; [assumption..|]. congruence.
Qed.

Lemma numLt_false_le (x y : Number) :
  numIsNaN x = false -> numIsNaN y = false ->
  numLt x y = false -> numLe y x = true.
Proof.
  intros Hx Hy H. apply numLe_key; [assumption..|].
  rewrite cmp3_antisym. intros Hgt.
  assert (Hlt : cmp3 (ordKey x) (ordKey y) = Lt)
    by (destruct (cmp3 (ordKey x) (ordKey y)); simpl in Hgt; congruence).
  apply numLt_key in Hlt; [|assumption..]. congruence.
Qed.

Lemma numLe_Infinity (v : Number) : numLe Infinity v = true -> v = Infinity.
Proof.
  intros H. destruct v as [s|s| |s m e]; try destruct s;
    try discriminate H; reflexivity.
Qed.

Lemma numLe_NegInfinity (v : Number) : numLe v NegInfinity = true -> v = NegInfinity.
Proof.
  intros H. destruct v as [s|s| |s m e]; try destruct s;
    try discriminate H; reflexivity.
Qed.

(** ** [Math.min] and [Math.max] *)

Lemma minLoop_spec (l : list Number) :
  forall lowest, numIsNaN lowest = false -> noNaN l ->
    (minLoop lowest l = lowest \/ In (minLoop lowest l) l)
    /\ numLe (minLoop lowest l) lowest = true
    /\ (forall v, In v l -> numLe (minLoop lowest l) v = true).
Proof.
  induction l as [|x t IH]; intros lowest Hlow Hl.
  - simpl. split; [now left|]. split; [now apply numLe_refl|]. intros v [].
  - assert (Hx : numIsNaN x = false) by (apply Hl; now left).
    assert (Ht : noNaN t) by (intros v Hv; apply Hl; now right).
    cbn [minLoop]. rewrite Hx.
    set (next := if (isNegZero x && isPosZero lowest)%bool then negZero
                 else if numLt x lowest then x else lowest).
    assert (Hnext : (next = x \/ next = lowest)
                    /\ numLe next lowest = true /\ numLe next x = true).
    { subst next. destruct (isNegZero x && isPosZero lowest)%bool eqn:Ez.
      - apply andb_true_iff in Ez as [Ex El].
        destruct x as [[]| | |]; try discriminate.
        destruct lowest as [[]| | |]; try discriminate.
        repeat split; auto.
      - destruct (numLt x lowest) eqn:Elt.
        + repeat split; [now left| |now apply numLe_refl].
          now apply numLt_le.
        + repeat split; [now right|now apply numLe_refl|].
          now apply numLt_false_le. }
    destruct Hnext as (Hwhich & Hnl & Hnx).
    assert (Hnn : numIsNaN next = false) by (apply (numLe_not_nan _ _ Hnl)).
    destruct (IH next Hnn Ht) as (Hin & Hle & Hall).
    split; [|split].
    + destruct Hin as [Hin|Hin]; [|right; now right].
      rewrite Hin. destruct Hwhich as [->| ->]; [right; now left|now left].
    + now apply numLe_trans with next.
    + intros v [<-|Hv]; [now apply numLe_trans with next|now apply Hall].
Qed.

Lemma maxLoop_spec (l : list Number) :
  forall highest, numIsNaN highest = false -> noNaN l ->
    (maxLoop highest l = highest \/ In (maxLoop highest l) l)
    /\ numLe highest (maxLoop highest l) = true
    /\ (forall v, In v l -> numLe v (maxLoop highest l) = true).
Proof.
  induction l as [|x t IH]; intros highest Hhigh Hl.
  - simpl. split; [now left|]. split; [now apply numLe_refl|]. intros v [].
  - assert (Hx : numIsNaN x = false) by (apply Hl; now left).
    assert (Ht : noNaN t) by (intros v Hv; apply Hl; now right).
    cbn [maxLoop]. rewrite Hx.
    set (next := if (isPosZero x && isNegZero highest)%bool then posZero
                 else if numLt highest x then x else highest).
    assert (Hnext : (next = x \/ next = highest)
                    /\ numLe highest next = true /\ numLe x next = true).
    { subst next. destruct (isPosZero x && isNegZero highest)%bool eqn:Ez.
      - apply andb_true_iff in Ez as [Ex El].
        destruct x as [[]| | |]; try discriminate.
        destruct highest as [[]| | |]; try discriminate.
        repeat split; auto.
      - destruct (numLt highest x) eqn:Elt.
        + repeat split; [now left| |now apply numLe_refl].
          now apply numLt_le.
        + repeat split; [now right|now apply numLe_refl|].
          now apply numLt_false_le. }
    destruct Hnext as (Hwhich & Hnl & Hnx).
    assert (Hnn : numIsNaN next = false) by (apply (numLe_not_nan _ _ Hnl)).
    destruct (IH next Hnn Ht) as (Hin & Hle & Hall).
    split; [|split].
    + destruct Hin as [Hin|Hin]; [|right; now right].
      rewrite Hin. destruct Hwhich as [->| ->]; [right; now left|now left].
    + now apply numLe_trans with next.
    + intros v [<-|Hv]; [now apply numLe_trans with next|now apply Hall].
Qed.

(** The least of a non-empty list without NaN: one of its elements, below
    all of them. *)
Lemma Math_min_spec (l : list Number) :
  l <> [] -> noNaN l ->
  In (Math_min l) l /\ forall v, In v l -> numLe (Math_min l) v = true.
Proof.
  intros Hne Hl. unfold Math_min.
  destruct (minLoop_spec Infinity eq_refl Hl) as ([Hin|Hin] & _ & Hall);
    split; try assumption.
  destruct l as [|x t]; [contradiction|].
  rewrite Hin. left. apply numLe_Infinity.
  rewrite <- Hin. apply Hall. now left.
Qed.

Lemma Math_max_spec (l : list Number) :
  l <> [] -> noNaN l ->
  In (Math_max l) l /\ forall v, In v l -> numLe v (Math_max l) = true.
Proof.
  intros Hne Hl. unfold Math_max.
  destruct (maxLoop_spec NegInfinity eq_refl Hl) as ([Hin|Hin] & _ & Hall);
    split; try assumption.
  destruct l as [|x t]; [contradiction|].
  rewrite Hin. left. apply numLe_NegInfinity.
  rewrite <- Hin. apply Hall. now left.
Qed.

(** ** The sign of a rounded difference *)

Lemma digits2_pos_bounds (m : positive) :
  (2 ^ (Zpos (digits2_pos m) - 1) <= Zpos m < 2 ^ Zpos (digits2_pos m))%Z.
Proof.
  induction m as [p IH|p IH|]; cbn [digits2_pos].
  - rewrite Pos2Z.inj_succ, (Pos2Z.inj_xI p).
    replace (Z.succ (Z.pos (digits2_pos p)) - 1)%Z
      with (Z.succ (Z.pos (digits2_pos p) - 1))%Z by lia.
    rewrite !Z.pow_succ_r by lia.
    set (lo := (2 ^ (Z.pos (digits2_pos p) - 1))%Z) in *.
    set (hi := (2 ^ Z.pos (digits2_pos p))%Z) in *.
    lia.
  - rewrite Pos2Z.inj_succ, (Pos2Z.inj_xO p).
    replace (Z.succ (Z.pos (digits2_pos p)) - 1)%Z
      with (Z.succ (Z.pos (digits2_pos p) - 1))%Z by lia.
    rewrite !Z.pow_succ_r by lia.
    set (lo := (2 ^ (Z.pos (digits2_pos p) - 1))%Z) in *.
    set (hi := (2 ^ Z.pos (digits2_pos p))%Z) in *.
    lia.
  - simpl. lia.
Qed.

Lemma iter_xO_mul (d m : positive) :
  Zpos (Pos.iter xO m d) = (Zpos m * 2 ^ Zpos d)%Z.
Proof.
  induction d as [|d IH] using Pos.peano_ind.
  - simpl. lia.
  - rewrite Pos.iter_succ, (Pos2Z.inj_xO (Pos.iter xO m d)), IH, Pos2Z.inj_succ,
      Z.pow_succ_r by lia.
    lia.
Qed.

(** Aligning a mantissa to a lower exponent multiplies it by the power of
    two between them. *)
Lemma shl_align_mul (m : positive) (e e' : Z) :
  (e' <= e)%Z ->
  Zpos (fst (shl_align m e e')) = (Zpos m * 2 ^ (e - e'))%Z.
Proof.
  intros H. unfold shl_align.
  destruct (e' - e)%Z as [|d|d] eqn:E.
  - replace (e - e')%Z with 0%Z by lia. cbn [fst]. rewrite Z.pow_0_r. lia.
  - lia.
  - cbn [fst]. rewrite iter_xO_mul.
    replace (e - e')%Z with (Z.pos d) by lia. reflexivity.
Qed.

Lemma shr_fexp_pos (m e : Z) (l : location) :
  (0 < m)%Z -> (binary64_emin <= e)%Z ->
  (0 < shr_m (fst (shr_fexp prec emax m e l)))%Z
  /\ (binary64_emin <= snd (shr_fexp prec emax m e l))%Z.
Proof.
  intros Hm He. unfold shr_fexp.
  assert (H0 : (0 <= shr_m (shr_record_of_loc m l))%Z)
    by (rewrite shr_m_of_loc; lia).
  destruct (shr_div (shr_record_of_loc m l) e
              (fexp prec emax (Zdigits2 m + e) - e) H0) as [-> ->].
  rewrite shr_m_of_loc.
  destruct m as [|p|p]; try lia. cbn [Zdigits2].
  pose proof (digits2_pos_bounds p) as [Hlow _].
  set (d := Zpos (digits2_pos p)) in *.
  assert (Hshift : (Z.max 0 (fexp prec emax (d + e) - e) <= d - 1)%Z).
  { unfold fexp, binary64_emin, emin, prec, emax in *. subst d. lia. }
  split; [|lia].
  apply Z.div_str_pos. split; [apply Z.pow_pos_nonneg; lia|].
  apply Z.le_trans with (2 ^ (d - 1))%Z; [|exact Hlow].
  apply Z.pow_le_mono_r; lia.
Qed.

(** Above the least exponent, rounding a positive mantissa keeps the sign
    and never reaches zero. *)
Lemma binary_round_aux_sign (s : bool) (m e : Z) (l : location) :
  (0 < m)%Z -> (binary64_emin <= e)%Z ->
  (exists m' e', binary_round_aux prec emax s m e l = S754_finite s m' e')
  \/ binary_round_aux prec emax s m e l = S754_infinity s.
Proof.
  intros Hm He. unfold binary_round_aux.
  destruct (shr_fexp_pos l Hm He) as [H1 He1].
  destruct (shr_fexp prec emax m e l) as [mrs1 e1]. simpl in H1, He1.
  pose proof (round_nearest_even_bounds (shr_m mrs1) (loc_of_shr_record mrs1)) as Hr.
  assert (H2 : (0 < round_nearest_even (shr_m mrs1) (loc_of_shr_record mrs1))%Z) by lia.
  destruct (shr_fexp_pos loc_Exact H2 He1) as [H3 _].
  destruct (shr_fexp prec emax _ e1 loc_Exact) as [mrs2 e2]. simpl in H3.
  destruct (shr_m mrs2) as [|p|p]; try lia.
  destruct (e2 <=? emax - prec)%Z; [left; eauto|now right].
Qed.

Lemma binary_round_sign (s : bool) (m : positive) (e : Z) :
  (binary64_emin <= e)%Z ->
  (exists m' e', binary_round prec emax s m e = S754_finite s m' e')
  \/ binary_round prec emax s m e = S754_infinity s.
Proof.
  intros He. unfold binary_round.
  assert (Hez : (binary64_emin <= snd (shl_align m e (fexp prec emax (Zpos (digits2_pos m) + e))))%Z).
  { unfold shl_align.
    destruct (fexp prec emax (Z.pos (digits2_pos m) + e) - e)%Z; simpl; try exact He.
    unfold fexp, binary64_emin. lia. }
  destruct (shl_align m e _) as [mz ez]. simpl in Hez.
  apply binary_round_aux_sign; [lia|exact Hez].
Qed.

(** A difference computed above the least exponent is positive exactly
    when the exact difference is. *)
Lemma binary_normalize_positive (d e : Z) :
  (binary64_emin <= e)%Z ->
  numLt posZero (binary_normalize prec emax d e false) = (0 <? d)%Z.
Proof.
  intros He. unfold binary_normalize.
  destruct d as [|p|p]; [reflexivity| |].
  - destruct (binary_round_sign false p He) as [(m' & e' & ->)| ->]; reflexivity.
  - destruct (binary_round_sign true p He) as [(m' & e' & ->)| ->]; reflexivity.
Qed.

(** What validity says of a finite number: its exponent is not below the
    least one, its mantissa has at most 53 bits, and exactly 53 above the
    least exponent. *)
Lemma bounded_canonical (m : positive) (e : Z) :
  bounded prec emax m e = true ->
  (binary64_emin <= e)%Z
  /\ (Zpos (digits2_pos m) <= prec)%Z
  /\ ((binary64_emin < e)%Z -> Zpos (digits2_pos m) = prec).
Proof.
  unfold bounded, canonical_mantissa. intros H.
  apply andb_true_iff in H as [H _]. apply Z.eqb_eq in H.
  unfold fexp, binary64_emin, emin, prec, emax in *. lia.
Qed.

Lemma aligned_lt (mx my : positive) (ex ey : Z) :
  bounded prec emax mx ex = true -> bounded prec emax my ey = true ->
  (ex < ey)%Z ->
  (Zpos mx < Zpos my * 2 ^ (ey - ex))%Z.
Proof.
  intros Hx Hy Hlt.
  destruct (bounded_canonical _ _ Hx) as (Hex & Hdx & _).
  destruct (bounded_canonical _ _ Hy) as (_ & _ & Hdy).
  specialize (Hdy ltac:(lia)).
  pose proof (digits2_pos_bounds mx) as [_ Hmx].
  pose proof (digits2_pos_bounds my) as [Hmy _].
  rewrite Hdy in Hmy.
  assert (H1 : (2 ^ Zpos (digits2_pos mx) <= 2 ^ prec)%Z)
    by (apply Z.pow_le_mono_r; lia).
  assert (H2 : (2 ^ prec = 2 * 2 ^ (prec - 1))%Z) by reflexivity.
  assert (H3 : (2 ^ 1 <= 2 ^ (ey - ex))%Z) by (apply Z.pow_le_mono_r; lia).
  rewrite Z.pow_1_r in H3. nia.
Qed.

(** Once aligned, two valid mantissas compare as the exponents, then the
    mantissas. *)
Lemma aligned_compare (mx my : positive) (ex ey : Z) :
  bounded prec emax mx ex = true -> bounded prec emax my ey = true ->
  (Zpos (fst (shl_align mx ex (Z.min ex ey)))
   ?= Zpos (fst (shl_align my ey (Z.min ex ey))))%Z
  = match (ex ?= ey)%Z with
    | Eq => (Zpos mx ?= Zpos my)%Z
    | c => c
    end.
Proof.
  intros Hx Hy.
  rewrite !shl_align_mul by lia.
  destruct (Z.compare_spec ex ey) as [Heq|Hlt|Hgt].
  - subst ey. now rewrite Z.min_id, Z.sub_diag, Z.pow_0_r, !Z.mul_1_r.
  - replace (Z.min ex ey) with ex by lia. rewrite Z.sub_diag, Z.pow_0_r, Z.mul_1_r.
    apply Z.compare_lt_iff. now apply aligned_lt.
  - replace (Z.min ex ey) with ey by lia. rewrite Z.sub_diag, Z.pow_0_r, Z.mul_1_r.
    apply Z.compare_gt_iff. now apply aligned_lt.
Qed.

(** On valid numbers the comparator's sign is the order of its operands:
    [y - x > 0] exactly when [x < y]. *)
Lemma numSub_positive (x y : Number) :
  valid_binary prec emax x = true -> valid_binary prec emax y = true ->
  numIsNaN x = false -> numIsNaN y = false ->
  numLt posZero (numSub y x) = numLt x y.
Proof.
  destruct x as [sx|sx| |sx mx ex]; destruct y as [sy|sy| |sy my ey];
    try discriminate; intros Vx Vy _ _;
    try (destruct sx; destruct sy; reflexivity).
  unfold numSub, SFsub. simpl in Vx, Vy.
  destruct (bounded_canonical _ _ Vx) as (Hex & _).
  destruct (bounded_canonical _ _ Vy) as (Hey & _).
  rewrite binary_normalize_positive by lia.
  pose proof (aligned_compare _ _ _ _ Vx Vy) as Hc.
  rewrite Z.min_comm.
  set (ax := Zpos (fst (shl_align mx ex (Z.min ex ey)))) in *.
  set (ay := Zpos (fst (shl_align my ey (Z.min ex ey)))) in *.
  assert (Hax : (0 < ax)%Z) by (subst ax; lia).
  assert (Hay : (0 < ay)%Z) by (subst ay; lia).
  clearbody ax ay.
  unfold numLt, SFltb, SFcompare.
  change (Pos.compare_cont Eq mx my) with (Zpos mx ?= Zpos my)%Z.
  revert Hc.
  destruct sx, sy; simpl cond_Zopp;
    [ destruct (Z.compare_spec ex ey) as [Heq|Hlt|Hgt];
        [destruct (Z.compare_spec (Zpos mx) (Zpos my))| |]
    | | | destruct (Z.compare_spec ex ey) as [Heq|Hlt|Hgt];
        [destruct (Z.compare_spec (Zpos mx) (Zpos my))| |] ];
    intros Hc; cbv beta iota; cbn [CompOpp];
    first [apply Z.ltb_lt | apply Z.ltb_ge];
    destruct (Z.compare_spec ax ay); try discriminate Hc; lia.
Qed.

(** ** Converted numbers are binary64 values *)

Lemma fexp64_mono (a b : Z) : (a <= b)%Z -> (fexp64 a <= fexp64 b)%Z.
Proof. unfold fexp64, fexp, emin, prec, emax. lia. Qed.

Lemma Zdigits2_bounds (m : Z) :
  (0 < m)%Z -> (2 ^ (Zdigits2 m - 1) <= m < 2 ^ Zdigits2 m)%Z /\ (0 < Zdigits2 m)%Z.
Proof.
  destruct m as [|p|p]; try lia. intros _. cbn [Zdigits2].
  split; [apply digits2_pos_bounds|lia].
Qed.

Lemma Zdigits2_unique (m k : Z) :
  (0 < m)%Z -> (2 ^ (k - 1) <= m < 2 ^ k)%Z -> Zdigits2 m = k.
Proof.
  intros Hm [Hlo Hhi].
  destruct (Zdigits2_bounds Hm) as [[Dlo Dhi] Dpos].
  set (d := Zdigits2 m) in *.
  assert (Hk : (0 < k)%Z).
  { destruct (Z.le_gt_cases k 0) as [Hle|]; [|assumption].
    assert (2 ^ k <= 1)%Z.
    { destruct (Z.eq_dec k 0) as [->|]; [simpl; lia|].
      rewrite Z.pow_neg_r by lia. lia. }
    lia. }
  destruct (Z.lt_trichotomy d k) as [Hlt|[Heq|Hgt]]; [|exact Heq|].
  - assert (2 ^ d <= 2 ^ (k - 1))%Z by (apply Z.pow_le_mono_r; lia). lia.
  - assert (2 ^ k <= 2 ^ (d - 1))%Z by (apply Z.pow_le_mono_r; lia). lia.
Qed.

Lemma Zdigits2_mono (a b : Z) :
  (0 < a)%Z -> (a <= b)%Z -> (Zdigits2 a <= Zdigits2 b)%Z.
Proof.
  intros Ha Hab.
  destruct (Zdigits2_bounds Ha) as [[Alo _] Apos].
  destruct (@Zdigits2_bounds b ltac:(lia)) as [[_ Bhi] Bpos].
  destruct (Z.le_gt_cases (Zdigits2 a) (Zdigits2 b)) as [|Hgt]; [assumption|].
  assert (2 ^ Zdigits2 b <= 2 ^ (Zdigits2 a - 1))%Z by (apply Z.pow_le_mono_r; lia).
  lia.
Qed.

Lemma Zdigits2_div_pow (m n : Z) :
  (0 < m)%Z -> (0 <= n < Zdigits2 m)%Z ->
  (0 < m / 2 ^ n)%Z /\ Zdigits2 (m / 2 ^ n) = (Zdigits2 m - n)%Z.
Proof.
  intros Hm Hn.
  destruct (Zdigits2_bounds Hm) as [[Dlo Dhi] Dpos].
  set (d := Zdigits2 m) in *.
  assert (Hp : (0 < 2 ^ n)%Z) by (apply Z.pow_pos_nonneg; lia).
  assert (Hlo : (2 ^ (d - n - 1) <= m / 2 ^ n)%Z).
  { apply Z.div_le_lower_bound; [exact Hp|].
    rewrite <- Z.pow_add_r by lia. replace (n + (d - n - 1))%Z with (d - 1)%Z by lia.
    exact Dlo. }
  assert (Hhi : (m / 2 ^ n < 2 ^ (d - n))%Z).
  { apply Z.div_lt_upper_bound; [exact Hp|].
    rewrite <- Z.pow_add_r by lia. replace (n + (d - n))%Z with d by lia.
    exact Dhi. }
  assert (Hq : (0 < m / 2 ^ n)%Z).
  { assert (0 < 2 ^ (d - n - 1))%Z by (apply Z.pow_pos_nonneg; lia). lia. }
  split; [exact Hq|].
  apply Zdigits2_unique; [exact Hq|]. split; [exact Hlo|exact Hhi].
Qed.

Lemma Zdigits2_mul_pow (m k : Z) :
  (0 < m)%Z -> (0 <= k)%Z -> Zdigits2 (m * 2 ^ k) = (Zdigits2 m + k)%Z.
Proof.
  intros Hm Hk.
  destruct (Zdigits2_bounds Hm) as [[Dlo Dhi] Dpos].
  set (d := Zdigits2 m) in *.
  assert (Hp : (0 < 2 ^ k)%Z) by (apply Z.pow_pos_nonneg; lia).
  apply Zdigits2_unique; [nia|].
  replace (d + k - 1)%Z with ((d - 1) + k)%Z by lia.
  rewrite !Z.pow_add_r by lia. nia.
Qed.

Lemma shr_fexp_canonical (m e : Z) (l : location) :
  wellPlaced m e ->
  canonicalOrZero (shr_m (fst (shr_fexp prec emax m e l)))
                  (snd (shr_fexp prec emax m e l)).
Proof.
  intros Hw. unfold shr_fexp.
  assert (H0 : (0 <= shr_m (shr_record_of_loc m l))%Z)
    by (rewrite shr_m_of_loc; destruct Hw as [[? _]|[-> _]]; lia).
  destruct (shr_div (shr_record_of_loc m l) e
              (fexp prec emax (Zdigits2 m + e) - e) H0) as [-> ->].
  rewrite shr_m_of_loc. fold (fexp64 (Zdigits2 m + e)).
  destruct Hw as [[Hm He]|[-> ->]].
  - rewrite Z.max_r by lia.
    replace (e + (fexp64 (Zdigits2 m + e) - e))%Z with (fexp64 (Zdigits2 m + e)) by lia.
    set (n := (fexp64 (Zdigits2 m + e) - e)%Z).
    destruct (Z.lt_ge_cases n (Zdigits2 m)) as [Hlt|Hge].
    + left. destruct (@Zdigits2_div_pow m n Hm ltac:(lia)) as [Hq Hd].
      split; [exact Hq|]. rewrite Hd. f_equal. subst n. lia.
    + right. destruct (Zdigits2_bounds Hm) as [[_ Dhi] Dpos].
      split.
      * apply Z.div_small. split; [lia|].
        apply Z.lt_le_trans with (2 ^ Zdigits2 m)%Z; [exact Dhi|].
        apply Z.pow_le_mono_r; lia.
      * subst n. unfold fexp64, fexp, binary64_emin, emin, prec, emax in *. lia.
  - right. split; reflexivity.
Qed.

Lemma rounded_wellPlaced (m1 e1 m2 : Z) :
  canonicalOrZero m1 e1 -> (m1 <= m2 <= m1 + 1)%Z -> wellPlaced m2 e1.
Proof.
  intros [[Hm Hc]|[-> ->]] Hr.
  - left. split; [lia|]. rewrite <- Hc at 1. apply fexp64_mono.
    pose proof (@Zdigits2_mono m1 m2 Hm ltac:(lia)). lia.
  - assert (m2 = 0 \/ m2 = 1)%Z as [->| ->] by lia.
    + right. now split.
    + left. split; [lia|]. vm_compute. discriminate.
Qed.

Lemma binary_round_aux_valid (s : bool) (m e : Z) (l : location) :
  wellPlaced m e ->
  valid_binary prec emax (binary_round_aux prec emax s m e l) = true.
Proof.
  intros Hw. unfold binary_round_aux.
  pose proof (shr_fexp_canonical l Hw) as H1.
  destruct (shr_fexp prec emax m e l) as [mrs1 e1]. cbn [fst snd] in H1.
  pose proof (rounded_wellPlaced H1
                (round_nearest_even_bounds (shr_m mrs1) (loc_of_shr_record mrs1))) as H2.
  pose proof (shr_fexp_canonical loc_Exact H2) as H3.
  destruct (shr_fexp prec emax _ e1 loc_Exact) as [mrs2 e2]. cbn [fst snd] in H3.
  destruct H3 as [[Hm Hc]|[Hm He]].
  - destruct (shr_m mrs2) as [|p|p]; try lia.
    destruct (e2 <=? emax - prec)%Z eqn:Eb; [|reflexivity].
    cbn [valid_binary]. unfold bounded, canonical_mantissa.
    rewrite Eb, andb_true_r. apply Z.eqb_eq. exact Hc.
  - rewrite Hm. reflexivity.
Qed.

Lemma binary_round_valid (s : bool) (m : positive) (e : Z) :
  valid_binary prec emax (binary_round prec emax s m e) = true.
Proof.
  unfold binary_round.
  assert (Hw : wellPlaced
                 (Zpos (fst (shl_align m e (fexp prec emax (Zpos (digits2_pos m) + e)))))
                 (snd (shl_align m e (fexp prec emax (Zpos (digits2_pos m) + e))))).
  { left. split; [lia|].
    fold (fexp64 (Zpos (digits2_pos m) + e)).
    destruct (Z.lt_ge_cases (fexp64 (Zpos (digits2_pos m) + e)) e) as [Hlt|Hge].
    - rewrite shl_align_mul by lia.
      assert (Hs : snd (shl_align m e (fexp64 (Z.pos (digits2_pos m) + e)))
                   = fexp64 (Z.pos (digits2_pos m) + e)).
      { unfold shl_align.
        destruct (fexp64 (Z.pos (digits2_pos m) + e) - e)%Z eqn:E; try lia. reflexivity. }
      rewrite Hs, Zdigits2_mul_pow by lia. cbn [Zdigits2].
      apply Z.eq_le_incl. f_equal. lia.
    - assert (Hs : shl_align m e (fexp64 (Z.pos (digits2_pos m) + e)) = (m, e)).
      { unfold shl_align.
        destruct (fexp64 (Z.pos (digits2_pos m) + e) - e)%Z eqn:E; try lia; reflexivity. }
      rewrite Hs. cbn [fst snd Zdigits2]. exact Hge. }
  destruct (shl_align m e _) as [mz ez]. cbn [fst snd] in Hw.
  now apply binary_round_aux_valid.
Qed.

Lemma ofZ_valid (z : Z) : valid_binary prec emax (ofZ z) = true.
Proof.
  unfold ofZ, binary_normalize.
  destruct z; [reflexivity| |]; apply binary_round_valid.
Qed.

Lemma Zdigits2_lower (q j : Z) :
  (0 < q)%Z -> (2 ^ j <= q)%Z -> (j + 1 <= Zdigits2 q)%Z.
Proof.
  intros Hq Hj.
  destruct (Zdigits2_bounds Hq) as [[_ Dhi] Dpos].
  destruct (Z.lt_ge_cases j (Zdigits2 q)) as [|Hge]; [lia|].
  assert (2 ^ Zdigits2 q <= 2 ^ j)%Z by (apply Z.pow_le_mono_r; lia). lia.
Qed.

(** The quotient the decimal conversion rounds is well placed. *)
Lemma SFdiv_core_wellPlaced (m b : Z) :
  (0 < m)%Z -> (0 < b)%Z ->
  wellPlaced (fst (fst (SFdiv_core_binary prec emax m 0 b 0)))
             (snd (fst (SFdiv_core_binary prec emax m 0 b 0))).
Proof.
  intros Hm Hb. unfold SFdiv_core_binary.
  destruct (Zdigits2_bounds Hm) as [[Mlo Mhi] Mpos].
  destruct (Zdigits2_bounds Hb) as [[Blo Bhi] Bpos].
  set (d1 := Zdigits2 m) in *. set (d2 := Zdigits2 b) in *.
  replace (d1 + 0 - (d2 + 0))%Z with (d1 - d2)%Z by lia.
  fold (fexp64 (d1 - d2)).
  set (e' := Z.min (fexp64 (d1 - d2)) (0 - 0)).
  set (s := (0 - 0 - e')%Z).
  assert (He' : (e' <= 0)%Z) by (subst e'; lia).
  assert (Hs : (0 <= s)%Z) by (subst s; lia).
  set (m' := match s with Z0 => m | Zpos _ => Z.shiftl m s | Zneg _ => 0%Z end).
  assert (Hm' : m' = (m * 2 ^ s)%Z).
  { subst m'. destruct s as [|p|p] eqn:Es; [simpl; lia| |lia].
    now rewrite Z.shiftl_mul_pow2 by lia. }
  assert (Hq : fst (Z.div_eucl m' b) = (m' / b)%Z) by reflexivity.
  destruct (Z.div_eucl m' b) as [q r]. cbn [fst snd] in *. subst q.
  assert (Hps : (0 < 2 ^ s)%Z) by (apply Z.pow_pos_nonneg; lia).
  assert (Hm'lo : (2 ^ (d1 + s - 1) <= m')%Z).
  { rewrite Hm'. replace (d1 + s - 1)%Z with ((d1 - 1) + s)%Z by lia.
    rewrite Z.pow_add_r by lia. nia. }
  destruct (Z.lt_ge_cases m' b) as [Hsmall|Hbig].
  - (* the quotient is zero *)
    right. split; [apply Z.div_small; nia|].
    assert (Hd : (d1 + s - 1 < d2)%Z).
    { destruct (Z.lt_ge_cases (d1 + s - 1) d2) as [|Hge]; [assumption|].
      assert (2 ^ d2 <= 2 ^ (d1 + s - 1))%Z by (apply Z.pow_le_mono_r; lia). lia. }
    subst s e'. unfold fexp64, fexp, binary64_emin, emin, prec, emax in *. lia.
  - left.
    assert (Hqpos : (0 < m' / b)%Z) by (apply Z.div_str_pos; lia).
    split; [exact Hqpos|].
    assert (Hdq : (d1 + s - d2 <= Zdigits2 (m' / b))%Z).
    { destruct (Z.le_gt_cases (d1 + s - d2) 1) as [Hle|Hgt].
      - destruct (Zdigits2_bounds Hqpos) as [_ ?]. lia.
      - replace (d1 + s - d2)%Z with ((d1 + s - d2 - 1) + 1)%Z by lia.
        apply Zdigits2_lower; [exact Hqpos|].
        apply Z.div_le_lower_bound; [exact Hb|].
        apply Z.le_trans with (2 ^ d2 * 2 ^ (d1 + s - d2 - 1))%Z.
        + apply Z.mul_le_mono_nonneg_r; [apply Z.pow_nonneg; lia|lia].
        + rewrite <- Z.pow_add_r by lia.
          replace (d2 + (d1 + s - d2 - 1))%Z with (d1 + s - 1)%Z by lia.
          exact Hm'lo. }
    apply Z.le_trans with (fexp64 (d1 - d2)); [subst e'; lia|].
    apply fexp64_mono. subst s. lia.
Qed.

Lemma ofDecimal_valid (neg : bool) (m e10 : Z) :
  (0 <= m)%Z -> valid_binary prec emax (ofDecimal neg m e10) = true.
Proof.
  intros Hm. unfold ofDecimal.
  destruct (m =? 0)%Z eqn:E0; [reflexivity|]. apply Z.eqb_neq in E0.
  destruct (0 <=? e10)%Z eqn:He; [|apply Z.leb_gt in He].
  - unfold binary_normalize.
    destruct (cond_Zopp neg (m * 10 ^ e10)); [reflexivity| |];
      apply binary_round_valid.
  - assert (Hb : (0 < 10 ^ (- e10))%Z) by (apply Z.pow_pos_nonneg; lia).
    pose proof (@SFdiv_core_wellPlaced m (10 ^ (- e10)) ltac:(lia) Hb) as Hw.
    destruct (SFdiv_core_binary prec emax m 0 (10 ^ (- e10)) 0) as [[q e] l].
    cbn [fst snd] in Hw. now apply binary_round_aux_valid.
Qed.

Lemma StringToNumber_valid (s : jsstring) :
  valid_binary prec emax (StringToNumber s) = true.
Proof.
  unfold StringToNumber, parseNumeric.
  destruct (trim s) as [|c t]; [reflexivity|].
  destruct (parseNonDecimal (c :: t)) as [v|]; [apply ofZ_valid|].
  destruct (parseDecimal (c :: t)) as [[neg [|m e]]|] eqn:E; try reflexivity.
  apply ofDecimal_valid. exact (parseDecimal_nonneg _ E).
Qed.

(** ** Rows of binary64 values *)

Lemma getOwn_In (o : Obj) (k : jsstring) (v : Value) :
  getOwn o k = Some v -> exists k', In (k', v) o.
Proof.
  induction o as [|[k0 v0] t IH]; simpl; [discriminate|].
  destruct (str_eqb k0 k).
  - intros H. injection H as ->. exists k0. now left.
  - intros H. destruct (IH H) as [k' Hk']. exists k'. now right.
Qed.

Lemma objectPrototype_valid : rowValid objectPrototype.
Proof.
  intros kv Hin. unfold objectPrototype in Hin. simpl in Hin.
  repeat (destruct Hin as [<-|Hin]; [reflexivity|]). contradiction.
Qed.

Lemma get_valid (o : Obj) (k : jsstring) :
  rowValid o -> validNumber (get o k) = true.
Proof.
  intros Ho. unfold get.
  destruct (getOwn o k) as [v|] eqn:E.
  - destruct (getOwn_In _ _ E) as [k' Hk']. exact (Ho _ Hk').
  - destruct (getOwn objectPrototype k) as [v|] eqn:Ep; [|reflexivity].
    destruct (getOwn_In _ _ Ep) as [k' Hk'].
    exact (objectPrototype_valid Hk').
Qed.

Lemma setOwn_valid (o : Obj) (k : jsstring) (v : Value) :
  rowValid o -> validNumber v = true -> rowValid (setOwn o k v).
Proof.
  intros Ho Hv. induction o as [|[k0 v0] t IH]; simpl.
  - intros kv [<-|[]]. exact Hv.
  - assert (Ht : rowValid t) by (intros kv Hkv; apply Ho; now right).
    destruct (str_eqb k0 k).
    + intros kv [<-|Hkv]; [exact Hv|now apply Ht].
    + intros kv [<-|Hkv]; [apply (Ho (k0, v0)); now left|now apply IH].
Qed.

Lemma set_valid (o : Obj) (k : jsstring) (v : Value) :
  rowValid o -> validNumber v = true -> rowValid (set o k v).
Proof.
  intros Ho Hv. unfold set.
  destruct (getOwn o k); [now apply setOwn_valid|].
  destruct (str_eqb k (js "__proto__")); [exact Ho|now apply setOwn_valid].
Qed.

Lemma coerceField_valid (s : jsstring) : validNumber (coerceField s) = true.
Proof.
  unfold coerceField.
  destruct (negb (falsy s) && negb (strIsNaN s))%bool; [|reflexivity].
  apply StringToNumber_valid.
Qed.

Lemma normalize_valid (v : Value) :
  validNumber v = true -> validNumber (normalize v) = true.
Proof.
  destruct v as [| |b|n|s|c]; simpl; intros H; try exact H; try reflexivity.
  destruct (negb (strIsNaN s) && negb (str_eqb (trim s) []))%bool; [|reflexivity].
  apply StringToNumber_valid.
Qed.

Lemma rowOfValues_valid (headers values : list jsstring) :
  rowValid (rowOfValues headers values).
Proof.
  unfold rowOfValues.
  assert (H : forall l acc, rowValid acc ->
            rowValid (fold_left
                        (fun row (hi : nat * jsstring) =>
                           let '(index, header) := hi in
                           let value := strOr (nth_error values index) [] in
                           set row header (coerceField value)) l acc)).
  { induction l as [|[i h] l IH]; intros acc Hacc; [exact Hacc|].
    simpl. apply IH. apply set_valid; [exact Hacc|apply coerceField_valid]. }
  apply H. intros kv [].
Qed.

(** The rows of a CSV file hold binary64 values only. *)
Lemma parseCSVFile_valid (r : ReadResult) (rows : list Obj) :
  parseCSVFile r = inr rows -> forall row, In row rows -> rowValid row.
Proof.
  unfold parseCSVFile. destruct r as [csvString|]; [|discriminate].
  destruct (falsy csvString); [discriminate|].
  destruct (Nat.eqb _ 0); [discriminate|].
  intros H. injection H as <-. intros row Hrow.
  apply in_map_iff in Hrow as (i & <- & _). apply rowOfValues_valid.
Qed.

Lemma insertByIndex_In (e x : N * (jsstring * Value)) (l : list (N * (jsstring * Value))) :
  In e (insertByIndex x l) -> e = x \/ In e l.
Proof.
  induction l as [|y t IH]; simpl.
  - intros [<-|[]]. now left.
  - destruct (N.leb (fst x) (fst y)); simpl.
    + intros [<-|[<-|H]]; auto.
    + intros [<-|H]; [auto|]. destruct (IH H); auto.
Qed.

Lemma Object_entries_In (o : Obj) (kv : jsstring * Value) :
  In kv (Object_entries o) -> In kv o.
Proof.
  unfold Object_entries. intros H. apply in_app_or in H as [H|H].
  - apply in_map_iff in H as ([i kv'] & <- & H). simpl.
    assert (Hsorted : forall l e, In e (fold_right insertByIndex [] l) -> In e l).
    { induction l as [|x t IH]; simpl; [tauto|].
      intros e He. apply insertByIndex_In in He as [->|He]; auto. }
    apply Hsorted in H. apply in_flat_map in H as (kv0 & Hin & H).
    destruct (arrayIndex (fst kv0)); [|contradiction].
    destruct H as [H|[]]. injection H as _ <-. exact Hin.
  - apply filter_In in H as [H _]. exact H.
Qed.

Lemma cleanRow_valid (row : Obj) : rowValid row -> rowValid (cleanRow row).
Proof.
  intros Hrow. unfold cleanRow.
  assert (H : forall l acc,
            (forall kv, In kv l -> validNumber (snd kv) = true) ->
            rowValid acc ->
            rowValid (fold_left (fun newRow kv => set newRow (fst kv) (normalize (snd kv)))
                                l acc)).
  { induction l as [|kv l IH]; intros acc Hl Hacc; [exact Hacc|].
    simpl. apply IH; [intros kv' Hkv'; apply Hl; now right|].
    apply set_valid; [exact Hacc|]. apply normalize_valid. apply Hl. now left. }
  apply H; [|intros kv []].
  intros kv Hkv. apply Hrow. now apply Object_entries_In.
Qed.

(** So do the rows of a workbook, when the library delivers such rows. *)
Lemma parseExcelFile_valid (xlsxRows : jsstring -> Outcome) :
  (forall b rows, xlsxRows b = inr rows -> forall row, In row rows -> rowValid row) ->
  forall r rows, parseExcelFile xlsxRows r = inr rows ->
    forall row, In row rows -> rowValid row.
Proof.
  intros Hlib r rows. unfold parseExcelFile.
  destruct r as [binaryStr|]; [|discriminate].
  destruct (falsy binaryStr); [discriminate|].
  destruct (xlsxRows binaryStr) as [m|jsonData] eqn:E; [discriminate|].
  intros H. injection H as <-. intros row Hrow.
  apply in_map_iff in Hrow as (row0 & <- & Hin).
  apply cleanRow_valid. exact (Hlib _ _ E _ Hin).
Qed.

(** ** The stable sort *)

Lemma numLt_not_nan (x y : Number) :
  numLt x y = true -> numIsNaN x = false /\ numIsNaN y = false.
Proof.
  destruct x as [sx|sx| |sx mx ex]; destruct y as [sy|sy| |sy my ey];
    try discriminate; now split.
Qed.

Lemma numEq_not_nan (x y : Number) :
  numEq x y = true -> numIsNaN x = false /\ numIsNaN y = false.
Proof.
  destruct x as [sx|sx| |sx mx ex]; destruct y as [sy|sy| |sy my ey];
    try discriminate; now split.
Qed.

Lemma numLt_numEq_false (x y k : Number) :
  numLt x y = true -> numEq x k = true -> numEq y k = false.
Proof.
  intros Hlt Heq.
  destruct (numLt_not_nan _ _ Hlt) as [Hx Hy].
  destruct (numEq_not_nan _ _ Heq) as [_ Hk].
  apply numLt_key in Hlt; [|assumption..].
  apply numEq_key in Heq; [|assumption..].
  destruct (numEq y k) eqn:E; [|reflexivity].
  apply numEq_key in E; [|assumption..].
  exfalso. exact (cmp3_lt_eq _ _ _ Hlt Heq E).
Qed.

Section SortFacts.
Variable A : Type.
Variable comparefn : A -> A -> Number.
Variable key : A -> Number.

Lemma sortInsert_perm (x : A) (l : list A) :
  Permutation (sortInsert comparefn x l) (x :: l).
Proof.
  induction l as [|y t IH]; simpl; [reflexivity|].
  destruct (sortsAfter comparefn x y); [|reflexivity].
  rewrite IH. apply perm_swap.
Qed.

Lemma Array_sort_perm (l : list A) : Permutation (Array_sort comparefn l) l.
Proof.
  induction l as [|x t IH]; simpl; [reflexivity|].
  rewrite sortInsert_perm. now constructor.
Qed.

Lemma Array_sort_length (l : list A) :
  length (Array_sort comparefn l) = length l.
Proof. apply Permutation_length, Array_sort_perm. Qed.

Lemma sortInsert_sorted (x : A) (l : list A) :
  sortsDescending comparefn key (x :: l) ->
  StronglySorted (descending key) l ->
  StronglySorted (descending key) (sortInsert comparefn x l).
Proof.
  intros [Hnan Hcmp] Hs. induction Hs as [|y t Hs IH Hy].
  - simpl. repeat constructor.
  - assert (Hx : numIsNaN (key x) = false) by (apply Hnan; now left).
    assert (Hky : numIsNaN (key y) = false) by (apply Hnan; right; now left).
    simpl. rewrite (Hcmp x y) by (simpl; auto).
    destruct (numLt (key x) (key y)) eqn:E.
    + constructor.
      * apply IH.
        -- intros a [<-|Ha]; apply Hnan; simpl; auto.
        -- intros a b Ha Hb. apply Hcmp; simpl in *; tauto.
      * rewrite Forall_forall in *. intros z Hz.
        apply (Permutation_in _ (sortInsert_perm x t)) in Hz as [<-|Hz].
        -- now apply numLt_le.
        -- now apply Hy.
    + constructor; [now constructor|].
      constructor; [now apply numLt_false_le|].
      rewrite Forall_forall in *. intros z Hz.
      apply numLe_trans with (key y); [now apply Hy|now apply numLt_false_le].
Qed.

Lemma sortsDescending_perm (l l' : list A) :
  Permutation l l' -> sortsDescending comparefn key l' ->
  sortsDescending comparefn key l.
Proof.
  intros Hp [Hnan Hcmp]. split.
  - intros a Ha. apply Hnan. exact (Permutation_in _ Hp Ha).
  - intros a b Ha Hb.
    apply Hcmp; [exact (Permutation_in _ Hp Ha)|exact (Permutation_in _ Hp Hb)].
Qed.

Lemma Array_sort_sorted (l : list A) :
  sortsDescending comparefn key l ->
  StronglySorted (descending key) (Array_sort comparefn l).
Proof.
  induction l as [|x t IH]; intros H; simpl; [constructor|].
  apply sortInsert_sorted.
  - apply sortsDescending_perm with (x :: t); [|exact H].
    constructor. apply Array_sort_perm.
  - apply IH. destruct H as [Hnan Hcmp]. split.
    + intros a Ha. apply Hnan. now right.
    + intros a b Ha Hb. apply Hcmp; now right.
Qed.

(** Inserting keeps, among the elements whose key equals [k], the order
    they had. *)
Lemma sortInsert_stable (k : Number) (x : A) (l : list A) :
  (forall b, In b l -> sortsAfter comparefn x b = numLt (key x) (key b)) ->
  filter (fun r => numEq (key r) k) (sortInsert comparefn x l)
  = filter (fun r => numEq (key r) k) (x :: l).
Proof.
  induction l as [|y t IH]; intros Hcmp; [reflexivity|].
  cbn [sortInsert]. rewrite (Hcmp y) by now left.
  destruct (numLt (key x) (key y)) eqn:E; [|reflexivity].
  cbn [filter]. rewrite IH by (intros b Hb; apply Hcmp; now right).
  cbn [filter].
  destruct (numEq (key x) k) eqn:Ex; [|reflexivity].
  now rewrite (numLt_numEq_false _ _ _ E Ex).
Qed.

Lemma Array_sort_stable (k : Number) (l : list A) :
  sortsDescending comparefn key l ->
  filter (fun r => numEq (key r) k) (Array_sort comparefn l)
  = filter (fun r => numEq (key r) k) l.
Proof.
  induction l as [|x t IH]; intros H; [reflexivity|].
  cbn [Array_sort fold_right]. fold (Array_sort comparefn t).
  rewrite sortInsert_stable.
  - cbn [filter]. rewrite IH; [reflexivity|].
    destruct H as [Hnan Hcmp]. split.
    + intros a Ha. apply Hnan. now right.
    + intros a b Ha Hb. apply Hcmp; now right.
  - intros b Hb. apply H; [now left|].
    right. exact (Permutation_in _ (Array_sort_perm t) Hb).
Qed.

Lemma StronglySorted_firstn (R : A -> A -> Prop) (n : nat) (l : list A) :
  StronglySorted R l -> StronglySorted R (firstn n l).
Proof.
  intros Hs. revert n. induction Hs as [|x t Hs IH Hx]; intros [|n]; simpl;
    try constructor.
  - apply IH.
  - rewrite Forall_forall in *. intros z Hz. apply Hx.
    rewrite <- (firstn_skipn n t). apply in_or_app. now left.
Qed.

End SortFacts.

(** ** The projection and the statistics *)

Lemma keptRows_sortsDescending (d : list Obj) (y : jsstring) :
  (forall r, In r d -> validNumber (get r y) = true) ->
  sortsDescending (byYDescending y) (yValue y) (keptRows d y).
Proof.
  intros Hvalid.
  assert (Hkept : forall a, In a (keptRows d y) ->
            numIsNaN (yValue y a) = false
            /\ valid_binary prec emax (yValue y a) = true).
  { intros a Ha. apply filter_In in Ha as [Hin Hnum].
    specialize (Hvalid a Hin). unfold yValue.
    destruct (get a y) as [| |b|n|s|c]; try discriminate. simpl in *.
    split; [|exact Hvalid]. now destruct (numIsNaN n). }
  split.
  - intros a Ha. now apply Hkept.
  - intros a b Ha Hb.
    destruct (Hkept a Ha) as [Hna Hva]. destruct (Hkept b Hb) as [Hnb Hvb].
    unfold sortsAfter, byYDescending. fold (yValue y a). fold (yValue y b).
    now apply numSub_positive.
Qed.

Lemma numericValues_length (d : list Obj) (y : jsstring) :
  length (numericValues d y) = length (keptRows d y).
Proof.
  unfold numericValues, keptRows.
  induction d as [|r t IH]; [reflexivity|].
  cbn [List.map flat_map filter].
  destruct (get r y) as [| |b|n|s|c]; try exact IH.
  destruct (isNumeric (VNum n)); simpl; [now f_equal|exact IH].
Qed.

Lemma numericValues_noNaN (d : list Obj) (y : jsstring) :
  noNaN (numericValues d y).
Proof.
  unfold numericValues, noNaN. intros v Hv.
  apply in_flat_map in Hv as (w & _ & Hw).
  destruct w as [| |b|n|s|c]; try contradiction.
  simpl in Hw. destruct (numIsNaN n) eqn:E; simpl in Hw; [contradiction|].
  destruct Hw as [<-|[]]. exact E.
Qed.

Lemma keptRows_all (d : list Obj) (y : jsstring) :
  (forall r, In r d -> isNumeric (get r y) = true) -> keptRows d y = d.
Proof.
  intros H. unfold keptRows. induction d as [|r t IH]; [reflexivity|].
  simpl. rewrite (H r) by now left. f_equal. apply IH.
  intros r' Hr'. apply H. now right.
Qed.

Lemma processedData_selected (d : list Obj) (x y : jsstring) :
  x <> [] -> y <> [] ->
  processedData d x y
  = firstn MAX_DISPLAY_DATA (Array_sort (byYDescending y) (keptRows d y)).
Proof.
  intros Hx Hy. unfold processedData.
  destruct x; [contradiction|]. destruct y; [contradiction|].
  destruct d as [|r t]; reflexivity.
Qed.

(** C2 (amended): when both axes are selected, the projection is the rows
    whose Y value is a number other than NaN, sorted by Y value largest
    first with equal values in their prior order, cut to the first 100;
    its length is the smaller of 100 and the number of such rows. *)
Theorem C2_projection_filtered_sorted_capped
    (d : list Obj) (x y : jsstring) :
  x <> [] -> y <> [] ->
  (forall r, In r d -> validNumber (get r y) = true) ->
  processedData d x y
  = firstn MAX_DISPLAY_DATA (Array_sort (byYDescending y) (keptRows d y))
  /\ Permutation (Array_sort (byYDescending y) (keptRows d y)) (keptRows d y)
  /\ StronglySorted (descending (yValue y))
       (Array_sort (byYDescending y) (keptRows d y))
  /\ (forall k,
        filter (fun r => numEq (yValue y r) k)
               (Array_sort (byYDescending y) (keptRows d y))
        = filter (fun r => numEq (yValue y r) k) (keptRows d y))
  /\ StronglySorted (descending (yValue y)) (processedData d x y)
  /\ length (processedData d x y) = Nat.min 100 (length (keptRows d y)).
Proof.
  intros Hx Hy Hvalid.
  pose proof (keptRows_sortsDescending d y Hvalid) as Hdesc.
  pose proof (Array_sort_sorted Hdesc) as Hsorted.
  rewrite (processedData_selected d Hx Hy).
  split; [reflexivity|]. split; [apply Array_sort_perm|].
  split; [exact Hsorted|]. split; [|split].
  - intros k. now apply Array_sort_stable.
  - now apply StronglySorted_firstn.
  - rewrite length_firstn, Array_sort_length. reflexivity.
Qed.

Lemma C2_projection_filtered_sorted_capped_witness :
  let row (n : string) (a : Z) : Obj :=
    [(js "Name", VStr (js n)); (js "Amount", VNum (ofZ a))] in
  let d := [row "A"%string 10%Z; row "B"%string 30%Z; [(js "Name", VStr (js "X"))];
            row "C"%string 20%Z; row "D"%string 30%Z] in
  processedData d (js "Name") (js "Amount")
  = [row "B"%string 30%Z; row "D"%string 30%Z; row "C"%string 20%Z; row "A"%string 10%Z].
Proof.
  intros row d.
  assert (Hx : js "Name" <> []) by discriminate.
  assert (Hy : js "Amount" <> []) by discriminate.
  assert (Hv : forall r, In r d -> validNumber (get r (js "Amount")) = true).
  { intros r Hr. repeat (destruct Hr as [<-|Hr]; [vm_compute; reflexivity|]).
    contradiction. }
  destruct (C2_projection_filtered_sorted_capped d Hx Hy Hv) as (Heq & _).
  rewrite Heq. vm_compute. reflexivity.
Defined.

(** C2 as stated fails when no X column is selected: a row with a numeric
    Y value survives the filter, the sort and the cut, and the projection
    is empty all the same. *)
Lemma C2_fails_without_x :
  let d := [[(js "v", VNum (ofZ 1))]] in
  firstn MAX_DISPLAY_DATA (Array_sort (byYDescending (js "v")) (keptRows d (js "v"))) = d
  /\ processedData d [] (js "v") = []
  /\ processedData d [] (js "v")
     <> firstn MAX_DISPLAY_DATA
          (Array_sort (byYDescending (js "v")) (keptRows d (js "v"))).
Proof.
  intros d. split; [vm_compute; reflexivity|]. split; [reflexivity|].
  vm_compute. discriminate.
Qed.

(** The projection of a dataset read from a CSV file is sorted, stable
    and capped, whatever the text. *)
Lemma csv_projection_sorted (r : ReadResult) (rows : list Obj) (x y : jsstring) :
  parseCSVFile r = inr rows -> x <> [] -> y <> [] ->
  StronglySorted (descending (yValue y)) (processedData rows x y)
  /\ (forall k,
        filter (fun row => numEq (yValue y row) k)
               (Array_sort (byYDescending y) (keptRows rows y))
        = filter (fun row => numEq (yValue y row) k) (keptRows rows y))
  /\ length (processedData rows x y) = Nat.min 100 (length (keptRows rows y)).
Proof.
  intros Hparse Hx Hy.
  assert (Hvalid : forall row, In row rows -> validNumber (get row y) = true).
  { intros row Hrow. apply get_valid. exact (parseCSVFile_valid _ Hparse _ Hrow). }
  pose proof (keptRows_sortsDescending rows y Hvalid) as Hdesc.
  rewrite (processedData_selected rows Hx Hy).
  split; [|split].
  - apply StronglySorted_firstn. now apply Array_sort_sorted.
  - intros k. now apply Array_sort_stable.
  - rewrite length_firstn, Array_sort_length. reflexivity.
Qed.

Lemma yAxisStats_none (d : list Obj) (y : jsstring) :
  numericValues d y = [] -> yAxisStats d y = None.
Proof.
  intros H. unfold yAxisStats. rewrite H.
  now destruct (falsy y || Nat.eqb (length d) 0)%bool.
Qed.

(** C3 (amended): the statistics read the whole dataset.  When no row
    holds a number other than NaN under the Y column there are no
    statistics, hence no count; otherwise there are, the count is the
    number of rows that hold such a number, the minimum and the maximum are
    values of the column that bound all the others, and the mean is the
    sum, added from zero in row order, divided by the count, each step
    rounded to binary64; a dataset of 150 numeric rows is projected to 100
    rows and counted as 150.  (That the mean lies between the minimum and
    the maximum is not part of it.) *)
Theorem C3_statistics_over_whole_dataset (d : list Obj) (y : jsstring) :
  y <> [] ->
  (keptRows d y = [] -> yAxisStats d y = None)
  /\ (keptRows d y <> [] ->
      exists st,
        yAxisStats d y = Some st
        /\ stCount st = length (keptRows d y)
        /\ 0 < stCount st
        /\ In (stMin st) (numericValues d y)
        /\ (forall v, In v (numericValues d y) -> numLe (stMin st) v = true)
        /\ In (stMax st) (numericValues d y)
        /\ (forall v, In v (numericValues d y) -> numLe v (stMax st) = true)
        /\ numLe (stMin st) (stMax st) = true
        /\ stAvg st = numDiv (fold_left numAdd (numericValues d y) posZero)
                             (ofZ (Z.of_nat (stCount st)))
        /\ (forall x, x <> [] -> length d = 150 ->
              (forall r, In r d -> isNumeric (get r y) = true) ->
              length (processedData d x y) = 100 /\ stCount st = 150)).
Proof.
  intros Hy. split.
  - intros Hkept. apply yAxisStats_none.
    apply length_zero_iff_nil. now rewrite numericValues_length, Hkept.
  - intros Hkept.
    assert (Hnv : numericValues d y <> []).
    { intros E. apply Hkept. apply length_zero_iff_nil.
      now rewrite <- numericValues_length, E. }
    pose proof (numericValues_noNaN d y) as Hnan.
    destruct (Math_min_spec Hnv Hnan) as [Hmin_in Hmin].
    destruct (Math_max_spec Hnv Hnan) as [Hmax_in Hmax].
    exists (mkStats (Math_min (numericValues d y)) (Math_max (numericValues d y))
                    (numDiv (fold_left numAdd (numericValues d y) posZero)
                            (ofZ (Z.of_nat (length (numericValues d y)))))
                    (length (numericValues d y))).
    cbn [stMin stMax stAvg stCount].
    split; [|split; [|split; [|split; [|split; [|split; [|split; [|split; [|split]]]]]]]].
    + unfold yAxisStats. destruct y; [contradiction|].
      destruct d as [|r t]; [contradiction Hnv; reflexivity|].
      destruct (numericValues (r :: t) (n :: y)); [contradiction|reflexivity].
    + apply numericValues_length.
    + destruct (numericValues d y); [contradiction|simpl; lia].
    + exact Hmin_in.
    + exact Hmin.
    + exact Hmax_in.
    + exact Hmax.
    + now apply Hmin.
    + reflexivity.
    + intros x Hx Hlen Hall.
      rewrite (processedData_selected d Hx Hy), length_firstn, Array_sort_length.
      rewrite numericValues_length, (keptRows_all d y Hall), Hlen.
      split; reflexivity.
Qed.

Lemma C3_statistics_over_whole_dataset_witness :
  let d := match parseCSVFile (Loaded (lit "Name,Amount|A,10|B,30|C,20|")) with
           | inr rows => rows
           | inl _ => []
           end in
  yAxisStats d (js "Name") = None
  /\ exists st,
       yAxisStats d (js "Amount") = Some st
       /\ stCount st = 3
       /\ stMin st = ofZ 10 /\ stMax st = ofZ 30 /\ stAvg st = ofZ 20.
Proof.
  intros d.
  assert (Hy : js "Amount" <> []) by discriminate.
  assert (Hn : js "Name" <> []) by discriminate.
  split.
  - apply (proj1 (@C3_statistics_over_whole_dataset d (js "Name") Hn)).
    vm_compute. reflexivity.
  - assert (Hkept : keptRows d (js "Amount") <> []) by (vm_compute; discriminate).
    destruct (proj2 (@C3_statistics_over_whole_dataset d (js "Amount") Hy) Hkept)
      as (st & Hst & _).
    exists st. split; [exact Hst|].
    assert (E : yAxisStats d (js "Amount")
                = Some (mkStats (ofZ 10) (ofZ 30) (ofZ 20) 3))
      by (vm_compute; reflexivity).
    rewrite E in Hst. injection Hst as <-. repeat split.
Defined.

(** C3 as stated fails on the mean: three rows holding 0.1 have minimum
    and maximum 0.1, and a mean, computed in binary64, above the maximum. *)
Lemma C3_mean_above_max :
  let d := match parseCSVFile (Loaded (lit "v|0.1|0.1|0.1|")) with
           | inr rows => rows
           | inl _ => []
           end in
  exists st,
    yAxisStats d (js "v") = Some st
    /\ stCount st = 3
    /\ stMax st = StringToNumber (js "0.1")
    /\ numLt (stMax st) (stAvg st) = true
    /\ numLe (stAvg st) (stMax st) = false.
Proof.
  intros d. eexists. split; [vm_compute; reflexivity|].
  cbn [stCount stMax stAvg]. repeat split.
Qed.

(** ** The keys of a row *)

Lemma getOwn_hasKey (o : Obj) (k : jsstring) :
  hasKey (List.map fst o) k = match getOwn o k with Some _ => true | None => false end.
Proof.
  induction o as [|[k0 v0] t IH]; [reflexivity|].
  simpl. destruct (str_eqb k0 k); [reflexivity|exact IH].
Qed.

Lemma setOwn_keys (o : Obj) (k : jsstring) (v : Value) :
  List.map fst (setOwn o k v)
  = if hasKey (List.map fst o) k then List.map fst o else List.map fst o ++ [k].
Proof.
  induction o as [|[k0 v0] t IH]; [reflexivity|].
  simpl. destruct (str_eqb k0 k) eqn:E; [reflexivity|].
  simpl. rewrite IH. now destruct (hasKey (List.map fst t) k).
Qed.

Lemma set_keys (o : Obj) (k : jsstring) (v : Value) :
  List.map fst (set o k v) = addKey (List.map fst o) k.
Proof.
  unfold set, addKey. rewrite getOwn_hasKey.
  destruct (getOwn o k) eqn:E.
  - rewrite setOwn_keys, getOwn_hasKey, E. reflexivity.
  - destruct (str_eqb k (js "__proto__")); [reflexivity|].
    rewrite setOwn_keys, getOwn_hasKey, E. reflexivity.
Qed.

Lemma getOwn_setOwn_same (o : Obj) (k : jsstring) (v : Value) :
  getOwn (setOwn o k v) k = Some v.
Proof.
  induction o as [|[k0 v0] t IH]; simpl.
  - now rewrite str_eqb_refl.
  - destruct (str_eqb k0 k) eqn:E; simpl; rewrite E; [reflexivity|exact IH].
Qed.

Lemma getOwn_setOwn_other (o : Obj) (k k' : jsstring) (v : Value) :
  k <> k' -> getOwn (setOwn o k v) k' = getOwn o k'.
Proof.
  intros Hne. induction o as [|[k0 v0] t IH]; simpl.
  - apply str_eqb_neq in Hne. now rewrite Hne.
  - destruct (str_eqb k0 k) eqn:E; simpl.
    + apply str_eqb_eq in E. subst k0.
      apply str_eqb_neq in Hne. now rewrite Hne.
    + destruct (str_eqb k0 k'); [reflexivity|exact IH].
Qed.

Lemma getOwn_set_same (o : Obj) (k : jsstring) (v : Value) :
  k <> js "__proto__" -> getOwn (set o k v) k = Some v.
Proof.
  intros Hk. unfold set. destruct (getOwn o k); [apply getOwn_setOwn_same|].
  apply str_eqb_neq in Hk. rewrite Hk. apply getOwn_setOwn_same.
Qed.

Lemma getOwn_set_other (o : Obj) (k k' : jsstring) (v : Value) :
  k <> k' -> getOwn (set o k v) k' = getOwn o k'.
Proof.
  intros Hne. unfold set. destruct (getOwn o k); [now apply getOwn_setOwn_other|].
  destruct (str_eqb k (js "__proto__")); [reflexivity|now apply getOwn_setOwn_other].
Qed.

Lemma rowOfValues_fold (headers values : list jsstring) :
  rowOfValues headers values
  = fold_left (fillStep values) (combine (seq 0 (length headers)) headers) [].
Proof. reflexivity. Qed.

Lemma strOr_nth (values : list jsstring) (i : nat) :
  strOr (nth_error values i) [] = nth i values [].
Proof.
  revert i. induction values as [|v t IH]; intros [|i]; simpl; try reflexivity.
  - now destruct v.
  - apply IH.
Qed.

Lemma fill_keys (values : list jsstring) (l : list (nat * jsstring)) :
  forall acc,
    List.map fst (fold_left (fillStep values) l acc)
    = fold_left addKey (List.map snd l) (List.map fst acc).
Proof.
  induction l as [|[i h] l IH]; intros acc; [reflexivity|].
  simpl. rewrite IH. unfold fillStep. now rewrite set_keys.
Qed.

Lemma combine_seq_snd (A : Type) (l : list A) (n : nat) :
  List.map snd (combine (seq n (length l)) l) = l.
Proof.
  revert n. induction l as [|x t IH]; intros n; [reflexivity|].
  simpl. now rewrite IH.
Qed.

(** The keys of a row depend on the headers alone. *)
Lemma rowOfValues_keys (headers values : list jsstring) :
  List.map fst (rowOfValues headers values) = fold_left addKey headers [].
Proof.
  rewrite rowOfValues_fold, fill_keys, combine_seq_snd. reflexivity.
Qed.

Lemma insertByIndex_perm (e : N * (jsstring * Value)) (l : list (N * (jsstring * Value))) :
  Permutation (insertByIndex e l) (e :: l).
Proof.
  induction l as [|y t IH]; simpl; [reflexivity|].
  destruct (N.leb (fst e) (fst y)); [reflexivity|].
  rewrite IH. apply perm_swap.
Qed.

Lemma sortByIndex_perm (l : list (N * (jsstring * Value))) :
  Permutation (fold_right insertByIndex [] l) l.
Proof.
  induction l as [|x t IH]; simpl; [reflexivity|].
  rewrite insertByIndex_perm. now constructor.
Qed.

Lemma filter_partition_perm (A : Type) (p : A -> bool) (l : list A) :
  Permutation (filter p l ++ filter (fun x => negb (p x)) l) l.
Proof.
  induction l as [|x t IH]; simpl; [reflexivity|].
  destruct (p x); simpl.
  - now constructor.
  - rewrite <- Permutation_middle. now constructor.
Qed.

(** [Object.entries] lists every own property once. *)
Lemma Object_entries_perm (o : Obj) : Permutation (Object_entries o) o.
Proof.
  unfold Object_entries.
  rewrite (Permutation_map snd (sortByIndex_perm _)).
  set (isIndex := fun kv : jsstring * Value =>
                    match arrayIndex (fst kv) with Some _ => true | None => false end).
  assert (Hidx : List.map snd
                   (flat_map (fun kv => match arrayIndex (fst kv) with
                                        | Some i => [(i, kv)]
                                        | None => []
                                        end) o)
                 = filter isIndex o).
  { induction o as [|kv t IH]; [reflexivity|].
    simpl. unfold isIndex at 1. destruct (arrayIndex (fst kv)); simpl; now rewrite IH. }
  rewrite Hidx.
  assert (Hnamed : filter (fun kv : jsstring * Value =>
                             match arrayIndex (fst kv) with Some _ => false | None => true end) o
                   = filter (fun kv => negb (isIndex kv)) o).
  { apply filter_ext. intros kv. unfold isIndex. now destruct (arrayIndex (fst kv)). }
  rewrite Hnamed. apply filter_partition_perm.
Qed.

Lemma Object_keys_perm (o : Obj) : Permutation (Object_keys o) (List.map fst o).
Proof. unfold Object_keys. apply Permutation_map, Object_entries_perm. Qed.

Lemma insertByIndex_map (g : jsstring * Value -> jsstring * Value)
    (e : N * (jsstring * Value)) (l : list (N * (jsstring * Value))) :
  List.map (fun ie => (fst ie, g (snd ie))) (insertByIndex e l)
  = insertByIndex (fst e, g (snd e)) (List.map (fun ie => (fst ie, g (snd ie))) l).
Proof.
  induction l as [|y t IH]; [reflexivity|].
  simpl. destruct (N.leb (fst e) (fst y)); simpl; [reflexivity|now rewrite IH].
Qed.

Lemma sortByIndex_map (g : jsstring * Value -> jsstring * Value)
    (l : list (N * (jsstring * Value))) :
  fold_right insertByIndex [] (List.map (fun ie => (fst ie, g (snd ie))) l)
  = List.map (fun ie => (fst ie, g (snd ie))) (fold_right insertByIndex [] l).
Proof.
  induction l as [|x t IH]; [reflexivity|].
  simpl. rewrite IH. symmetry. apply insertByIndex_map.
Qed.

(** Changing the values of an object does not change the order of its
    entries. *)
Lemma Object_entries_map (f : Value -> Value) (o : Obj) :
  Object_entries (List.map (fun kv => (fst kv, f (snd kv))) o)
  = List.map (fun kv => (fst kv, f (snd kv))) (Object_entries o).
Proof.
  set (g := fun kv : jsstring * Value => (fst kv, f (snd kv))).
  unfold Object_entries. rewrite map_app. f_equal.
  - assert (Hflat : flat_map (fun kv => match arrayIndex (fst kv) with
                                        | Some i => [(i, kv)]
                                        | None => []
                                        end) (List.map g o)
                    = List.map (fun ie => (fst ie, g (snd ie)))
                        (flat_map (fun kv => match arrayIndex (fst kv) with
                                             | Some i => [(i, kv)]
                                             | None => []
                                             end) o)).
    { induction o as [|kv t IH]; [reflexivity|].
      simpl. destruct (arrayIndex (fst kv)); simpl; now rewrite IH. }
    rewrite Hflat, sortByIndex_map, !map_map. reflexivity.
  - induction o as [|kv t IH]; [reflexivity|].
    simpl. destruct (arrayIndex (fst kv)); simpl; now rewrite IH.
Qed.

(** The order of the keys depends on the keys alone. *)
Lemma Object_keys_same (o o' : Obj) :
  List.map fst o = List.map fst o' -> Object_keys o = Object_keys o'.
Proof.
  intros H. unfold Object_keys.
  assert (Hk : forall p : Obj,
            List.map fst (Object_entries p)
            = List.map fst (Object_entries
                              (List.map (fun k => (k, VUndefined)) (List.map fst p)))).
  { intros p. rewrite map_map.
    rewrite (Object_entries_map (fun _ => VUndefined) p), map_map. reflexivity. }
  rewrite (Hk o), (Hk o'), H. reflexivity.
Qed.

Lemma hasKey_In (ks : list jsstring) (k : jsstring) :
  hasKey ks k = true <-> In k ks.
Proof.
  unfold hasKey. rewrite existsb_exists. split.
  - intros (k' & Hin & E). apply str_eqb_eq in E. now subst.
  - intros H. exists k. split; [exact H|apply str_eqb_refl].
Qed.

Lemma addKey_NoDup (ks : list jsstring) (k : jsstring) :
  NoDup ks -> NoDup (addKey ks k).
Proof.
  intros H. unfold addKey. destruct (hasKey ks k) eqn:E; [exact H|].
  destruct (str_eqb k (js "__proto__")); [exact H|].
  apply NoDup_app; [exact H|repeat constructor; intros []|].
  intros x Hx [<-|[]]. apply hasKey_In in Hx. congruence.
Qed.

Lemma addKey_In (ks : list jsstring) (k x : jsstring) :
  In x (addKey ks k) <-> In x ks \/ (x = k /\ k <> js "__proto__").
Proof.
  unfold addKey. destruct (hasKey ks k) eqn:E.
  - apply hasKey_In in E. split; [auto|]. intros [H|[-> _]]; assumption.
  - destruct (str_eqb k (js "__proto__")) eqn:Ep.
    + apply str_eqb_eq in Ep. split; [auto|]. intros [H|[_ H]]; [assumption|contradiction].
    + apply str_eqb_neq in Ep. rewrite in_app_iff. simpl. split.
      * intros [H|[<-|[]]]; auto.
      * intros [H|[-> _]]; auto.
Qed.

Lemma addKeys_NoDup (hs : list jsstring) :
  forall acc, NoDup acc -> NoDup (fold_left addKey hs acc).
Proof.
  induction hs as [|h t IH]; intros acc H; [exact H|].
  simpl. apply IH. now apply addKey_NoDup.
Qed.

Lemma addKeys_In (hs : list jsstring) (x : jsstring) :
  forall acc,
    In x (fold_left addKey hs acc)
    <-> In x acc \/ (In x hs /\ x <> js "__proto__").
Proof.
  induction hs as [|h t IH]; intros acc; simpl.
  - tauto.
  - rewrite IH, addKey_In. split.
    + intros [[H|[-> H]]|[H1 H2]]; auto.
    + intros [H|[[<-|H1] H2]]; auto.
Qed.

Lemma coerceField_cell (s : jsstring) : csvCell (coerceField s).
Proof.
  unfold coerceField.
  destruct (falsy s) eqn:Ef; simpl.
  - destruct s; [now left|discriminate].
  - destruct (strIsNaN s) eqn:En; simpl.
    + right. rewrite strIsNaN_accepts in En. now destruct (acceptsNumeric s).
    + split; [exact En|apply StringToNumber_valid].
Qed.

Lemma setOwn_all (P : Value -> Prop) (o : Obj) (k : jsstring) (v : Value) :
  rowAll P o -> P v -> rowAll P (setOwn o k v).
Proof.
  intros Ho Hv. induction o as [|[k0 v0] t IH]; simpl.
  - intros kv [<-|[]]. exact Hv.
  - assert (Ht : rowAll P t) by (intros kv Hkv; apply Ho; now right).
    destruct (str_eqb k0 k).
    + intros kv [<-|Hkv]; [exact Hv|now apply Ht].
    + intros kv [<-|Hkv]; [apply (Ho (k0, v0)); now left|now apply IH].
Qed.

Lemma set_all (P : Value -> Prop) (o : Obj) (k : jsstring) (v : Value) :
  rowAll P o -> P v -> rowAll P (set o k v).
Proof.
  intros Ho Hv. unfold set.
  destruct (getOwn o k); [now apply setOwn_all|].
  destruct (str_eqb k (js "__proto__")); [exact Ho|now apply setOwn_all].
Qed.

Lemma rowOfValues_cells (headers values : list jsstring) :
  rowAll csvCell (rowOfValues headers values).
Proof.
  rewrite rowOfValues_fold.
  assert (H : forall l acc, rowAll csvCell acc ->
                rowAll csvCell (fold_left (fillStep values) l acc)).
  { induction l as [|[i h] l IH]; intros acc Hacc; [exact Hacc|].
    simpl. apply IH. apply set_all; [exact Hacc|apply coerceField_cell]. }
  apply H. intros kv [].
Qed.

Lemma getOwn_of_key (o : Obj) (k : jsstring) :
  In k (List.map fst o) -> exists v, getOwn o k = Some v /\ In v (List.map snd o).
Proof.
  induction o as [|[k0 v0] t IH]; simpl; [intros []|].
  intros H. destruct (str_eqb k0 k) eqn:E.
  - exists v0. split; [reflexivity|now left].
  - destruct H as [->|H]; [rewrite str_eqb_refl in E; discriminate|].
    destruct (IH H) as (v & Hv & Hin). exists v. split; [exact Hv|now right].
Qed.

(** The rows of a text, whatever way it was read. *)
Lemma parseCSVFile_rows (r : ReadResult) (rows : list Obj) :
  parseCSVFile r = inr rows ->
  exists headers, forall row, In row rows ->
    exists values, row = rowOfValues headers values.
Proof.
  unfold parseCSVFile. destruct r as [csvString|]; [|discriminate].
  destruct (falsy csvString); [discriminate|].
  destruct (Nat.eqb _ 0); [discriminate|].
  intros H. injection H as <-.
  exists (parseCSVLine (nth 0 (nonBlankLines csvString) [])).
  intros row Hrow. apply in_map_iff in Hrow as (i & <- & _). eauto.
Qed.

(** Under each of its keys a row of a CSV dataset holds a cell of the
    numeric coercion. *)
Lemma csv_row_cells (r : ReadResult) (rows : list Obj) (row : Obj) (k : jsstring) :
  parseCSVFile r = inr rows -> In row rows -> In k (Object_keys row) ->
  exists v, getOwn row k = Some v /\ get row k = v /\ csvCell v.
Proof.
  intros Hparse H Hk.
  destruct (parseCSVFile_rows _ Hparse) as (headers & Hrows).
  destruct (Hrows _ H) as (vs & ->).
  apply (Permutation_in _ (Object_keys_perm _)) in Hk.
  destruct (getOwn_of_key _ _ Hk) as (v & Hv & Hin).
  exists v. split; [exact Hv|]. split; [unfold get; now rewrite Hv|].
  apply in_map_iff in Hin as (kv & <- & Hkv).
  exact (rowOfValues_cells headers vs kv Hkv).
Qed.

(** The rows of a CSV dataset have the keys the header line gives them. *)
Lemma csv_rows_keys (r : ReadResult) (rows : list Obj) :
  parseCSVFile r = inr rows ->
  exists keys, NoDup keys /\ forall row, In row rows -> Object_keys row = keys.
Proof.
  intros Hparse. destruct (parseCSVFile_rows _ Hparse) as (headers & Hrows).
  exists (Object_keys (rowOfValues headers [])). split.
  - apply (Permutation_NoDup (Permutation_sym (Object_keys_perm _))).
    rewrite rowOfValues_keys. apply addKeys_NoDup. constructor.
  - intros row H. destruct (Hrows _ H) as (v & ->).
    apply Object_keys_same. now rewrite !rowOfValues_keys.
Qed.

(** X1: the rows of a CSV dataset all have the same keys in the same
    order, without repetition, and each row holds under each key a number
    (a binary64 value, never NaN) or a string (empty, or not numeric). *)
Theorem X1_csv_rows_share_their_keys (r : ReadResult) (rows : list Obj) :
  parseCSVFile r = inr rows ->
  (forall row1 row2, In row1 rows -> In row2 rows ->
     Object_keys row1 = Object_keys row2)
  /\ (forall row, In row rows -> NoDup (Object_keys row))
  /\ (forall row k, In row rows -> In k (Object_keys row) ->
        exists v, getOwn row k = Some v /\ get row k = v /\ csvCell v).
Proof.
  intros Hparse. destruct (csv_rows_keys _ Hparse) as (keys & Hnd & Hkeys).
  split; [|split].
  - intros row1 row2 H1 H2. now rewrite (Hkeys _ H1), (Hkeys _ H2).
  - intros row H. now rewrite (Hkeys _ H).
  - intros row k Hrow Hk. exact (@csv_row_cells r rows row k Hparse Hrow Hk).
Qed.

Lemma X1_csv_rows_share_their_keys_witness :
  let text := lit "id,name,id|1,Ann,7|2|" in
  exists rows,
    parseCSVFile (Loaded text) = inr rows
    /\ List.map Object_keys rows = [[js "id"; js "name"]; [js "id"; js "name"]]
    /\ forall row1 row2, In row1 rows -> In row2 rows ->
         Object_keys row1 = Object_keys row2.
Proof.
  intros text.
  assert (H : parseCSVFile (Loaded text)
              = inr [ [(js "id", VNum (ofZ 7)); (js "name", VStr (js "Ann"))];
                      [(js "id", VStr []); (js "name", VStr [])] ])
    by (vm_compute; reflexivity).
  eexists. split; [exact H|]. split; [vm_compute; reflexivity|].
  exact (proj1 (X1_csv_rows_share_their_keys _ H)).
Defined.

(** ** Looking a field up in its row *)

Lemma fill_other (values : list jsstring) (k : jsstring) (l : list (nat * jsstring)) :
  forall acc,
    (forall p, In p l -> snd p <> k) ->
    getOwn (fold_left (fillStep values) l acc) k = getOwn acc k.
Proof.
  induction l as [|[i h] l IH]; intros acc H; [reflexivity|].
  simpl. rewrite IH by (intros p Hp; apply H; now right).
  apply getOwn_set_other. exact (H (i, h) (or_introl eq_refl)).
Qed.

Lemma fill_lookup (values : list jsstring) (headers : list jsstring) :
  forall start acc i,
    i < length headers ->
    nth i headers [] <> js "__proto__" ->
    (forall j, i < j < length headers -> nth j headers [] <> nth i headers []) ->
    getOwn (fold_left (fillStep values)
                      (combine (seq start (length headers)) headers) acc)
           (nth i headers [])
    = Some (coerceField (nth (start + i) values [])).
Proof.
  induction headers as [|h0 t IH]; intros start acc i Hi Hp Hlast;
    [simpl in Hi; lia|].
  destruct i as [|i].
  - cbn [nth length seq combine fold_left] in *.
    rewrite fill_other.
    + unfold fillStep. rewrite getOwn_set_same by exact Hp.
      now rewrite strOr_nth, Nat.add_0_r.
    + intros [j h] Hin. apply in_combine_r in Hin. simpl.
      destruct (In_nth _ _ [] Hin) as (n & Hn & <-).
      apply (Hlast (S n)). split; [apply Nat.lt_0_succ|apply (proj1 (Nat.succ_lt_mono _ _)); exact Hn].
  - cbn [nth length seq combine fold_left] in *.
    rewrite (IH (S start) _ i); [now rewrite Nat.add_succ_r| lia | exact Hp |].
    intros j Hj. apply (Hlast (S j)). lia.
Qed.

(** X2: a row gives back, under a header, the field that stands at the
    header's place in the line, coerced; a line that is too short gives
    the empty string, and of two equal headers the later one wins. *)
Theorem X2_csv_field_lookup (headers values : list jsstring) (i : nat) :
  i < length headers ->
  nth i headers [] <> js "__proto__" ->
  (forall j, i < j < length headers -> nth j headers [] <> nth i headers []) ->
  get (rowOfValues headers values) (nth i headers [])
  = coerceField (nth i values [])
  /\ (length values <= i ->
      get (rowOfValues headers values) (nth i headers []) = VStr []).
Proof.
  intros Hi Hp Hlast.
  assert (E : get (rowOfValues headers values) (nth i headers [])
              = coerceField (nth i values [])).
  { unfold get. rewrite rowOfValues_fold.
    now rewrite (fill_lookup values headers 0 [] Hi Hp Hlast). }
  split; [exact E|].
  intros Hshort. rewrite E, nth_overflow by exact Hshort. reflexivity.
Qed.

Lemma X2_csv_field_lookup_witness :
  let headers := [js "id"; js "name"; js "id"] in
  let values := [js "1"; js "Ann"; js "7"] in
  get (rowOfValues headers values) (js "id") = VNum (ofZ 7)
  /\ get (rowOfValues headers [js "1"]) (js "name") = VStr [].
Proof.
  intros headers values.
  assert (H2 : 2 < length headers) by (simpl; lia).
  assert (H1 : 1 < length headers) by (simpl; lia).
  assert (Hp2 : nth 2 headers [] <> js "__proto__") by discriminate.
  assert (Hp1 : nth 1 headers [] <> js "__proto__") by discriminate.
  assert (Hl2 : forall j, 2 < j < length headers ->
                  nth j headers [] <> nth 2 headers []) by (simpl; lia).
  assert (Hl1 : forall j, 1 < j < length headers ->
                  nth j headers [] <> nth 1 headers []).
  { intros j Hj. simpl in Hj. assert (j = 2) as -> by lia. discriminate. }
  split.
  - etransitivity;
      [exact (proj1 (@X2_csv_field_lookup headers values 2 H2 Hp2 Hl2))|].
    vm_compute. reflexivity.
  - apply (proj2 (@X2_csv_field_lookup headers [js "1"] 1 H1 Hp1 Hl1)).
    simpl. lia.
Defined.

(** ** White space around a line and its fields *)

Lemma blank_app (a b : jsstring) : blank a -> blank b -> blank (a ++ b).
Proof. unfold blank. intros Ha Hb. now rewrite forallb_app, Ha, Hb. Qed.

Lemma blank_rev (a : jsstring) : blank a -> blank (rev a).
Proof.
  unfold blank. rewrite !forallb_forall. intros H x Hx.
  apply H. now apply in_rev.
Qed.

Lemma blank_no_mark (w : jsstring) (c : N) :
  blank w -> isWhiteSpace c = false -> ~ In c w.
Proof.
  unfold blank. rewrite forallb_forall. intros H Hc Hin.
  rewrite (H c Hin) in Hc. discriminate.
Qed.

Lemma trimStart_blank (w s : jsstring) : blank w -> trimStart (w ++ s) = trimStart s.
Proof.
  unfold blank. induction w as [|c w IH]; intros H; [reflexivity|].
  simpl in *. apply andb_true_iff in H as [-> H]. now apply IH.
Qed.

Lemma trimEnd_blank (s w : jsstring) : blank w -> trimEnd (s ++ w) = trimEnd s.
Proof.
  intros H. unfold trimEnd. rewrite rev_app_distr.
  now rewrite trimStart_blank by now apply blank_rev.
Qed.

Lemma trim_blank_left (w s : jsstring) : blank w -> trim (w ++ s) = trim s.
Proof. intros H. unfold trim. now rewrite trimStart_blank. Qed.

Lemma trim_blank_right (s w : jsstring) : blank w -> trim (s ++ w) = trim s.
Proof.
  intros H. unfold trim. induction s as [|c t IH].
  - simpl. rewrite <- (app_nil_r w) at 1.
    now rewrite trimStart_blank.
  - simpl. destruct (isWhiteSpace c); [exact IH|].
    change (c :: t ++ w) with ((c :: t) ++ w). now apply trimEnd_blank.
Qed.

Lemma trim_blank (w : jsstring) : blank w -> trim w = [].
Proof.
  intros H. rewrite <- (app_nil_r w). now rewrite trim_blank_left.
Qed.

Lemma cleanField_blank_left (w f : jsstring) :
  blank w -> cleanField (w ++ f) = cleanField f.
Proof. intros H. unfold cleanField. now rewrite trim_blank_left. Qed.

Lemma cleanField_blank_right (f w : jsstring) :
  blank w -> cleanField (f ++ w) = cleanField f.
Proof. intros H. unfold cleanField. now rewrite trim_blank_right. Qed.

Lemma scanQuotes_plain (w : jsstring) (q : bool) :
  ~ In QUOTE w -> ~ In COMMA w -> scanQuotes q w = Some q.
Proof.
  induction w as [|c w IH]; intros Hq Hc; [reflexivity|].
  simpl. destruct (N.eqb c QUOTE) eqn:Eq.
  - apply N.eqb_eq in Eq. exfalso. apply Hq. now left.
  - destruct (N.eqb c COMMA) eqn:Ec.
    + apply N.eqb_eq in Ec. exfalso. apply Hc. now left.
    + simpl. apply IH; intros Hin; [apply Hq|apply Hc]; now right.
Qed.

Lemma scanQuotes_blank (w : jsstring) (q : bool) : blank w -> scanQuotes q w = Some q.
Proof.
  intros H. apply scanQuotes_plain; now apply blank_no_mark.
Qed.

(** What stands before the scanner's first piece is added to it. *)
Lemma rawFields_cur (s : jsstring) :
  forall q a cur,
    rawFields q (a ++ cur) s
    = match rawFields q cur s with
      | f :: fs => (a ++ f) :: fs
      | [] => []
      end.
Proof.
  induction s as [|c t IH]; intros q a cur; cbn [rawFields]; [reflexivity|].
  destruct (N.eqb c QUOTE).
  - rewrite <- app_assoc. apply IH.
  - destruct (N.eqb c COMMA && negb q)%bool; [reflexivity|].
    rewrite <- app_assoc. apply IH.
Qed.

(** What follows the line without a quote or a comma is added to the
    scanner's last piece. *)
Lemma rawFields_tail (s w : jsstring) :
  ~ In QUOTE w -> ~ In COMMA w ->
  forall q cur init l,
    rawFields q cur s = init ++ [l] ->
    rawFields q cur (s ++ w) = init ++ [l ++ w].
Proof.
  intros Hq Hc. induction s as [|c t IH]; intros q cur init l H.
  - cbn [rawFields] in H. destruct init as [|x init].
    + injection H as <-. simpl.
      rewrite <- (app_nil_r w) at 1.
      rewrite (@rawFields_piece w q q cur [] (@scanQuotes_plain w q Hq Hc)).
      reflexivity.
    + destruct init; discriminate H.
  - cbn [rawFields app] in *. destruct (N.eqb c QUOTE).
    + now apply IH.
    + destruct (N.eqb c COMMA && negb q)%bool; [|now apply IH].
      destruct init as [|x init].
      * exfalso. injection H as _ H. exact (rawFields_not_nil t q [] H).
      * injection H as <- H. simpl. f_equal. now apply IH.
Qed.

(** White space around a line does not reach its fields. *)
Lemma parseCSVLine_blank_ends (w1 line w2 : jsstring) :
  blank w1 -> blank w2 ->
  parseCSVLine (w1 ++ line ++ w2) = parseCSVLine line.
Proof.
  intros H1 H2. rewrite !parseCSVLine_rawFields.
  rewrite (@rawFields_piece w1 false false [] (line ++ w2) (@scanQuotes_blank w1 false H1)).
  destruct (exists_last (rawFields_not_nil line false [])) as (init & l & E).
  pose proof (rawFields_cur line false w1 []) as Hcur.
  rewrite app_nil_r in Hcur. rewrite E in Hcur. simpl app at 1.
  assert (Hq : ~ In QUOTE w2) by (now apply blank_no_mark).
  assert (Hc : ~ In COMMA w2) by (now apply blank_no_mark).
  destruct init as [|f init]; simpl in Hcur.
  - rewrite (@rawFields_tail line w2 Hq Hc false w1 [] (w1 ++ l) Hcur).
    rewrite E. simpl.
    now rewrite (@cleanField_blank_right (w1 ++ l) w2 H2), (@cleanField_blank_left w1 l H1).
  - rewrite (@rawFields_tail line w2 Hq Hc false w1 ((w1 ++ f) :: init) l Hcur).
    rewrite E. simpl. rewrite !map_app. simpl.
    now rewrite (@cleanField_blank_right l w2 H2), (@cleanField_blank_left w1 f H1).
Qed.

Lemma parseCSVLine_trim (line : jsstring) :
  parseCSVLine (trim line) = parseCSVLine line.
Proof.
  destruct (trim_split line) as (l & r & E & Hl & Hr).
  rewrite E at 2. symmetry. now apply parseCSVLine_blank_ends.
Qed.

(** X3: white space before and after a line, such as the carriage return
    of a line that ends in CR LF, changes none of its fields. *)
Theorem X3_line_ends_do_not_matter (w1 line w2 : jsstring) :
  blank w1 -> blank w2 ->
  parseCSVLine (w1 ++ line ++ w2) = parseCSVLine line
  /\ parseCSVLine (trim line) = parseCSVLine line.
Proof.
  intros H1 H2. split; [now apply parseCSVLine_blank_ends|apply parseCSVLine_trim].
Qed.

Lemma X3_line_ends_do_not_matter_witness :
  parseCSVLine (js "  " ++ lit "a, 'b,c' ,d" ++ [13%N])
  = [js "a"; js "b,c"; js "d"].
Proof.
  etransitivity.
  - apply (proj1 (@X3_line_ends_do_not_matter (js "  ") (lit "a, 'b,c' ,d") [13%N]
                    eq_refl eq_refl)).
  - vm_compute. reflexivity.
Defined.

(** ** Lines without quotes *)

Lemma rawFields_split (s : jsstring) :
  ~ In QUOTE s ->
  forall cur,
    rawFields false cur s
    = match split COMMA s with
      | seg :: rest => (cur ++ seg) :: rest
      | [] => []
      end.
Proof.
  induction s as [|c t IH]; intros Hq cur; cbn [rawFields split].
  - now rewrite app_nil_r.
  - assert (Ht : ~ In QUOTE t) by (intros Hin; apply Hq; now right).
    destruct (N.eqb c QUOTE) eqn:Eq.
    + apply N.eqb_eq in Eq. exfalso. apply Hq. now left.
    + destruct (N.eqb c COMMA) eqn:Ec; cbn [andb negb].
      * rewrite app_nil_r, (IH Ht []). 
        pose proof (split_not_nil COMMA t) as Hne.
        destruct (split COMMA t); [contradiction|reflexivity].
      * rewrite (IH Ht (cur ++ [c])).
        pose proof (split_not_nil COMMA t) as Hne.
        destruct (split COMMA t); [contradiction|].
        now rewrite <- app_assoc.
Qed.

Lemma split_pieces (sep : N) (s : jsstring) :
  forall f c, In f (split sep s) -> In c f -> In c s.
Proof.
  induction s as [|x t IH]; intros f c Hf Hc; simpl in Hf.
  - destruct Hf as [<-|[]]. contradiction.
  - destruct (N.eqb x sep).
    + destruct Hf as [<-|Hf]; [contradiction|]. right. exact (IH _ _ Hf Hc).
    + pose proof (split_not_nil sep t) as Hne.
      destruct (split sep t) as [|seg rest] eqn:E; [contradiction|].
      destruct Hf as [<-|Hf].
      * destruct Hc as [<-|Hc]; [now left|].
        right. apply (IH seg c); [now left|exact Hc].
      * right. apply (IH f c); [now right|exact Hc].
Qed.

Lemma split_length (sep : N) (s : jsstring) :
  length (split sep s) = S (count_occ N.eq_dec s sep).
Proof.
  induction s as [|x t IH]; [reflexivity|].
  simpl. destruct (N.eqb x sep) eqn:E.
  - apply N.eqb_eq in E. subst x.
    destruct (N.eq_dec sep sep); [|contradiction]. simpl. now rewrite IH.
  - apply N.eqb_neq in E.
    destruct (N.eq_dec x sep); [contradiction|].
    pose proof (split_not_nil sep t) as Hne.
    destruct (split sep t); [contradiction|exact IH].
Qed.

Lemma dropLeadingQuote_plain (s : jsstring) :
  ~ In QUOTE s -> dropLeadingQuote s = s.
Proof.
  destruct s as [|c t]; intros H; [reflexivity|].
  simpl. destruct (N.eqb c QUOTE) eqn:E; [|reflexivity].
  apply N.eqb_eq in E. exfalso. apply H. now left.
Qed.

Lemma replaceQuoteAnchors_plain (s : jsstring) :
  ~ In QUOTE s -> replaceQuoteAnchors s = s.
Proof.
  intros H. unfold replaceQuoteAnchors, dropTrailingQuote.
  rewrite (@dropLeadingQuote_plain s H), dropLeadingQuote_plain.
  - apply rev_involutive.
  - intros Hin. apply H. now apply in_rev.
Qed.

Lemma cleanField_plain (f : jsstring) : ~ In QUOTE f -> cleanField f = trim f.
Proof.
  intros H. unfold cleanField. apply replaceQuoteAnchors_plain.
  destruct (trim_split f) as (l & r & E & _). intros Hin. apply H.
  rewrite E. apply in_or_app. right. apply in_or_app. now left.
Qed.

(** X4: a line without a quote is cut like [line.split(',')] with each
    piece trimmed; it has one field more than it has commas. *)
Theorem X4_line_without_quotes (line : jsstring) :
  ~ In QUOTE line ->
  parseCSVLine line = List.map trim (split COMMA line)
  /\ length (parseCSVLine line) = S (count_occ N.eq_dec line COMMA).
Proof.
  intros Hq.
  assert (E : parseCSVLine line = List.map trim (split COMMA line)).
  { rewrite parseCSVLine_rawFields, (@rawFields_split line Hq []).
    pose proof (split_not_nil COMMA line) as Hne.
    pose proof (@split_pieces COMMA line) as Hin.
    destruct (split COMMA line) as [|seg rest]; [contradiction|].
    change (([] ++ seg) :: rest) with (seg :: rest).
    apply map_ext_in. intros f Hf. apply cleanField_plain.
    intros Hc. apply Hq. exact (Hin f QUOTE Hf Hc). }
  split; [exact E|].
  now rewrite E, length_map, split_length.
Qed.

Lemma X4_line_without_quotes_witness :
  parseCSVLine (js " a ,,b c, ") = [js "a"; []; js "b c"; []].
Proof.
  assert (H : ~ In QUOTE (js " a ,,b c, ")) by (vm_compute; intuition discriminate).
  etransitivity; [exact (proj1 (@X4_line_without_quotes _ H))|].
  vm_compute. reflexivity.
Defined.

(** ** Texts that differ in white space *)

Lemma filter_map_comm (A B : Type) (f : A -> B) (p : B -> bool) (l : list A) :
  filter p (List.map f l) = List.map f (filter (fun x => p (f x)) l).
Proof.
  induction l as [|x t IH]; [reflexivity|].
  simpl. destruct (p (f x)); simpl; now rewrite IH.
Qed.

Lemma trimmedLines_nonBlank (text : jsstring) :
  trimmedLines text = List.map trim (nonBlankLines text).
Proof. unfold trimmedLines, nonBlankLines. apply filter_map_comm. Qed.

Lemma parseCSVLine_trimmedLines (text : jsstring) :
  List.map parseCSVLine (trimmedLines text)
  = List.map parseCSVLine (nonBlankLines text).
Proof.
  rewrite trimmedLines_nonBlank, map_map.
  apply map_ext. intros line. apply parseCSVLine_trim.
Qed.

(** The outcome of a text that is not empty, by the fields of its
    non-blank lines. *)
Lemma parseCSVFile_fields (c : N) (s : jsstring) :
  parseCSVFile (Loaded (c :: s))
  = match List.map parseCSVLine (nonBlankLines (c :: s)) with
    | [] => inl MSG_CSV_EMPTY
    | headers :: lines => inr (List.map (rowOfValues headers) lines)
    end.
Proof.
  destruct (nonBlankLines (c :: s)) as [|h d] eqn:E.
  - unfold parseCSVFile. cbn [falsy]. now rewrite E.
  - rewrite (parseCSVFile_lines _ E). simpl. now rewrite map_map.
Qed.

(** X5: the rows of a text depend only on its non-blank lines, trimmed:
    line ends in CR LF, indentation, trailing blanks and blank lines
    change nothing. *)
Theorem X5_rows_depend_on_trimmed_lines (text1 text2 : jsstring) :
  text1 <> [] -> text2 <> [] ->
  trimmedLines text1 = trimmedLines text2 ->
  parseCSVFile (Loaded text1) = parseCSVFile (Loaded text2).
Proof.
  intros H1 H2 H.
  destruct text1 as [|c1 s1]; [contradiction|].
  destruct text2 as [|c2 s2]; [contradiction|].
  rewrite !parseCSVFile_fields, <- !parseCSVLine_trimmedLines, H.
  reflexivity.
Qed.

Lemma X5_rows_depend_on_trimmed_lines_witness :
  let CR := 13%N in
  let windows := js "id,v" ++ [CR; LF; CR; LF] ++ js "  1, 2.5  " ++ [CR; LF] in
  parseCSVFile (Loaded windows) = parseCSVFile (Loaded (lit "id,v|1, 2.5")).
Proof.
  intros CR windows.
  apply X5_rows_depend_on_trimmed_lines;
    [discriminate|discriminate|vm_compute; reflexivity].
Defined.

(** ** Blank fields *)

Lemma parseCSVLine_single (f : jsstring) (q : bool) :
  scanQuotes false f = Some q -> parseCSVLine f = [cleanField f].
Proof.
  intros H. rewrite parseCSVLine_rawFields.
  rewrite <- (app_nil_r f) at 1.
  now rewrite (@rawFields_piece f false q [] [] H).
Qed.

(** X6: a quoted field of white space only is read as the number 0,
    where the same field without its quotes is read as the empty string
    and the clean-up of a spreadsheet cell leaves such a string alone. *)
Theorem X6_quoted_blank_field_is_zero (ws : jsstring) :
  ws <> [] -> blank ws ->
  parseCSVLine (QUOTE :: ws ++ [QUOTE]) = [ws]
  /\ coerceField ws = VNum posZero
  /\ parseCSVLine ws = [[]]
  /\ coerceField [] = VStr []
  /\ normalize (VStr ws) = VStr ws.
Proof.
  intros Hne Hb.
  assert (Ht : trim ws = []) by now apply trim_blank.
  split; [|split; [|split; [|split]]].
  - rewrite (@parseCSVLine_single (QUOTE :: ws ++ [QUOTE]) false).
    + now rewrite cleanField_quoted.
    + simpl. apply scanQuotes_no_quote. now apply blank_no_mark.
  - unfold coerceField, strIsNaN, StringToNumber, parseNumeric.
    rewrite Ht. destruct ws; [contradiction|reflexivity].
  - rewrite <- (app_nil_r ws).
    change (ws ++ []) with (ws ++ [] ++ []).
    now rewrite parseCSVLine_blank_ends.
  - reflexivity.
  - rewrite normalize_string, Ht. simpl. now rewrite andb_false_r.
Qed.

Lemma X6_quoted_blank_field_is_zero_witness :
  parseCSVFile (Loaded (lit "name,score|Ann,' '|Bob, |"))
  = inr [ [(js "name", VStr (js "Ann")); (js "score", VNum posZero)];
          [(js "name", VStr (js "Bob")); (js "score", VStr [])] ]
  /\ coerceField (js " ") = VNum posZero.
Proof.
  split; [vm_compute; reflexivity|].
  apply (@X6_quoted_blank_field_is_zero (js " ")); [discriminate|reflexivity].
Defined.

(** ** The state after an upload *)

Lemma prefixed_not_empty (m : jsstring) : MSG_PREFIX ++ m <> [].
Proof. discriminate. Qed.

Lemma userMessage_not_empty (o : Outcome) : userMessage o <> [].
Proof. destruct o; [apply prefixed_not_empty|discriminate]. Qed.

(** The state the handler leaves, by the outcome of the ingestion. *)
Lemma handler_outcome (xlsxRows : jsstring -> Outcome) (st : AppState) (f : File) :
  run st (handleFileUpload xlsxRows (Some f))
  = match snd (readAndParse xlsxRows f) with
    | inr (row0 :: rest) =>
        mkState (row0 :: rest) (Object_keys row0) (xAxis st) (yAxis st)
                (chartType st) (name f) false []
    | o =>
        mkState [] [] (xAxis st) (yAxis st) (chartType st) (name f) false
                (userMessage o)
    end.
Proof.
  rewrite handleFileUpload_shape, !run_app, run_reads.
  destruct (snd (readAndParse xlsxRows f)) as [m|[|row0 rest]]; reflexivity.
Qed.

Lemma axisEffect_keeps (st : AppState) :
  data (axisEffect st) = data st /\ columns (axisEffect st) = columns st
  /\ chartType (axisEffect st) = chartType st
  /\ fileName (axisEffect st) = fileName st
  /\ loading (axisEffect st) = loading st /\ error (axisEffect st) = error st.
Proof. unfold axisEffect. destruct (columns st) eqn:E; repeat split; now rewrite ?E. Qed.

(** X7: whatever the file, an upload ends with the loading flag off, the
    name of the file shown and the chart type as it was, and with rows or
    an error message, never both and never neither: either the ingestion
    returned rows, which are now the dataset with the keys of the first
    row as columns and no error, or the dataset and the columns are empty,
    an error is shown and the axes are as they were. *)
Theorem X7_upload_rows_or_error
    (xlsxRows : jsstring -> Outcome) (st : AppState) (f : File) :
  loading (upload xlsxRows st (Some f)) = false
  /\ fileName (upload xlsxRows st (Some f)) = name f
  /\ chartType (upload xlsxRows st (Some f)) = chartType st
  /\ ((exists row0 rest,
         snd (readAndParse xlsxRows f) = inr (row0 :: rest)
         /\ data (upload xlsxRows st (Some f)) = row0 :: rest
         /\ columns (upload xlsxRows st (Some f)) = Object_keys row0
         /\ error (upload xlsxRows st (Some f)) = [])
      \/ (data (upload xlsxRows st (Some f)) = []
          /\ columns (upload xlsxRows st (Some f)) = []
          /\ error (upload xlsxRows st (Some f)) <> []
          /\ xAxis (upload xlsxRows st (Some f)) = xAxis st
          /\ yAxis (upload xlsxRows st (Some f)) = yAxis st)).
Proof.
  unfold upload.
  destruct (axisEffect_keeps (run st (handleFileUpload xlsxRows (Some f))))
    as (Hd & Hc & Ht & Hn & Hl & He).
  rewrite Hd, Hc, Ht, Hn, Hl, He.
  pose proof (handler_outcome xlsxRows st f) as Hrun.
  destruct (snd (readAndParse xlsxRows f)) as [m|[|row0 rest]] eqn:Eo;
    rewrite Hrun; cbn [loading fileName chartType data columns error];
    (split; [reflexivity|]); (split; [reflexivity|]); (split; [reflexivity|]).
  - right. repeat split. apply prefixed_not_empty.
  - right. repeat split. discriminate.
  - left. exists row0, rest. repeat split.
Qed.

(** ** The default axes of a CSV dataset *)

Lemma readAndParse_csv (xlsxRows : jsstring -> Outcome) (f : File) :
  fileExtension (name f) = js "csv" ->
  readAndParse xlsxRows f = ([ReadAsText], parseCSVFile (asText f)).
Proof. intros H. unfold readAndParse. now rewrite H. Qed.

(** A default Y axis that is not empty is a column that holds a number
    in the first row. *)
Lemma specDefaultY_numeric (cols : list jsstring) (row0 : Obj) :
  specDefaultY cols row0 <> [] ->
  In (specDefaultY cols row0) cols
  /\ typeofIsNumber (get row0 (specDefaultY cols row0)) = true.
Proof.
  unfold specDefaultY.
  destruct (find _ (filter _ cols)) as [c|] eqn:F.
  - intros _. apply find_some in F as [F _]. now apply filter_In in F.
  - destruct (filter (fun c => typeofIsNumber (get row0 c)) cols) as [|c t] eqn:E.
    + intros H. contradiction.
    + intros _. apply (filter_In (fun c => typeofIsNumber (get row0 c))).
      rewrite E. now left.
Qed.

Lemma numericValues_map (d : list Obj) (y : jsstring) :
  numericValues d y = List.map (yValue y) (keptRows d y).
Proof.
  unfold numericValues, keptRows, yValue.
  induction d as [|r t IH]; [reflexivity|].
  cbn [List.map flat_map filter].
  destruct (get r y) as [| |b|n|s|c] eqn:E; try exact IH.
  destruct (isNumeric (VNum n)); cbn [app List.map]; rewrite ?E; simpl;
    now rewrite IH.
Qed.

Lemma yAxisStats_some (d : list Obj) (y : jsstring) :
  y <> [] -> numericValues d y <> [] ->
  yAxisStats d y
  = Some (mkStats (Math_min (numericValues d y)) (Math_max (numericValues d y))
            (numDiv (fold_left numAdd (numericValues d y) posZero)
                    (ofZ (Z.of_nat (length (numericValues d y)))))
            (length (numericValues d y))).
Proof.
  intros Hy Hnv. unfold yAxisStats. destruct y; [contradiction|].
  destruct d as [|r t]; [contradiction Hnv; reflexivity|].
  destruct (numericValues (r :: t) (n :: y)); [contradiction|reflexivity].
Qed.

Lemma projection_not_empty (d : list Obj) (x y : jsstring) (r : Obj) :
  x <> [] -> y <> [] -> In r d -> isNumeric (get r y) = true ->
  processedData d x y <> [] /\ numericValues d y <> [].
Proof.
  intros Hx Hy Hr Hnum.
  assert (Hk : In r (keptRows d y)) by (apply filter_In; now split).
  split.
  - rewrite (processedData_selected d Hx Hy). intros E.
    apply (f_equal (@length Obj)) in E.
    rewrite length_firstn, Array_sort_length in E.
    destruct (keptRows d y); [contradiction|discriminate E].
  - intros E. apply (f_equal (@length Number)) in E.
    rewrite numericValues_length in E.
    destruct (keptRows d y); [contradiction|discriminate E].
Qed.

(** X8: after a CSV file has been uploaded and its columns are on
    screen, whenever the default axes are both non-empty there is a chart
    to draw and there are statistics to show: the first row holds a number
    other than NaN under the default Y axis. *)
Theorem X8_csv_default_axes_give_a_chart
    (xlsxRows : jsstring -> Outcome) (st : AppState) (f : File) :
  fileExtension (name f) = js "csv" ->
  columns (upload xlsxRows st (Some f)) <> [] ->
  xAxis (upload xlsxRows st (Some f)) <> [] ->
  yAxis (upload xlsxRows st (Some f)) <> [] ->
  isNumeric (get (hd [] (data (upload xlsxRows st (Some f))))
                 (yAxis (upload xlsxRows st (Some f)))) = true
  /\ processedData (data (upload xlsxRows st (Some f)))
                   (xAxis (upload xlsxRows st (Some f)))
                   (yAxis (upload xlsxRows st (Some f))) <> []
  /\ yAxisStats (data (upload xlsxRows st (Some f)))
                (yAxis (upload xlsxRows st (Some f))) <> None.
Proof.
  intros Hext. unfold upload.
  rewrite handler_outcome, (readAndParse_csv xlsxRows f Hext).
  cbn [snd].
  destruct (parseCSVFile (asText f)) as [m|[|row0 rest]] eqn:Hparse;
    try (intros Hc; contradiction Hc; reflexivity).
  unfold axisEffect. cbn [columns data].
  destruct (Object_keys row0) as [|c0 cs] eqn:Hkeys;
    [intros Hc; contradiction Hc; reflexivity|].
  cbn [columns data xAxis yAxis hd]. rewrite preferredYAxis_spec.
  intros _ Hx Hy.
  destruct (specDefaultY_numeric (c0 :: cs) row0 Hy) as [Hin Hnum].
  set (y := specDefaultY (c0 :: cs) row0) in *.
  rewrite <- Hkeys in Hin.
  destruct (@csv_row_cells _ _ row0 y Hparse (or_introl eq_refl) Hin)
    as (v & _ & Hget & Hcell).
  assert (Hisnum : isNumeric (get row0 y) = true).
  { rewrite Hget in *. destruct v as [| |b|n|s|c]; try discriminate Hnum.
    simpl in *. destruct Hcell as [-> _]. reflexivity. }
  split; [exact Hisnum|].
  destruct (@projection_not_empty (row0 :: rest) c0 y row0 Hx Hy
              (or_introl eq_refl) Hisnum) as [Hp Hn].
  split; [exact Hp|].
  rewrite (yAxisStats_some _ Hy Hn). discriminate.
Qed.

Lemma X8_csv_default_axes_give_a_chart_witness :
  let f := mkFile (js "sales.CSV")
                  (Loaded (lit "Region,Sales|North,7|South,x|")) ReadError in
  yAxis (upload (fun _ => inr []) initialState (Some f)) = js "Sales"
  /\ processedData (data (upload (fun _ => inr []) initialState (Some f)))
                   (xAxis (upload (fun _ => inr []) initialState (Some f)))
                   (yAxis (upload (fun _ => inr []) initialState (Some f))) <> [].
Proof.
  intros f. split; [vm_compute; reflexivity|].
  apply (@X8_csv_default_axes_give_a_chart (fun _ => inr []) initialState f);
    vm_compute; [reflexivity|discriminate..].
Defined.

(** ** The projection and the dataset *)

Lemma processedData_cases (d : list Obj) (x y : jsstring) :
  processedData d x y = []
  \/ processedData d x y
     = firstn MAX_DISPLAY_DATA (Array_sort (byYDescending y) (keptRows d y)).
Proof.
  unfold processedData.
  destruct (Nat.eqb (length d) 0 || falsy x || falsy y)%bool; [now left|now right].
Qed.

(** X9: the projection is made of rows of the dataset, each as often at
    most as the dataset holds it and each with a number other than NaN
    under the Y axis; it never has more than 100 rows nor more rows than
    the dataset. *)
Theorem X9_projection_is_part_of_the_dataset (d : list Obj) (x y : jsstring) :
  (exists rest, Permutation (processedData d x y ++ rest) (keptRows d y))
  /\ (forall r, In r (processedData d x y) ->
        In r d /\ isNumeric (get r y) = true)
  /\ length (processedData d x y) <= MAX_DISPLAY_DATA
  /\ length (processedData d x y) <= length d.
Proof.
  assert (Hperm : exists rest,
             Permutation (processedData d x y ++ rest) (keptRows d y)).
  { destruct (processedData_cases d x y) as [-> | ->].
    - exists (keptRows d y). reflexivity.
    - exists (skipn MAX_DISPLAY_DATA (Array_sort (byYDescending y) (keptRows d y))).
      rewrite firstn_skipn. apply Array_sort_perm. }
  split; [exact Hperm|].
  destruct Hperm as (rest & Hperm).
  assert (Hlen : length (processedData d x y) <= length (keptRows d y)).
  { rewrite <- (Permutation_length Hperm), length_app. lia. }
  split; [|split].
  - intros r Hr.
    assert (Hk : In r (keptRows d y)).
    { apply (Permutation_in _ Hperm). apply in_or_app. now left. }
    now apply filter_In in Hk.
  - destruct (processedData_cases d x y) as [-> | ->]; [simpl; lia|].
    rewrite length_firstn. lia.
  - etransitivity; [exact Hlen|]. apply filter_length_le.
Qed.

(** X10: when an X axis is selected, the number of rows the chart shows
    is the smaller of 100 and the count of the statistics panel, taken as
    0 when there is no panel; so the chart is empty exactly when the panel
    is missing. *)
Theorem X10_rows_shown_and_count (d : list Obj) (x y : jsstring) :
  x <> [] ->
  length (processedData d x y)
  = Nat.min MAX_DISPLAY_DATA
      (match yAxisStats d y with Some s => stCount s | None => 0 end)
  /\ (processedData d x y = [] <-> yAxisStats d y = None).
Proof.
  intros Hx. destruct y as [|c y].
  - unfold processedData, yAxisStats. cbn [falsy orb]. rewrite orb_true_r.
    split; [reflexivity|]. split; reflexivity.
  - assert (Hy : c :: y <> []) by discriminate.
    assert (Hlen : length (processedData d x (c :: y))
                   = Nat.min MAX_DISPLAY_DATA (length (numericValues d (c :: y)))).
    { rewrite (processedData_selected d Hx Hy).
      now rewrite length_firstn, Array_sort_length, numericValues_length. }
    destruct (numericValues d (c :: y)) as [|v vs] eqn:Env.
    + rewrite (yAxisStats_none _ _ Env). split; [exact Hlen|].
      split; [reflexivity|]. intros _.
      apply length_zero_iff_nil. rewrite Hlen. apply Nat.min_0_r.
    + assert (Hne : numericValues d (c :: y) <> []) by (rewrite Env; discriminate).
      rewrite (@yAxisStats_some d (c :: y) Hy Hne). cbn [stCount]. rewrite Env.
      split; [exact Hlen|]. split; [|discriminate].
      intros E. rewrite E in Hlen. discriminate Hlen.
Qed.

Lemma X10_rows_shown_and_count_witness :
  let d := [ [(js "k", VStr (js "a")); (js "v", VNum (ofZ 3))];
             [(js "k", VStr (js "b")); (js "v", VStr (js "n/a"))];
             [(js "k", VStr (js "c")); (js "v", VNum (ofZ 5))] ] in
  length (processedData d (js "k") (js "v")) = 2
  /\ (processedData d (js "k") (js "k") = [] <-> yAxisStats d (js "k") = None).
Proof.
  intros d.
  assert (Hx : js "k" <> []) by discriminate.
  split.
  - rewrite (proj1 (@X10_rows_shown_and_count d (js "k") (js "v") Hx)).
    vm_compute. reflexivity.
  - exact (proj2 (@X10_rows_shown_and_count d (js "k") (js "k") Hx)).
Defined.

(** ** The ends of the projection and the statistics *)

Lemma numLe_antisym (a b : Number) :
  numLe a b = true -> numLe b a = true -> numEq a b = true.
Proof.
  intros Hab Hba. destruct (numLe_not_nan _ _ Hab) as [Ha Hb].
  apply numLe_key in Hab; [|assumption..]. apply numLe_key in Hba; [|assumption..].
  apply numEq_key; [assumption..|].
  rewrite (cmp3_antisym (ordKey a) (ordKey b)) in Hba.
  destruct (cmp3 (ordKey a) (ordKey b)); simpl in *; congruence.
Qed.

Lemma StronglySorted_last (A : Type) (R : A -> A -> Prop) (l : list A) (d0 : A) :
  StronglySorted R l ->
  forall z pre, In z l -> l = pre ++ [last l d0] ->
    z = last l d0 \/ R z (last l d0).
Proof.
  intros Hs. induction Hs as [|x t Hs IH Hx]; intros z pre Hz E; [contradiction|].
  destruct t as [|x' t'].
  - destruct Hz as [<-|[]]. now left.
  - change (last (x :: x' :: t') d0) with (last (x' :: t') d0) in *.
    destruct Hz as [<-|Hz].
    + right. rewrite Forall_forall in Hx. apply Hx.
      destruct (@exists_last _ (x' :: t') ltac:(discriminate)) as (p & a & Ea).
      rewrite Ea, last_last. apply in_or_app. right. now left.
    + destruct (@exists_last _ (x' :: t') ltac:(discriminate)) as (p & a & Ea).
      apply (IH z p Hz). rewrite Ea at 1. now rewrite Ea, last_last.
Qed.

Lemma last_decomposition (A : Type) (l : list A) (d0 : A) :
  l <> [] -> exists pre, l = pre ++ [last l d0].
Proof.
  intros H. destruct (exists_last H) as (p & a & ->).
  exists p. now rewrite last_last.
Qed.

(** X11: on a dataset of binary64 numbers with both axes selected, the
    first row of the projection holds the maximum the statistics panel
    shows, no row of the dataset holds a larger number, and when no row was
    cut off the last row of the projection holds the minimum. *)
Theorem X11_projection_ends_are_the_extremes
    (d : list Obj) (x y : jsstring) (top : Obj) (rest : list Obj) :
  x <> [] -> y <> [] ->
  (forall r, In r d -> validNumber (get r y) = true) ->
  processedData d x y = top :: rest ->
  exists s,
    yAxisStats d y = Some s
    /\ numEq (yValue y top) (stMax s) = true
    /\ (forall r, In r d -> isNumeric (get r y) = true ->
          numLe (yValue y r) (yValue y top) = true)
    /\ (length (keptRows d y) <= MAX_DISPLAY_DATA ->
        numEq (yValue y (last rest top)) (stMin s) = true).
Proof.
  intros Hx Hy Hvalid Hpd.
  pose proof (keptRows_sortsDescending d y Hvalid) as Hdesc.
  pose proof (Array_sort_sorted Hdesc) as Hsorted.
  pose proof (Array_sort_perm (byYDescending y) (keptRows d y)) as Hperm.
  rewrite (processedData_selected d Hx Hy) in Hpd.
  set (sorted := Array_sort (byYDescending y) (keptRows d y)) in *.
  assert (Hnan : forall r, In r (keptRows d y) -> numIsNaN (yValue y r) = false)
    by (exact (proj1 Hdesc)).
  assert (Hhead : exists more, sorted = top :: more).
  { destruct sorted as [|a more]; [discriminate Hpd|].
    unfold MAX_DISPLAY_DATA in Hpd. simpl in Hpd. injection Hpd as -> _.
    now exists more. }
  destruct Hhead as (more & Esorted).
  assert (Htop : In top (keptRows d y)).
  { apply (Permutation_in _ Hperm). rewrite Esorted. now left. }
  assert (Hall : forall r, In r (keptRows d y) ->
                   numLe (yValue y r) (yValue y top) = true).
  { intros r Hr. apply (Permutation_in _ (Permutation_sym Hperm)) in Hr.
    rewrite Esorted in Hr, Hsorted. destruct Hr as [<-|Hr].
    - apply numLe_refl. now apply Hnan.
    - apply StronglySorted_inv in Hsorted as [_ Hf].
      rewrite Forall_forall in Hf. exact (Hf r Hr). }
  assert (Hnv : numericValues d y <> []).
  { rewrite numericValues_map. destruct (keptRows d y); [contradiction|discriminate]. }
  pose proof (numericValues_noNaN d y) as Hnn.
  destruct (Math_max_spec Hnv Hnn) as [Hmax_in Hmax].
  destruct (Math_min_spec Hnv Hnn) as [Hmin_in Hmin].
  eexists. split; [exact (@yAxisStats_some d y Hy Hnv)|]. cbn [stMax stMin].
  split; [|split].
  - apply numLe_antisym.
    + apply Hmax. rewrite numericValues_map. now apply in_map.
    + assert (Hm : In (Math_max (numericValues d y))
                      (List.map (yValue y) (keptRows d y)))
        by (rewrite <- numericValues_map; exact Hmax_in).
      apply in_map_iff in Hm as (r & Er & Hr). rewrite <- Er. now apply Hall.
  - intros r Hr Hnum. apply Hall. apply filter_In. now split.
  - intros Hfew.
    assert (Epd : top :: rest = sorted).
    { rewrite <- Hpd. apply firstn_all2.
      unfold sorted. now rewrite Array_sort_length. }
    assert (Elast : last rest top = last sorted top).
    { rewrite <- Epd. destruct rest; reflexivity. }
    rewrite Elast.
    assert (Hne : sorted <> []) by (rewrite Esorted; discriminate).
    destruct (last_decomposition top Hne) as (pre & Epre).
    assert (Hlast_in : In (last sorted top) (keptRows d y)).
    { apply (Permutation_in _ Hperm). rewrite Epre at 2.
      apply in_or_app. right. now left. }
    assert (Hlow : forall r, In r (keptRows d y) ->
                     numLe (yValue y (last sorted top)) (yValue y r) = true).
    { intros r Hr. apply (Permutation_in _ (Permutation_sym Hperm)) in Hr.
      destruct (StronglySorted_last top Hsorted r pre Hr Epre) as [->|H].
      - apply numLe_refl. now apply Hnan.
      - exact H. }
    apply numLe_antisym.
    + assert (Hm : In (Math_min (numericValues d y))
                      (List.map (yValue y) (keptRows d y)))
        by (rewrite <- numericValues_map; exact Hmin_in).
      apply in_map_iff in Hm as (r & Er & Hr). rewrite <- Er. now apply Hlow.
    + apply Hmin. rewrite numericValues_map. now apply in_map.
Qed.

Lemma X11_projection_ends_are_the_extremes_witness :
  let row (n : string) (a : Z) : Obj :=
    [(js "Name", VStr (js n)); (js "Amount", VNum (ofZ a))] in
  let d := [row "A"%string 10%Z; row "B"%string 30%Z;
            [(js "Name", VStr (js "X"))]; row "C"%string 20%Z] in
  exists s,
    yAxisStats d (js "Amount") = Some s
    /\ numEq (ofZ 30) (stMax s) = true /\ numEq (ofZ 10) (stMin s) = true.
Proof.
  intros row d.
  assert (Hx : js "Name" <> []) by discriminate.
  assert (Hy : js "Amount" <> []) by discriminate.
  assert (Hv : forall r, In r d -> validNumber (get r (js "Amount")) = true).
  { intros r Hr. repeat (destruct Hr as [<-|Hr]; [vm_compute; reflexivity|]).
    contradiction. }
  assert (Hpd : processedData d (js "Name") (js "Amount")
                = row "B"%string 30%Z :: [row "C"%string 20%Z; row "A"%string 10%Z])
    by (vm_compute; reflexivity).
  destruct (@X11_projection_ends_are_the_extremes d _ _ _ _ Hx Hy Hv Hpd)
    as (s & Hs & Hmax & _ & Hmin).
  exists s. split; [exact Hs|]. split; [exact Hmax|].
  apply Hmin. vm_compute. repeat constructor.
Defined.

(** ** The chart *)

Lemma processedData_axes (d : list Obj) (x y : jsstring) :
  processedData d x y <> [] -> d <> [] /\ x <> [] /\ y <> [].
Proof.
  unfold processedData. destruct d as [|r t]; [intros H; contradiction|].
  destruct x; [intros H; contradiction|].
  destruct y; [intros H; contradiction|].
  intros _. repeat split; discriminate.
Qed.

(** Past its guard, [renderChart] looks at the chart type alone. *)
Lemma renderChart_projection (st : AppState) :
  processedData (data st) (xAxis st) (yAxis st) <> [] ->
  renderChart st
  = if str_eqb (chartType st) (js "Bar")
    then BarChart (processedData (data st) (xAxis st) (yAxis st)) (xAxis st) (yAxis st)
    else if str_eqb (chartType st) (js "Line")
    then LineChart (processedData (data st) (xAxis st) (yAxis st)) (xAxis st) (yAxis st)
    else if str_eqb (chartType st) (js "Pie")
    then PieChart (firstn 8 (processedData (data st) (xAxis st) (yAxis st)))
                  (yAxis st) (xAxis st)
                  (List.map cellFill
                     (seq 0 (length (firstn 8 (processedData (data st) (xAxis st)
                                                            (yAxis st))))))
    else NoChart.
Proof.
  intros H. destruct (processedData_axes _ _ _ H) as (_ & Hx & Hy).
  unfold renderChart.
  destruct (processedData (data st) (xAxis st) (yAxis st)) as [|r t];
    [contradiction|].
  destruct (xAxis st); [contradiction|]. destruct (yAxis st); [contradiction|].
  reflexivity.
Qed.

Lemma renderChart_placeholder (st : AppState) :
  processedData (data st) (xAxis st) (yAxis st) = [] ->
  renderChart st
  = Placeholder (if Nat.eqb (length (data st)) 0
                 then MSG_UPLOAD_A_FILE else MSG_SELECT_AXES).
Proof. intros H. unfold renderChart. now rewrite H. Qed.

Lemma cellFill_first (n : nat) :
  n <= 8 -> List.map cellFill (seq 0 n) = List.map Some (firstn n COLORS).
Proof.
  intros H.
  do 9 (destruct n as [|n]; [reflexivity|]).
  exfalso. lia.
Qed.

Lemma COLORS_NoDup : NoDup COLORS.
Proof.
  unfold COLORS. cbn [List.map].
  repeat (constructor; [cbn [In]; intros H;
                        repeat (destruct H as [H|H]; [discriminate H|]);
                        exact H|]).
  constructor.
Qed.

Lemma NoDup_firstn (A : Type) (n : nat) (l : list A) :
  NoDup l -> NoDup (firstn n l).
Proof.
  intros H. rewrite <- (firstn_skipn n l) in H.
  exact (NoDup_app_remove_r _ _ H).
Qed.

Lemma NoDup_map_Some (A : Type) (l : list A) :
  NoDup l -> NoDup (List.map Some l).
Proof.
  induction 1 as [|x l Hx Hl IH]; simpl; constructor; [|exact IH].
  intros Hin. apply in_map_iff in Hin as (y & E & Hy).
  injection E as ->. contradiction.
Qed.

(** X12: a pie is drawn from the first eight rows, at most, of the rows
    sorted for the projection, and each of its cells is filled with a
    colour of the palette of its own, in the order of the palette: none is
    left without colour and no two share one. *)
Theorem X12_pie_rows_and_colours (st : AppState) :
  chartType st = js "Pie" ->
  processedData (data st) (xAxis st) (yAxis st) <> [] ->
  exists pieData fills,
    renderChart st = PieChart pieData (yAxis st) (xAxis st) fills
    /\ pieData = firstn 8 (Array_sort (byYDescending (yAxis st))
                             (keptRows (data st) (yAxis st)))
    /\ length pieData = Nat.min 8 (length (keptRows (data st) (yAxis st)))
    /\ fills = List.map Some (firstn (length pieData) COLORS)
    /\ length fills = length pieData
    /\ NoDup fills.
Proof.
  intros Htype Hpd.
  destruct (processedData_axes _ _ _ Hpd) as (_ & Hx & Hy).
  rewrite (renderChart_projection st Hpd), Htype.
  change (str_eqb (js "Pie") (js "Bar")) with false.
  change (str_eqb (js "Pie") (js "Line")) with false.
  change (str_eqb (js "Pie") (js "Pie")) with true. cbv iota.
  rewrite (processedData_selected (data st) Hx Hy).
  set (sorted := Array_sort (byYDescending (yAxis st)) (keptRows (data st) (yAxis st))).
  assert (Epie : firstn 8 (firstn MAX_DISPLAY_DATA sorted) = firstn 8 sorted)
    by (rewrite firstn_firstn; reflexivity).
  rewrite Epie.
  assert (Hlen : length (firstn 8 sorted)
                 = Nat.min 8 (length (keptRows (data st) (yAxis st))))
    by (unfold sorted; now rewrite length_firstn, Array_sort_length).
  assert (Hle : length (firstn 8 sorted) <= 8) by (rewrite Hlen; apply Nat.le_min_l).
  exists (firstn 8 sorted), (List.map Some (firstn (length (firstn 8 sorted)) COLORS)).
  split; [now rewrite (cellFill_first Hle)|].
  split; [reflexivity|]. split; [exact Hlen|]. split; [reflexivity|]. split.
  - rewrite length_map, length_firstn. change (length COLORS) with 8. lia.
  - apply NoDup_map_Some, NoDup_firstn, COLORS_NoDup.
Qed.

Lemma X12_pie_rows_and_colours_witness :
  let d := List.map (fun n => [(js "k", VStr (js "r")); (js "v", VNum (ofZ n))])
                    [3; 1; 4; 1; 5; 9; 2; 6; 5; 3; 5]%Z in
  let st := mkState d [js "k"; js "v"] (js "k") (js "v") (js "Pie") [] false [] in
  exists pieData fills,
    renderChart st = PieChart pieData (js "v") (js "k") fills
    /\ List.map (fun r => get r (js "v")) pieData
       = List.map (fun n => VNum (ofZ n)) [9; 6; 5; 5; 5; 4; 3; 3]%Z
    /\ fills = List.map Some COLORS.
Proof.
  intros d st.
  assert (Ht : chartType st = js "Pie") by reflexivity.
  assert (Hp : processedData (data st) (xAxis st) (yAxis st) <> [])
    by (vm_compute; discriminate).
  destruct (X12_pie_rows_and_colours st Ht Hp)
    as (pieData & fills & Hr & Hpie & _ & Hfills & _).
  exists pieData, fills. split; [exact Hr|].
  rewrite Hfills, Hpie. split; vm_compute; reflexivity.
Defined.

(** X13: the chart area holds the placeholder exactly when the
    projection is empty, a chart of the projection for each of the three
    chart types and nothing for any other type; and on the page the
    placeholder never reads that a file is to be uploaded, since the chart
    area is rendered only when there are rows. *)
Theorem X13_chart_area
    (numberToString : Number -> jsstring) (objectToString : bool -> jsstring)
    (st : AppState) :
  (processedData (data st) (xAxis st) (yAxis st) = [] <->
   exists message, renderChart st = Placeholder message)
  /\ (processedData (data st) (xAxis st) (yAxis st) <> [] ->
      (chartType st = js "Bar" ->
       renderChart st = BarChart (processedData (data st) (xAxis st) (yAxis st))
                                 (xAxis st) (yAxis st))
      /\ (chartType st = js "Line" ->
          renderChart st = LineChart (processedData (data st) (xAxis st) (yAxis st))
                                     (xAxis st) (yAxis st))
      /\ (~ In (chartType st) chartTypes -> renderChart st = NoChart))
  /\ (forall dash, pageBody numberToString objectToString st = Some dash ->
        chart dash = renderChart st
        /\ chart dash <> Placeholder MSG_UPLOAD_A_FILE).
Proof.
  split; [|split].
  - split.
    + intros H. eexists. now apply renderChart_placeholder.
    + intros (message & H).
      destruct (processedData (data st) (xAxis st) (yAxis st)) as [|r t] eqn:E;
        [reflexivity|].
      assert (Hne : processedData (data st) (xAxis st) (yAxis st) <> [])
        by (rewrite E; discriminate).
      rewrite (renderChart_projection st Hne) in H.
      destruct (str_eqb (chartType st) (js "Bar")); [discriminate H|].
      destruct (str_eqb (chartType st) (js "Line")); [discriminate H|].
      destruct (str_eqb (chartType st) (js "Pie")); discriminate H.
  - intros Hne. rewrite (renderChart_projection st Hne). split; [|split].
    + intros ->. reflexivity.
    + intros ->. reflexivity.
    + intros Hother.
      destruct (str_eqb (chartType st) (js "Bar")) eqn:Eb;
        [apply str_eqb_eq in Eb; contradiction Hother; rewrite Eb; now left|].
      destruct (str_eqb (chartType st) (js "Line")) eqn:El;
        [apply str_eqb_eq in El; contradiction Hother; rewrite El; right; now left|].
      destruct (str_eqb (chartType st) (js "Pie")) eqn:Ep;
        [apply str_eqb_eq in Ep; contradiction Hother; rewrite Ep;
         right; right; now left|].
      reflexivity.
  - intros dash. unfold pageBody.
    destruct (data st) as [|r t] eqn:Ed; [discriminate|].
    cbn [length Nat.ltb Nat.leb]. intros H. injection H as <-. cbn [chart].
    split; [reflexivity|].
    unfold renderChart. rewrite Ed. cbn [length Nat.eqb].
    destruct (_ || _ || _)%bool; [discriminate|].
    destruct (str_eqb (chartType st) (js "Bar")); [discriminate|].
    destruct (str_eqb (chartType st) (js "Line")); [discriminate|].
    destruct (str_eqb (chartType st) (js "Pie")); discriminate.
Qed.

(** ** The data preview *)

Lemma substring_length (b : nat) (s : jsstring) :
  length (substring 0 b s) <= b.
Proof.
  unfold substring. rewrite length_firstn.
  cbn [Nat.min]. lia.
Qed.

Lemma previewCell_length
    (numberToString : Number -> jsstring) (objectToString : bool -> jsstring)
    (row : Obj) (col : jsstring) :
  length (previewCell numberToString objectToString row col) <= 20.
Proof.
  unfold previewCell.
  destruct (get row col); try apply substring_length.
  vm_compute. lia.
Qed.

(** X14: the preview shows five rows and three columns at most, a cell
    for each row and shown column, no cell longer than 20 code units, and
    the column of dots exactly when there are more than three columns. *)
Theorem X14_preview_is_bounded
    (numberToString : Number -> jsstring) (objectToString : bool -> jsstring)
    (st : AppState) :
  headCells (dataPreview numberToString objectToString st) = firstn 3 (columns st)
  /\ length (bodyRows (dataPreview numberToString objectToString st))
     = Nat.min 5 (length (data st))
  /\ (forall cells,
        In cells (bodyRows (dataPreview numberToString objectToString st)) ->
        length cells = Nat.min 3 (length (columns st))
        /\ forall c, In c cells -> length c <= 20)
  /\ (moreColumns (dataPreview numberToString objectToString st) = true
      <-> 3 < length (columns st))
  /\ (moreColumns (dataPreview numberToString objectToString st) = false ->
      headCells (dataPreview numberToString objectToString st) = columns st).
Proof.
  unfold dataPreview. cbn [headCells bodyRows moreColumns].
  split; [reflexivity|]. split; [now rewrite length_map, length_firstn|].
  split; [|split].
  - intros cells Hc. apply in_map_iff in Hc as (row & <- & _).
    split; [now rewrite length_map, length_firstn|].
    intros c Hc. apply in_map_iff in Hc as (col & <- & _).
    apply previewCell_length.
  - apply Nat.ltb_lt.
  - intros H. apply Nat.ltb_ge in H. now apply firstn_all2.
Qed.

Lemma substring_short (s : jsstring) (b : nat) :
  length s <= b -> substring 0 b s = s.
Proof.
  intros H. unfold substring.
  rewrite (Nat.min_r _ _ H). cbn [Nat.min Nat.max skipn].
  rewrite Nat.sub_0_r. apply firstn_all.
Qed.

(** The state an upload leaves, by the outcome of the ingestion. *)
Lemma upload_outcome (xlsxRows : jsstring -> Outcome) (st : AppState) (f : File) :
  upload xlsxRows st (Some f)
  = match snd (readAndParse xlsxRows f) with
    | inr (row0 :: rest) =>
        axisEffect (mkState (row0 :: rest) (Object_keys row0) (xAxis st) (yAxis st)
                            (chartType st) (name f) false [])
    | o =>
        mkState [] [] (xAxis st) (yAxis st) (chartType st) (name f) false
                (userMessage o)
    end.
Proof.
  unfold upload. rewrite handler_outcome.
  destruct (snd (readAndParse xlsxRows f)) as [m|[|row0 rest]]; reflexivity.
Qed.

(** X15: in the preview of a dataset read from a CSV file no cell is a
    gap: every row has a value under every column, and the cell shows the
    first 20 code units of that value, the whole of it when it is a string
    of 20 code units or fewer. *)
Theorem X15_csv_preview_has_no_gap
    (numberToString : Number -> jsstring) (objectToString : bool -> jsstring)
    (xlsxRows : jsstring -> Outcome) (st : AppState) (f : File)
    (row : Obj) (col : jsstring) :
  fileExtension (name f) = js "csv" ->
  In row (data (upload xlsxRows st (Some f))) ->
  In col (columns (upload xlsxRows st (Some f))) ->
  get row col <> VUndefined
  /\ (typeofIsNumber (get row col) || typeofIsString (get row col))%bool = true
  /\ previewCell numberToString objectToString row col
     = substring 0 20 (ToString numberToString objectToString (get row col))
  /\ (forall s, get row col = VStr s -> length s <= 20 ->
        previewCell numberToString objectToString row col = s).
Proof.
  intros Hext. rewrite upload_outcome, (readAndParse_csv xlsxRows f Hext).
  cbn [snd].
  destruct (parseCSVFile (asText f)) as [m|[|row0 rest]] eqn:Hparse;
    try (intros []).
  destruct (axisEffect_keeps
              (mkState (row0 :: rest) (Object_keys row0) (xAxis st) (yAxis st)
                       (chartType st) (name f) false [])) as (-> & -> & _).
  cbn [data columns]. intros Hrow Hcol.
  destruct (csv_rows_keys _ Hparse) as (keys & _ & Hkeys).
  rewrite (Hkeys row0 (or_introl eq_refl)), <- (Hkeys row Hrow) in Hcol.
  destruct (@csv_row_cells _ _ row col Hparse Hrow Hcol) as (v & _ & Hget & Hcell).
  unfold previewCell. rewrite Hget.
  destruct v as [| |b|n|s|c]; try contradiction Hcell;
    (split; [discriminate|]); (split; [reflexivity|]); (split; [reflexivity|]).
  - intros s Hs. discriminate Hs.
  - intros s' Hs Hlen. injection Hs as <-. now apply substring_short.
Qed.

Lemma X15_csv_preview_has_no_gap_witness :
  let f := mkFile (js "t.csv") (Loaded (lit "a,b,c|1,x|2,y,z|")) ReadError in
  let st := upload (fun _ => inr []) initialState (Some f) in
  let row := nth 0 (data st) [] in
  get row (js "c") <> VUndefined
  /\ previewCell (fun _ => js "#") (fun _ => js "#") row (js "c") = [].
Proof.
  intros f st row.
  assert (Hext : fileExtension (name f) = js "csv") by reflexivity.
  assert (Hr : In row (data st)) by (vm_compute; tauto).
  assert (Hc : In (js "c") (columns st)) by (vm_compute; tauto).
  destruct (@X15_csv_preview_has_no_gap (fun _ => js "#") (fun _ => js "#")
              (fun _ => inr []) initialState f row (js "c") Hext Hr Hc)
    as (Hdef & _ & _ & Hshort).
  split; [exact Hdef|].
  apply Hshort; [vm_compute; reflexivity|simpl; lia].
Defined.

(** ** The states of the page *)

Lemma preferredYAxis_in (cols : list jsstring) (d : list Obj) :
  preferredYAxis cols d = [] \/ In (preferredYAxis cols d) cols.
Proof.
  destruct d as [|row0 rest].
  - left. unfold preferredYAxis, numericColumns.
    assert (E : filter (fun _ : jsstring => false) cols = [])
      by (induction cols; [reflexivity|assumption]).
    rewrite E. reflexivity.
  - rewrite preferredYAxis_spec.
    destruct (specDefaultY cols row0) as [|c s] eqn:E; [now left|].
    right. rewrite <- E. apply specDefaultY_numeric. rewrite E. discriminate.
Qed.

Lemma reachable_states (xlsxRows : jsstring -> Outcome) (st : AppState) :
  reachable xlsxRows st ->
  loading st = false
  /\ In (chartType st) chartTypes
  /\ columns st = Object_keys (hd [] (data st))
  /\ (data st <> [] -> error st = [])
  /\ (columns st <> [] ->
      In (xAxis st) (columns st)
      /\ (yAxis st = [] \/ In (yAxis st) (columns st))).
Proof.
  induction 1 as [|st ev Hreach (Hl & Ht & Hc & He & Ha) Hoff].
  - split; [reflexivity|]. split; [now left|]. split; [reflexivity|].
    split; intros Hnil; contradiction Hnil; reflexivity.
  - destruct ev as [[f|]|id|value|value]; cbn [handleEvent].
    + rewrite upload_outcome.
      destruct (snd (readAndParse xlsxRows f)) as [m|[|row0 rest]].
      * split; [reflexivity|]. split; [exact Ht|]. split; [reflexivity|].
        split; intros Hnil; contradiction Hnil; reflexivity.
      * split; [reflexivity|]. split; [exact Ht|]. split; [reflexivity|].
        split; intros Hnil; contradiction Hnil; reflexivity.
      * unfold axisEffect. cbn [columns data].
        destruct (Object_keys row0) as [|c0 cs] eqn:Ek;
          cbn [loading chartType columns data error hd xAxis yAxis];
          rewrite Ek;
          (split; [reflexivity|]); (split; [exact Ht|]);
          (split; [reflexivity|]); (split; [reflexivity|]).
        -- intros Hnil. contradiction Hnil. reflexivity.
        -- intros _. split; [now left|apply preferredYAxis_in].
    + split; [exact Hl|]. split; [exact Ht|]. split; [exact Hc|].
      split; [exact He|exact Ha].
    + destruct Hoff as [_ Hid].
      cbn [loading chartType columns data error xAxis yAxis].
      split; [exact Hl|]. split; [exact Hid|]. split; [exact Hc|].
      split; [exact He|exact Ha].
    + destruct Hoff as [_ Hv].
      cbn [loading chartType columns data error xAxis yAxis].
      split; [exact Hl|]. split; [exact Ht|]. split; [exact Hc|].
      split; [exact He|]. intros Hne. split; [exact Hv|now apply Ha].
    + destruct Hoff as [_ Hv].
      cbn [loading chartType columns data error xAxis yAxis].
      split; [exact Hl|]. split; [exact Ht|]. split; [exact Hc|].
      split; [exact He|]. intros Hne. split; [now apply Ha|now right].
Qed.

(** X16: in every state the page can reach from its first render by
    file inputs, clicks on the chart type buttons and choices in the axis
    selects, no read is under way, the chart type is Bar, Line or Pie (so
    the chart area is never left blank), the columns are the keys of the
    first row, rows and an error message are never shown together, and as
    soon as there are columns the X axis is one of them and the Y axis is
    one of them or empty. *)
Theorem X16_states_of_the_page (xlsxRows : jsstring -> Outcome) (st : AppState) :
  reachable xlsxRows st ->
  loading st = false
  /\ In (chartType st) chartTypes
  /\ renderChart st <> NoChart
  /\ columns st = Object_keys (hd [] (data st))
  /\ (data st <> [] -> error st = [])
  /\ (columns st <> [] ->
      In (xAxis st) (columns st)
      /\ (yAxis st = [] \/ In (yAxis st) (columns st))).
Proof.
  intros H. destruct (reachable_states H) as (Hl & Ht & Hc & He & Ha).
  split; [exact Hl|]. split; [exact Ht|].
  split; [|split; [exact Hc|split; [exact He|exact Ha]]].
  destruct (processedData (data st) (xAxis st) (yAxis st)) as [|r t] eqn:E.
  - rewrite (renderChart_placeholder st E). discriminate.
  - assert (Hne : processedData (data st) (xAxis st) (yAxis st) <> [])
      by (rewrite E; discriminate).
    rewrite (renderChart_projection st Hne).
    destruct Ht as [<-|[<-|[<-|[]]]]; discriminate.
Qed.

Lemma X16_states_of_the_page_witness :
  let f := mkFile (js "sales.csv") (Loaded (lit "Region,Sales|North,7|South,12|"))
                  ReadError in
  let g := mkFile (js "notes.txt") (Loaded (js "hello")) ReadError in
  let events := [ChooseFile (Some f); ClickChartType (js "Pie");
                 ChangeXAxis (js "Sales"); ChooseFile (Some g)] in
  let st := fold_left (handleEvent (fun _ => inr [])) events initialState in
  xAxis st = js "Sales" /\ chartType st = js "Pie" /\ data st = []
  /\ renderChart st <> NoChart.
Proof.
  intros f g events st.
  split; [vm_compute; reflexivity|]. split; [vm_compute; reflexivity|].
  split; [vm_compute; reflexivity|].
  refine (proj1 (proj2 (proj2 (@X16_states_of_the_page (fun _ => inr []) st _)))).
  unfold st, events. cbn [fold_left].
  apply reach_event; [apply reach_event; [apply reach_event;
    [apply reach_event; [apply reach_initial|exact I]|]|]|exact I].
  - split; [vm_compute; discriminate|vm_compute; tauto].
  - split; [vm_compute; discriminate|vm_compute; tauto].
Defined.

(** ** The clean-up of a spreadsheet row *)

Lemma Object_entries_parts (o : Obj) :
  Object_entries o
  = List.map snd (fold_right insertByIndex [] (indexedEntries o)) ++ namedEntries o.
Proof. reflexivity. Qed.

Lemma indexedEntries_tagged (o : Obj) : tagged (indexedEntries o).
Proof.
  unfold tagged, indexedEntries. induction o as [|kv t IH]; [constructor|].
  simpl. destruct (arrayIndex (fst kv)) eqn:E; [|exact IH].
  constructor; [exact E|exact IH].
Qed.

Lemma insertByIndex_tagged (e : N * (jsstring * Value)) (l : list (N * (jsstring * Value))) :
  arrayIndex (fst (snd e)) = Some (fst e) -> tagged l -> tagged (insertByIndex e l).
Proof.
  unfold tagged. intros He Hl. induction Hl as [|y t Hy Ht IH]; simpl.
  - now repeat constructor.
  - destruct (N.leb (fst e) (fst y)); repeat constructor; assumption.
Qed.

Lemma sortByIndex_tagged (l : list (N * (jsstring * Value))) :
  tagged l -> tagged (fold_right insertByIndex [] l).
Proof.
  intros H. induction H as [|x t Hx Ht IH]; [constructor|].
  simpl. now apply insertByIndex_tagged.
Qed.

Lemma indexedEntries_tagged_back (l : list (N * (jsstring * Value))) :
  tagged l -> indexedEntries (List.map snd l) = l /\ namedEntries (List.map snd l) = [].
Proof.
  unfold indexedEntries, namedEntries.
  intros H. induction H as [|[i kv] t Hx Ht [IH1 IH2]]; [now split|].
  simpl in *. rewrite Hx. simpl. now rewrite IH1, IH2.
Qed.

Lemma namedEntries_twice (o : Obj) :
  indexedEntries (namedEntries o) = [] /\ namedEntries (namedEntries o) = namedEntries o.
Proof.
  unfold indexedEntries, namedEntries.
  induction o as [|kv t [IH1 IH2]]; [now split|].
  simpl. destruct (arrayIndex (fst kv)) eqn:E; [now split|].
  simpl. rewrite E. now rewrite IH1, IH2.
Qed.

Lemma insertByIndex_sorted (e : N * (jsstring * Value)) (l : list (N * (jsstring * Value))) :
  Sorted (fun a b => (fst a <= fst b)%N) l ->
  Sorted (fun a b => (fst a <= fst b)%N) (insertByIndex e l).
Proof.
  intros H. induction H as [|y t Ht IH Hy]; simpl.
  - repeat constructor.
  - destruct (N.leb (fst e) (fst y)) eqn:E.
    + apply N.leb_le in E. repeat constructor; assumption.
    + apply N.leb_gt in E. constructor; [exact IH|].
      destruct t as [|z t']; simpl.
      * constructor. lia.
      * destruct (N.leb (fst e) (fst z)); constructor; [lia|].
        now inversion Hy.
Qed.

Lemma sortByIndex_sorted (l : list (N * (jsstring * Value))) :
  Sorted (fun a b => (fst a <= fst b)%N) (fold_right insertByIndex [] l).
Proof.
  induction l as [|x t IH]; [constructor|]. simpl. now apply insertByIndex_sorted.
Qed.

Lemma sortByIndex_of_sorted (l : list (N * (jsstring * Value))) :
  Sorted (fun a b => (fst a <= fst b)%N) l -> fold_right insertByIndex [] l = l.
Proof.
  intros H. induction H as [|x t Ht IH Hx]; [reflexivity|].
  simpl. rewrite IH. destruct Hx as [|y t' Hxy]; [reflexivity|].
  simpl. apply N.leb_le in Hxy. now rewrite Hxy.
Qed.

(** Listing the entries of the listed entries changes nothing. *)
Lemma Object_entries_twice (o : Obj) :
  Object_entries (Object_entries o) = Object_entries o.
Proof.
  rewrite (Object_entries_parts (Object_entries o)).
  rewrite (Object_entries_parts o).
  set (ranked := fold_right insertByIndex [] (indexedEntries o)).
  assert (Htag : tagged ranked) by (apply sortByIndex_tagged, indexedEntries_tagged).
  destruct (indexedEntries_tagged_back Htag) as [Hi Hn].
  destruct (namedEntries_twice o) as [Hi' Hn'].
  unfold indexedEntries in *. unfold namedEntries in *.
  rewrite flat_map_app, filter_app, Hi, Hn, Hi', Hn', app_nil_r.
  rewrite sortByIndex_of_sorted by apply sortByIndex_sorted.
  reflexivity.
Qed.

Lemma getOwn_none (o : Obj) (k : jsstring) :
  getOwn o k = None <-> ~ In k (List.map fst o).
Proof.
  rewrite <- hasKey_In, getOwn_hasKey.
  destruct (getOwn o k); split; intros H; congruence.
Qed.

Lemma setOwn_fresh (o : Obj) (k : jsstring) (v : Value) :
  getOwn o k = None -> setOwn o k v = o ++ [(k, v)].
Proof.
  induction o as [|[k0 v0] t IH]; simpl; [reflexivity|].
  destruct (str_eqb k0 k); [discriminate|]. intros H. now rewrite IH.
Qed.

Lemma fold_set_fresh (l : list (jsstring * Value)) :
  forall acc,
    NoDup (List.map fst acc ++ List.map fst l) ->
    ~ In (js "__proto__") (List.map fst l) ->
    fold_left (fun newRow kv => set newRow (fst kv) (normalize (snd kv))) l acc
    = acc ++ List.map cleanEntry l.
Proof.
  induction l as [|[k v] t IH]; intros acc Hnd Hp; simpl.
  - now rewrite app_nil_r.
  - assert (Hfresh : getOwn acc k = None).
    { apply getOwn_none. intros Hin.
      apply NoDup_remove_2 in Hnd. apply Hnd. apply in_or_app. now left. }
    assert (Hk : str_eqb k (js "__proto__") = false).
    { apply str_eqb_neq. intros ->. apply Hp. now left. }
    unfold set at 2. rewrite Hfresh, Hk, (@setOwn_fresh acc k (normalize v) Hfresh).
    rewrite IH.
    + now rewrite <- app_assoc.
    + rewrite map_app, <- app_assoc. exact Hnd.
    + intros Hin. apply Hp. now right.
Qed.

Lemma Object_entries_wellFormed (o : Obj) :
  wellFormed o -> wellFormed (Object_entries o).
Proof.
  intros [Hnd Hp].
  pose proof (Permutation_map fst (Object_entries_perm o)) as Hperm.
  split.
  - exact (Permutation_NoDup (Permutation_sym Hperm) Hnd).
  - intros Hin. apply Hp. exact (Permutation_in _ Hperm Hin).
Qed.

Lemma cleanEntry_keys (l : list (jsstring * Value)) :
  List.map fst (List.map cleanEntry l) = List.map fst l.
Proof. rewrite map_map. reflexivity. Qed.

(** The cleaned row, entry by entry. *)
Lemma cleanRow_entries (row : Obj) :
  wellFormed row -> cleanRow row = List.map cleanEntry (Object_entries row).
Proof.
  intros H. destruct (Object_entries_wellFormed H) as [Hnd Hp].
  unfold cleanRow. now rewrite fold_set_fresh.
Qed.

Lemma In_getOwn (o : Obj) (k : jsstring) (v : Value) :
  NoDup (List.map fst o) -> In (k, v) o -> getOwn o k = Some v.
Proof.
  induction o as [|[k0 v0] t IH]; simpl; intros Hnd Hin; [contradiction|].
  apply NoDup_cons_iff in Hnd as [Hk0 Hnd].
  destruct Hin as [E|Hin].
  - injection E as -> ->. now rewrite str_eqb_refl.
  - destruct (str_eqb k0 k) eqn:E; [|now apply IH].
    apply str_eqb_eq in E. subst k0. exfalso. apply Hk0.
    apply in_map_iff. now exists (k, v).
Qed.

Lemma getOwn_entry (o : Obj) (k : jsstring) (v : Value) :
  getOwn o k = Some v -> In (k, v) o.
Proof.
  induction o as [|[k0 v0] t IH]; simpl; [discriminate|].
  destruct (str_eqb k0 k) eqn:E.
  - apply str_eqb_eq in E. subst k0. intros H. injection H as ->. now left.
  - intros H. right. now apply IH.
Qed.

Lemma getOwn_perm (o o' : Obj) (k : jsstring) :
  NoDup (List.map fst o) -> Permutation o' o -> getOwn o' k = getOwn o k.
Proof.
  intros Hnd Hperm.
  assert (Hnd' : NoDup (List.map fst o'))
    by exact (Permutation_NoDup (Permutation_sym (Permutation_map fst Hperm)) Hnd).
  destruct (getOwn o k) as [v|] eqn:E.
  - apply In_getOwn; [exact Hnd'|].
    apply (Permutation_in _ (Permutation_sym Hperm)). now apply getOwn_entry.
  - apply getOwn_none. apply getOwn_none in E. intros Hin. apply E.
    exact (Permutation_in _ (Permutation_map fst Hperm) Hin).
Qed.

Lemma getOwn_cleanEntry (l : list (jsstring * Value)) (k : jsstring) :
  getOwn (List.map cleanEntry l) k = option_map normalize (getOwn l k).
Proof.
  induction l as [|[k0 v0] t IH]; [reflexivity|].
  simpl. destruct (str_eqb k0 k); [reflexivity|exact IH].
Qed.

Lemma normalize_inherited (k : jsstring) :
  normalize (get [] k) = get [] k.
Proof.
  unfold get. cbn [getOwn].
  destruct (getOwn objectPrototype k) as [v|] eqn:E; [|reflexivity].
  apply getOwn_entry in E. unfold objectPrototype in E. cbn [In] in E.
  repeat (destruct E as [E|E]; [injection E as _ <-; reflexivity|]).
  contradiction.
Qed.

Lemma normalize_twice (v : Value) : normalize (normalize v) = normalize v.
Proof.
  destruct v as [| |b|n|s|c]; try reflexivity.
  simpl. destruct (negb (strIsNaN s) && negb (str_eqb (trim s) []))%bool eqn:E;
    [reflexivity|]. simpl. now rewrite E.
Qed.

Lemma cleaned_entries_listed (row : Obj) :
  Object_entries (List.map cleanEntry (Object_entries row))
  = List.map cleanEntry (Object_entries row).
Proof.
  unfold cleanEntry. rewrite (Object_entries_map normalize (Object_entries row)).
  now rewrite Object_entries_twice.
Qed.

Lemma cleanRow_keys (row : Obj) :
  wellFormed row -> Object_keys (cleanRow row) = Object_keys row.
Proof.
  intros Hwf. rewrite (cleanRow_entries Hwf).
  unfold Object_keys. rewrite cleaned_entries_listed. apply cleanEntry_keys.
Qed.

(** A cleaned row holds cleaned values only. *)
Lemma cleanRow_cleaned (row : Obj) :
  rowAll (fun v => normalize v = v) (cleanRow row).
Proof.
  unfold cleanRow.
  assert (H : forall l acc, rowAll (fun v => normalize v = v) acc ->
                rowAll (fun v => normalize v = v)
                  (fold_left (fun newRow kv => set newRow (fst kv) (normalize (snd kv)))
                             l acc)).
  { induction l as [|kv l IH]; intros acc Hacc; [exact Hacc|].
    simpl. apply IH. apply set_all; [exact Hacc|apply normalize_twice]. }
  apply H. intros kv [].
Qed.

(** X17: the clean-up of a spreadsheet row keeps its keys and their
    order, puts under each key the cleaned value, so that reading any key
    of the cleaned row gives the cleaned value of the row, and changes
    nothing when it is applied again. *)
Theorem X17_cleanRow_keeps_the_keys (row : Obj) :
  wellFormed row ->
  Object_keys (cleanRow row) = Object_keys row
  /\ (forall k, get (cleanRow row) k = normalize (get row k))
  /\ cleanRow (cleanRow row) = cleanRow row
  /\ wellFormed (cleanRow row).
Proof.
  intros Hwf. pose proof (Object_entries_wellFormed Hwf) as Hwfe.
  split; [now apply cleanRow_keys|].
  rewrite (cleanRow_entries Hwf).
  assert (Hwfc : wellFormed (List.map cleanEntry (Object_entries row))).
  { unfold wellFormed. rewrite cleanEntry_keys. exact Hwfe. }
  split; [|split].
  - intros k.
    assert (E : getOwn (List.map cleanEntry (Object_entries row)) k
                = option_map normalize (getOwn row k)).
    { rewrite getOwn_cleanEntry.
      now rewrite (getOwn_perm k (proj1 Hwf) (Object_entries_perm row)). }
    pose proof (normalize_inherited k) as Hin.
    unfold get in *. rewrite E. cbn [getOwn] in Hin.
    destruct (getOwn row k) as [v|]; [reflexivity|].
    cbn [option_map]. symmetry. exact Hin.
  - rewrite (cleanRow_entries Hwfc), cleaned_entries_listed, map_map.
    apply map_ext. intros [k v]. unfold cleanEntry. cbn [fst snd].
    now rewrite normalize_twice.
  - exact Hwfc.
Qed.

Lemma X17_cleanRow_keeps_the_keys_witness :
  let row := [(js "name", VStr (js "Ann")); (js "2021", VStr (js " 12 "));
              (js "7", VStr (js "0x10")); (js "note", VStr (js "  "))] in
  Object_keys (cleanRow row) = [js "7"; js "2021"; js "name"; js "note"]
  /\ get (cleanRow row) (js "2021") = VNum (ofZ 12)
  /\ get (cleanRow row) (js "note") = VStr (js "  ").
Proof.
  intros row.
  assert (Hwf : wellFormed row).
  { split.
    - cbn [List.map fst row].
      repeat (constructor; [cbn [In]; intros H;
                            repeat (destruct H as [H|H]; [discriminate H|]);
                            exact H|]).
      constructor.
    - cbn [List.map fst row In]. intros H.
      repeat (destruct H as [H|H]; [discriminate H|]). exact H. }
  destruct (X17_cleanRow_keeps_the_keys Hwf) as (Hk & Hg & _).
  split; [rewrite Hk; vm_compute; reflexivity|].
  split; rewrite Hg; vm_compute; reflexivity.
Defined.

(** X18: when the library returns rows for a workbook, the upload shows
    one cleaned row for each of them and no error, no cell of the dataset
    is left that the clean-up would change, and when the first row is
    well formed the columns are its keys, in its order. *)
Theorem X18_spreadsheet_upload
    (xlsxRows : jsstring -> Outcome) (st : AppState) (f : File)
    (binaryStr : jsstring) (row0 : Obj) (rest : list Obj) :
  fileExtension (name f) = js "xlsx" \/ fileExtension (name f) = js "xls" ->
  asBinaryString f = Loaded binaryStr -> binaryStr <> [] ->
  xlsxRows binaryStr = inr (row0 :: rest) ->
  data (upload xlsxRows st (Some f)) = List.map cleanRow (row0 :: rest)
  /\ error (upload xlsxRows st (Some f)) = []
  /\ (forall row kv, In row (data (upload xlsxRows st (Some f))) -> In kv row ->
        normalize (snd kv) = snd kv)
  /\ (wellFormed row0 -> columns (upload xlsxRows st (Some f)) = Object_keys row0).
Proof.
  intros Hext Hread Hne Hrows.
  assert (Hparse : snd (readAndParse xlsxRows f)
                   = inr (cleanRow row0 :: List.map cleanRow rest)).
  { unfold readAndParse.
    destruct Hext as [-> | ->]; cbn [str_eqb]; simpl;
      unfold parseExcelFile; rewrite Hread;
      (destruct binaryStr; [contradiction|]); cbn [falsy]; now rewrite Hrows. }
  rewrite upload_outcome, Hparse.
  destruct (axisEffect_keeps
              (mkState (cleanRow row0 :: List.map cleanRow rest)
                       (Object_keys (cleanRow row0)) (xAxis st) (yAxis st)
                       (chartType st) (name f) false []))
    as (-> & -> & _ & _ & _ & ->).
  cbn [data columns error].
  split; [reflexivity|]. split; [reflexivity|]. split.
  - intros row kv Hrow Hkv.
    change (cleanRow row0 :: List.map cleanRow rest)
      with (List.map cleanRow (row0 :: rest)) in Hrow.
    apply in_map_iff in Hrow as (raw & <- & _).
    exact (cleanRow_cleaned raw kv Hkv).
  - apply cleanRow_keys.
Qed.

Lemma X18_spreadsheet_upload_witness :
  let sheet := [ [(js "item", VStr (js "pen")); (js "price", VStr (js "1.5"))];
                 [(js "item", VStr (js "ink")); (js "price", VNum (ofZ 4))] ] in
  let f := mkFile (js "stock.XLSX") ReadError (Loaded (js "PK")) in
  let st := upload (fun _ => inr sheet) initialState (Some f) in
  data st = [ [(js "item", VStr (js "pen")); (js "price", VNum (StringToNumber (js "1.5")))];
              [(js "item", VStr (js "ink")); (js "price", VNum (ofZ 4))] ]
  /\ error st = [].
Proof.
  intros sheet f st.
  destruct (@X18_spreadsheet_upload (fun _ => inr sheet) initialState f (js "PK")
              _ _ (or_introl eq_refl) eq_refl ltac:(discriminate) eq_refl)
    as (Hd & He & _).
  split; [|exact He].
  etransitivity; [exact Hd|]. vm_compute. reflexivity.
Defined.

(** ** Uploading again *)

(** X19: uploading the same file twice in a row leaves the state the
    first upload left, whatever the file and the state before. *)
Theorem X19_upload_again_changes_nothing
    (xlsxRows : jsstring -> Outcome) (st : AppState) (f : File) :
  upload xlsxRows (upload xlsxRows st (Some f)) (Some f)
  = upload xlsxRows st (Some f).
Proof.
  rewrite (upload_outcome xlsxRows (upload xlsxRows st (Some f)) f).
  rewrite (upload_outcome xlsxRows st f).
  destruct (snd (readAndParse xlsxRows f)) as [m|[|row0 rest]]; try reflexivity.
  unfold axisEffect. cbn [columns data].
  destruct (Object_keys row0) as [|c0 cs] eqn:Ek;
    cbn [xAxis yAxis chartType columns data]; rewrite ?Ek; reflexivity.
Qed.
